(** * Task routes and Task model: a shallow embedding

    Sources embedded here:
    - [backend/routes/tasks.js]   the Express handlers of /api/tasks;
    - the Mongoose [Task] schema  (pre-save hook, [isOverdue] virtual,
      [getUserStats]);
    - the client helpers [taskUtils.isOverdue], [taskUtils.filterTasks] and
      [taskUtils.sortTasks], the request [tasksAPI.getTasks], and the tags,
      pagination and password meter of the task and registration pages;
    - the password validators of [backend/routes/auth.js].

    Conventions.

    Instants are milliseconds since the epoch, in [Z].

    Strings.  A [string] stands for the JavaScript string whose k-th UTF-16
    code unit is the code of its k-th character.  The strings of this
    development are therefore the JavaScript strings with every code unit
    below 256 (Basic Latin and Latin-1 Supplement), one character per code
    unit, and [String.length] is the [length] of the JavaScript string.
    White space and letter case are those of JavaScript on that range.  A
    JavaScript string with a code unit above 255 has no counterpart here.

    Numbers.  The whole numbers of the handlers are in [Z].  JavaScript
    computes on doubles, which hold every integer up to [JS.maxSafe] exactly;
    a statement about the arithmetic of page numbers says so where it depends
    on that bound.

    A collection is the list of its documents in insertion order; the order
    in which a query returns documents that its sort does not separate is
    the engine's choice (see [tieRank]).  Request bodies and query strings
    carry the JSON types of the client interfaces ([CreateTaskData],
    [TaskFilters]): strings, arrays of strings, and [null] for [dueDate]. *)

From Stdlib Require Import ZArith List Bool String Ascii Lia.
From Stdlib Require Import Sorted Permutation.
Import ListNotations.

Open Scope string_scope.
Open Scope Z_scope.

(* ------------------------------------------------------------------ *)
(** ** JavaScript strings and numbers *)

Module JS.

(** The UTF-16 code unit a character stands for. *)
Definition codeUnit (c : ascii) : N := N_of_ascii c.

(** [Number.MAX_SAFE_INTEGER], 2^53 - 1: up to it every integer is a double
    and sums, differences and products of integers are exact. *)
Definition maxSafe : Z := 9007199254740991.

(** White space and line terminators, the characters [\s] matches and
    [trim] strips: U+0009 to U+000D, U+0020 and, alone of the range above
    U+007F that a [string] covers, the no-break space U+00A0. *)
Definition isWhitespace (c : ascii) : bool :=
  let n := codeUnit c in
  ((9 <=? n) && (n <=? 13))%N || (n =? 32)%N || (n =? 160)%N.

Fixpoint ltrim (s : string) : string :=
  match s with
  | String c r => if isWhitespace c then ltrim r else s
  | EmptyString => EmptyString
  end.

Fixpoint rev_append (s acc : string) : string :=
  match s with
  | String c r => rev_append r (String c acc)
  | EmptyString => acc
  end.

Definition rev (s : string) : string := rev_append s "".

(** A string made of whitespace only. *)
Fixpoint isBlank (s : string) : bool :=
  match s with
  | String c r => isWhitespace c && isBlank r
  | EmptyString => true
  end.

(** [String.prototype.trim] and validator.js [trim()]. *)
Definition trim (s : string) : string := rev (ltrim (rev (ltrim s))).

(** [toLowerCase] on one character: the capital letters are A to Z
    (U+0041 to U+005A) and, in the Latin-1 Supplement, U+00C0 to U+00DE
    without the multiplication sign U+00D7; each has its small letter 32
    places on. *)
Definition isCapital (c : ascii) : bool :=
  let n := codeUnit c in
  ((65 <=? n) && (n <=? 90))%N
  || ((192 <=? n) && (n <=? 222) && negb (n =? 215))%N.

Definition toLowerChar (c : ascii) : ascii :=
  if isCapital c then ascii_of_N (codeUnit c + 32) else c.

Fixpoint toLowerCase (s : string) : string :=
  match s with
  | String c r => String (toLowerChar c) (toLowerCase r)
  | EmptyString => EmptyString
  end.

(** [s.startsWith(p)] *)
Fixpoint startsWith (s p : string) : bool :=
  match p, s with
  | EmptyString, _ => true
  | String a p', String b s' => Ascii.eqb a b && startsWith s' p'
  | String _ _, EmptyString => false
  end.

(** [s.includes(term)] *)
Fixpoint includes (s term : string) : bool :=
  startsWith s term ||
  match s with
  | String _ r => includes r term
  | EmptyString => false
  end.

(** [s.toLowerCase().includes(term.toLowerCase())] *)
Definition includesI (s term : string) : bool :=
  includes (toLowerCase s) (toLowerCase term).

(** A non-empty string is truthy. *)
Definition truthy (s : string) : bool :=
  match s with EmptyString => false | _ => true end.

Definition isDigit (c : ascii) : bool :=
  let n := N_of_ascii c in ((48 <=? n) && (n <=? 57))%N.

Definition digitVal (c : ascii) : Z := Z.of_N (N_of_ascii c) - 48.

Fixpoint allDigits (s : string) : bool :=
  match s with
  | String c r => isDigit c && allDigits r
  | EmptyString => true
  end.

(** Value of the longest prefix of decimal digits. *)
Fixpoint digitsVal (acc : Z) (s : string) : Z :=
  match s with
  | String c r => if isDigit c then digitsVal (10 * acc + digitVal c) r else acc
  | EmptyString => acc
  end.

Definition startsWithDigit (s : string) : bool :=
  match s with String c _ => isDigit c | EmptyString => false end.

(** [parseInt(s, 10)]; [None] is NaN.  The value is the exact integer the
    digits denote, which is the double [parseInt] returns as long as it does
    not exceed [maxSafe]. *)
Definition parseInt10 (s : string) : option Z :=
  match ltrim s with
  | String "+" r => if startsWithDigit r then Some (digitsVal 0 r) else None
  | String "-" r => if startsWithDigit r then Some (- digitsVal 0 r) else None
  | r => if startsWithDigit r then Some (digitsVal 0 r) else None
  end.

(** [parseInt(v, 10) || d] for a possibly absent [v]: NaN and 0 are falsy. *)
Definition parseIntOr (v : option string) (d : Z) : Z :=
  match v with
  | None => d
  | Some s =>
      match parseInt10 s with
      | Some n => if n =? 0 then d else n
      | None => d
      end
  end.

(** validator.js [isInt]: the string matches [^[-+]?[0-9]+$] ... *)
Definition isIntString (s : string) : bool :=
  match s with
  | String "+" r | String "-" r => truthy r && allDigits r
  | _ => truthy s && allDigits s
  end.

(** ... and its numeric value lies within the given bounds. *)
Definition isInt (min : Z) (max : option Z) (s : string) : bool :=
  isIntString s &&
  match parseInt10 s with
  | Some n => (min <=? n) && match max with Some m => n <=? m | None => true end
  | None => false
  end.

(** validator.js [isIn] and [Array.prototype.includes] on strings. *)
Definition isIn (xs : list string) (s : string) : bool :=
  existsb (String.eqb s) xs.

(** validator.js [isLength]: [str.length] less the number of surrogate pairs
    and of variation selectors (U+FE0E, U+FE0F), of which a [string] has
    none; the [maxlength] validators of the schema compare [length]
    itself. *)
Definition isLength (min : nat) (max : option nat) (s : string) : bool :=
  (min <=? String.length s)%nat &&
  match max with Some m => (String.length s <=? m)%nat | None => true end.

(** The decimal digits of a non-negative integer, least significant first;
    [fuel] bounds their number. *)
Fixpoint digitsRev (fuel : nat) (n : Z) : string :=
  match fuel with
  | O => EmptyString
  | S f =>
      let d := ascii_of_N (Z.to_N (48 + n mod 10)) in
      if n <? 10 then String d EmptyString else String d (digitsRev f (n / 10))
  end.

(** The number whose digits, least significant first, are [s]. *)
Fixpoint valRev (s : string) : Z :=
  match s with
  | String d r => digitVal d + 10 * valRev r
  | EmptyString => 0
  end.

(** [Number.prototype.toString] on a whole number. *)
Definition numberToString (n : Z) : string :=
  if n <? 0 then String "-" (rev (digitsRev (S (Z.to_nat (- n))) (- n)))
  else rev (digitsRev (S (Z.to_nat n)) n).

(** [s.split(',')] *)
Fixpoint splitComma (s : string) : list string :=
  match s with
  | EmptyString => [EmptyString]
  | String c r =>
      if Ascii.eqb c "," then EmptyString :: splitComma r
      else match splitComma r with
           | h :: t => String c h :: t
           | [] => [String c EmptyString]
           end
  end.

Definition isLower (c : ascii) : bool :=
  let n := N_of_ascii c in ((97 <=? n) && (n <=? 122))%N.

Definition isUpper (c : ascii) : bool :=
  let n := N_of_ascii c in ((65 <=? n) && (n <=? 90))%N.

(** [re.test(s)] for a pattern that is one character class. *)
Fixpoint hasChar (class : ascii -> bool) (s : string) : bool :=
  match s with
  | String c r => class c || hasChar class r
  | EmptyString => false
  end.

(** A line terminator: [.] in a pattern does not match it. *)
Definition isLineEnd (c : ascii) : bool :=
  let n := N_of_ascii c in (n =? 10)%N || (n =? 13)%N.

(** The part of [s] that [.*] can run over from the start. *)
Fixpoint firstLine (s : string) : string :=
  match s with
  | String c r => if isLineEnd c then EmptyString else String c (firstLine r)
  | EmptyString => EmptyString
  end.

End JS.

(* ------------------------------------------------------------------ *)
(** ** Time *)

Definition msPerDay : Z := 86400000.

(** The k-th reading of the system clock ([new Date()]) while one request
    is served. *)
Definition Clock := nat -> Z.

(* ------------------------------------------------------------------ *)
(** ** The Task model (Mongoose schema) *)

Module TaskModel.

Inductive Status := Pending | InProgress | Completed | Cancelled.
Inductive Priority := Low | Medium | High | Urgent.

Definition statusNames : list string :=
  ["pending"; "in-progress"; "completed"; "cancelled"].
Definition priorityNames : list string := ["low"; "medium"; "high"; "urgent"].

Definition statusName (s : Status) : string :=
  match s with
  | Pending => "pending"
  | InProgress => "in-progress"
  | Completed => "completed"
  | Cancelled => "cancelled"
  end.

Definition priorityName (p : Priority) : string :=
  match p with
  | Low => "low"
  | Medium => "medium"
  | High => "high"
  | Urgent => "urgent"
  end.

Definition statusOfName (s : string) : option Status :=
  find (fun x => String.eqb (statusName x) s)
       [Pending; InProgress; Completed; Cancelled].

Definition priorityOfName (s : string) : option Priority :=
  find (fun x => String.eqb (priorityName x) s) [Low; Medium; High; Urgent].

Definition Status_eqb (a b : Status) : bool :=
  match a, b with
  | Pending, Pending | InProgress, InProgress
  | Completed, Completed | Cancelled, Cancelled => true
  | _, _ => false
  end.

Definition ObjectId := Z.

Record Task := mkTask {
  _id : ObjectId;
  title : string;
  description : option string;
  status : Status;
  priority : Priority;
  dueDate : option Z;
  tags : list string;
  user : ObjectId;
  completedAt : option Z;
  createdAt : Z;
  updatedAt : Z
}.

Definition isSome {A} (o : option A) : bool :=
  match o with Some _ => true | None => false end.

Definition set_completedAt (v : option Z) (t : Task) : Task :=
  mkTask (_id t) (title t) (description t) (status t) (priority t)
         (dueDate t) (tags t) (user t) v (createdAt t) (updatedAt t).

(** [taskSchema.pre('save', ...)]; [statusModified] is
    [this.isModified('status')] and [now] the hook's [new Date()]. *)
Definition preSave (statusModified : bool) (now : Z) (t : Task) : Task :=
  if statusModified then
    if Status_eqb (status t) Completed && negb (isSome (completedAt t)) then
      set_completedAt (Some now) t
    else if negb (Status_eqb (status t) Completed) then
      set_completedAt None t
    else t
  else t.

(** [taskSchema.virtual('isOverdue')]:
    [this.dueDate && this.dueDate < new Date() && this.status !== 'completed'].
    [None] is the falsy non-boolean ([undefined] or [null]) the expression
    yields when there is no due date. *)
Definition isOverdue (now : Z) (t : Task) : option bool :=
  match dueDate t with
  | None => None
  | Some d => Some ((d <? now) && negb (Status_eqb (status t) Completed))
  end.

(** The [dueDate] validator of the schema: [!value || value > new Date()]. *)
Definition dueDateValidator (now : Z) (value : option Z) : bool :=
  match value with
  | None => true
  | Some d => now <? d
  end.

Definition dueDateMessage : string := "Due date must be in the future".

(** Result object of [getUserStats]. *)
Record UserStats := mkUserStats {
  total : Z;
  pending : Z;
  in_progress : Z;
  completed : Z;
  cancelled : Z
}.

Definition countStatus (s : Status) (ts : list Task) : Z :=
  Z.of_nat (List.length (filter (fun t => Status_eqb (status t) s) ts)).

(** The pipeline [$match {user}] then [$group {_id: '$status', count}]:
    one group per status that occurs. *)
Definition aggregateByStatus (userId : ObjectId) (db : list Task)
  : list (Status * Z) :=
  let mine := filter (fun t => user t =? userId) db in
  filter (fun g => 0 <? snd g)
         (map (fun s => (s, countStatus s mine))
              [Pending; InProgress; Completed; Cancelled]).

(** [result[stat._id] = stat.count; result.total += stat.count] *)
Definition addGroup (r : UserStats) (g : Status * Z) : UserStats :=
  let '(s, n) := g in
  match s with
  | Pending => mkUserStats (total r + n) n (in_progress r) (completed r) (cancelled r)
  | InProgress => mkUserStats (total r + n) (pending r) n (completed r) (cancelled r)
  | Completed => mkUserStats (total r + n) (pending r) (in_progress r) n (cancelled r)
  | Cancelled => mkUserStats (total r + n) (pending r) (in_progress r) (completed r) n
  end.

Definition getUserStats (userId : ObjectId) (db : list Task) : UserStats :=
  fold_left addGroup (aggregateByStatus userId db) (mkUserStats 0 0 0 0 0).

End TaskModel.

Import TaskModel.

(* ------------------------------------------------------------------ *)
(** ** Requests, responses and the query language of the store *)

(** Where a validation error points: a field, or an element of an array. *)
Inductive Path := PField (name : string) | PIndex (name : string) (i : nat).

Record FieldError := mkFieldError { param : Path; msg : string }.

(** Errors raised past the route's own validation; they reach the error
    middleware.  [CastError]: a query filter holds a value that cannot be
    cast to the type of its path.  [RegexError]: a pattern does not compile.
    [ValidationFailure]: a ValidationError with the messages of the schema
    validators that failed.  [ValidationCast]: a ValidationError whose entry
    for [path] is a cast error, raised when a document is given a value that
    cannot be cast to the type of [path]. *)
Inductive Failure :=
| CastError
| RegexError
| ValidationFailure (messages : list string)
| ValidationCast (path : string).

Inductive Response (A : Type) :=
| Ok (code : Z) (data : A)
| BadRequest (errors : list FieldError)
| NotFound
| Thrown (e : Failure).

Arguments Ok {A} code data.
Arguments BadRequest {A} errors.
Arguments NotFound {A}.
Arguments Thrown {A} e.

(** [req.query] of GET /api/tasks, and [TaskFilters] on the client. *)
Record ListParams := mkListParams {
  p_page : option string;
  p_limit : option string;
  p_status : option string;
  p_priority : option string;
  p_search : option string;
  p_tag : option string;
  p_dueBefore : option string;
  p_dueAfter : option string;
  p_sortBy : option string;
  p_sortOrder : option string
}.

Definition noParams : ListParams :=
  mkListParams None None None None None None None None None None.

(** The same parameters with [dueBefore] and [dueAfter] left out. *)
Definition withoutDates (p : ListParams) : ListParams :=
  mkListParams (p_page p) (p_limit p) (p_status p) (p_priority p) (p_search p)
               (p_tag p) None None (p_sortBy p) (p_sortOrder p).

(** The same parameters with another [page]. *)
Definition withPage (page : option string) (p : ListParams) : ListParams :=
  mkListParams page (p_limit p) (p_status p) (p_priority p) (p_search p)
               (p_tag p) (p_dueBefore p) (p_dueAfter p) (p_sortBy p) (p_sortOrder p).

(** The same parameters with [search] left out. *)
Definition withoutSearch (p : ListParams) : ListParams :=
  mkListParams (p_page p) (p_limit p) (p_status p) (p_priority p) None
               (p_tag p) (p_dueBefore p) (p_dueAfter p) (p_sortBy p) (p_sortOrder p).

(** A JSON [dueDate]: [null] or a string. *)
Inductive JDate := JNull | JString (s : string).

(** [req.body] of POST and PUT. *)
Record TaskBody := mkTaskBody {
  b_title : option string;
  b_description : option string;
  b_status : option string;
  b_priority : option string;
  b_dueDate : option JDate;
  b_tags : option (list string)
}.

Definition emptyBody : TaskBody := mkTaskBody None None None None None None.

(** The same body with the [dueDate] field left out. *)
Definition withoutDueDate (b : TaskBody) : TaskBody :=
  mkTaskBody (b_title b) (b_description b) (b_status b) (b_priority b)
             None (b_tags b).

(** The filter object handed to [countDocuments] and [find].  A date bound
    is [Some None] when it holds the Invalid Date. *)
Record Query := mkQuery {
  q_user : ObjectId;
  q_status : option string;
  q_priority : option string;
  q_or : option string;
  q_tagsIn : option string;
  q_dueLte : option (option Z);
  q_dueGte : option (option Z)
}.

Record Descriptor := mkDescriptor {
  d_page : Z;
  d_limit : Z;
  d_startIndex : Z;
  d_query : Query;
  d_sortBy : string;
  d_sortOrder : Z
}.

Record PageRef := mkPageRef { pr_page : Z; pr_limit : Z }.

Record ListData := mkListData {
  l_count : Z;
  l_total : Z;
  l_next : option PageRef;
  l_prev : option PageRef;
  l_data : list Task
}.

Record StatsData := mkStatsData {
  s_stats : UserStats;
  s_overdue : Z;
  s_dueToday : Z
}.


(** What [findByIdAndUpdate] is given: the fields to [$set].  For [dueDate],
    [Some None] sets [null]. *)
Record UpdateData := mkUpdateData {
  u_title : option string;
  u_description : option string;
  u_status : option Status;
  u_priority : option Priority;
  u_dueDate : option (option Z);
  u_tags : option (list string)
}.

(** A document as serialised by [res.json]: the schema sets
    [toJSON: { virtuals: true }]. *)
Record TaskJSON := mkTaskJSON {
  j_doc : Task;
  j_isOverdue : option bool
}.

Definition toJSON (now : Z) (t : Task) : TaskJSON :=
  mkTaskJSON t (TaskModel.isOverdue now t).

(* ------------------------------------------------------------------ *)
(** ** The platform underneath the handlers *)

(** Library routines the handlers call and whose code is not part of the
    repository: the JavaScript engine, validator.js and the database. *)
Class Platform := {
  (** [new Date(s)]; [None] is the Invalid Date. *)
  newDate : string -> option Z;
  (** validator.js [isISO8601]. *)
  isISO8601 : string -> bool;
  (** Compilation of a pattern with option [i]; [None] when the pattern is
      rejected, otherwise the unanchored test on a subject string. *)
  regexI : string -> option (string -> bool);
  (** The time zone, as ECMAScript has it: [localTZA t true] is the offset of
      local time from UTC, in milliseconds, at the instant [t], and
      [localTZA t false] the offset in force at the local time [t].  It
      changes where daylight saving begins or ends. *)
  localTZA : Z -> bool -> Z;
  (** The order in which the database returns the documents that a sort does
      not separate.  MongoDB leaves it open and it can differ from one query
      to the next, so the rank of a document may depend on all the query
      has: filter, sort field, sort order, limit and skip.  Documents of
      lower rank come first. *)
  tieRank : Query -> string -> Z -> Z -> Z -> Task -> Z
}.

(** [LocalTime(t)] and [UTC(t)] of ECMAScript. *)
Definition localTime {P : Platform} (t : Z) : Z := t + localTZA t true.
Definition utc {P : Platform} (t : Z) : Z := t - localTZA t false.

(** [d.setHours(0, 0, 0, 0)]: the local time of [d] with the time within the
    day set to zero, [MakeDate(Day(LocalTime(d)), 0)], taken back to UTC.
    The handlers read instants within the range of [Date], which [TimeClip]
    leaves as they are. *)
Definition setHours0 {P : Platform} (d : Z) : Z :=
  utc (msPerDay * (localTime d / msPerDay)).

(** [d.setDate(d.getDate() + 1)]: [MakeDay] with the day of the month raised
    by one is the day after [Day(LocalTime(d))], whatever the month; the time
    within the day stays; the result is taken back to UTC. *)
Definition setDateNext {P : Platform} (d : Z) : Z := utc (localTime d + msPerDay).

(* ------------------------------------------------------------------ *)
(** ** Store operations *)

Module Store.

Definition orElse {A} (o : option A) (d : A) : A :=
  match o with Some x => x | None => d end.

(** A query-string or filter value that is present and truthy. *)
Definition given (v : option string) : option string :=
  match v with
  | Some s => if JS.truthy s then Some s else None
  | None => None
  end.

(** [$or] of the three regular-expression clauses. *)
Definition matchesOr (m : string -> bool) (t : Task) : bool :=
  m (title t)
  || match description t with Some d => m d | None => false end
  || existsb m (tags t).

(** A comparison clause on [dueDate]; a document without the field matches
    no comparison. *)
Definition dueCmp (cmp : Z -> Z -> bool) (bound : option (option Z)) (t : Task)
  : bool :=
  match bound with
  | None => true
  | Some b =>
      match b, dueDate t with
      | Some v, Some d => cmp d v
      | _, _ => false
      end
  end.

Definition eqField (name : string) (v : option string) : bool :=
  match v with Some s => String.eqb name s | None => true end.

(** Does document [t] satisfy filter [q]?  [m] is the compiled search
    pattern when [q] has an [$or]. *)
Definition matchDoc (q : Query) (m : option (string -> bool)) (t : Task) : bool :=
  (user t =? q_user q)
  && eqField (statusName (status t)) (q_status q)
  && eqField (priorityName (priority t)) (q_priority q)
  && match m with Some f => matchesOr f t | None => true end
  && match q_tagsIn q with Some g => JS.isIn (tags t) g | None => true end
  && dueCmp Z.leb (q_dueLte q) t
  && dueCmp Z.geb (q_dueGte q) t.

(** [new RegExp(search, 'i')] when the filter has a search clause. *)
Definition compileSearch {P : Platform} (q : Query)
  : option (option (string -> bool)) :=
  match q_or q with
  | None => Some None
  | Some p => option_map Some (regexI p)
  end.

(** Casting the filter to the schema fails on an Invalid Date. *)
Definition castable (q : Query) : bool :=
  match q_dueLte q with Some None => false | _ => true end
  && match q_dueGte q with Some None => false | _ => true end.

Definition selectDocs {P : Platform} (q : Query) (db : list Task)
  : Failure + list Task :=
  match compileSearch q with
  | None => inl RegexError
  | Some m =>
      if castable q then inr (filter (matchDoc q m) db) else inl CastError
  end.

Definition countDocuments {P : Platform} (q : Query) (db : list Task) : Failure + Z :=
  match selectDocs q db with
  | inl e => inl e
  | inr docs => inr (Z.of_nat (List.length docs))
  end.

Definition compareOpt (a b : option Z) : comparison :=
  match a, b with
  | None, None => Eq
  | None, Some _ => Lt
  | Some _, None => Gt
  | Some x, Some y => x ?= y
  end.

Definition compareField (field : string) (a b : Task) : comparison :=
  if String.eqb field "createdAt" then createdAt a ?= createdAt b
  else if String.eqb field "updatedAt" then updatedAt a ?= updatedAt b
  else if String.eqb field "dueDate" then compareOpt (dueDate a) (dueDate b)
  else if String.eqb field "title" then String.compare (title a) (title b)
  else if String.eqb field "priority" then
    String.compare (priorityName (priority a)) (priorityName (priority b))
  else Eq.

(** [a] may stand before [b] under [{ [field]: order }]. *)
Definition inOrder (field : string) (order : Z) (a b : Task) : bool :=
  match compareField field a b with
  | Eq => true
  | Lt => 0 <? order
  | Gt => order <? 0
  end.

Fixpoint insertDoc (le : Task -> Task -> bool) (x : Task) (l : list Task)
  : list Task :=
  match l with
  | [] => [x]
  | y :: r => if le x y then x :: l else y :: insertDoc le x r
  end.

(** The documents a query has selected, in the order in which the engine
    comes upon them: by rank, and in insertion order where the ranks agree. *)
Definition scanOrder (rank : Task -> Z) (docs : list Task) : list Task :=
  fold_right (insertDoc (fun a b => rank a <=? rank b)) [] docs.

(** [.sort({ [field]: order })] on documents in the order [l]: they are put
    in the order of the key, and documents that compare equal stay as [l] has
    them.  The handler gives one key, so for documents with equal keys the
    order is that of the engine's scan. *)
Definition sortDocs (field : string) (order : Z) (l : list Task) : list Task :=
  fold_right (insertDoc (inOrder field order)) [] l.

(** [find(q).sort(..).limit(limit).skip(skip)] *)
Definition findPage {P : Platform} (q : Query) (field : string) (order limit skip : Z)
  (db : list Task) : Failure + list Task :=
  match selectDocs q db with
  | inl e => inl e
  | inr docs =>
      inr (firstn (Z.to_nat limit)
             (skipn (Z.to_nat skip)
                (sortDocs field order
                   (scanOrder (tieRank q field order limit skip) docs))))
  end.

(** [findOne({ _id, user })] *)
Definition findOne (id uid : ObjectId) (db : list Task) : option Task :=
  find (fun t => (_id t =? id) && (user t =? uid)) db.

Definition findById (id : ObjectId) (db : list Task) : option Task :=
  find (fun t => _id t =? id) db.

Definition applyUpdate (u : UpdateData) (stamp : Z) (t : Task) : Task :=
  mkTask (_id t)
         (orElse (u_title u) (title t))
         (match u_description u with Some d => Some d | None => description t end)
         (orElse (u_status u) (status t))
         (orElse (u_priority u) (priority t))
         (orElse (u_dueDate u) (dueDate t))
         (orElse (u_tags u) (tags t))
         (user t)
         (completedAt t)
         (createdAt t)
         stamp.

Fixpoint updateFirst (id : ObjectId) (f : Task -> Task) (db : list Task)
  : list Task :=
  match db with
  | [] => []
  | t :: r => if _id t =? id then f t :: r else t :: updateFirst id f r
  end.

(** Update validators ([runValidators: true]) run the schema validators of
    the paths being set.  The length and enum validators of the schema
    repeat what the route has checked already; the [dueDate] validator is
    the one that can still fail. *)
Definition updateValidators (now : Z) (u : UpdateData) : list string :=
  match u_dueDate u with
  | Some v => if dueDateValidator now v then [] else [dueDateMessage]
  | None => []
  end.

(** [findByIdAndUpdate(id, u, { new: true, runValidators: true })]: a query
    operation, so no [save] middleware runs.  The timestamps middleware of
    the query reads the clock first and puts [updatedAt] into the update;
    the update validators run after it and read the clock again. *)
Definition findByIdAndUpdate (clk : Clock) (id : ObjectId) (u : UpdateData)
  (db : list Task) : Failure + (option Task * list Task) :=
  let stamp := clk 0%nat in
  match updateValidators (clk 1%nat) u with
  | [] =>
      let db' := updateFirst id (applyUpdate u stamp) db in
      inr (findById id db', db')
  | errs => inl (ValidationFailure errs)
  end.

Fixpoint findByIdAndDelete (id : ObjectId) (db : list Task) : list Task :=
  match db with
  | [] => []
  | t :: r => if _id t =? id then r else t :: findByIdAndDelete id r
  end.

End Store.

(* ------------------------------------------------------------------ *)
(** ** The handlers of [routes/tasks.js] *)

Module Routes.

Import Store.

(** One [.optional()] validator of a chain: an absent value is skipped. *)
Definition check (name message : string) (ok : string -> bool) (v : option string)
  : list FieldError :=
  match v with
  | None => []
  | Some s => if ok s then [] else [mkFieldError (PField name) message]
  end.

(** The fields a list may be sorted by. *)
Definition sortFields : list string :=
  ["createdAt"; "updatedAt"; "dueDate"; "title"; "priority"].

(** The validators of GET /api/tasks, in order. *)
Definition listErrors (p : ListParams) : list FieldError :=
  check "page" "Page must be a positive integer" (JS.isInt 1 None) (p_page p)
  ++ check "limit" "Limit must be between 1 and 100" (JS.isInt 1 (Some 100)) (p_limit p)
  ++ check "status" "Invalid status" (JS.isIn statusNames) (p_status p)
  ++ check "priority" "Invalid priority" (JS.isIn priorityNames) (p_priority p)
  ++ check "sortBy" "Invalid sort field" (JS.isIn sortFields) (p_sortBy p)
  ++ check "sortOrder" "Sort order must be asc or desc" (JS.isIn ["asc"; "desc"])
       (p_sortOrder p).

(** Lines 35-65: the filter object. *)
Definition buildQuery {P : Platform} (uid : ObjectId) (p : ListParams) : Query :=
  mkQuery uid
          (given (p_status p))
          (given (p_priority p))
          (given (p_search p))
          (given (p_tag p))
          (option_map newDate (given (p_dueBefore p)))
          (option_map newDate (given (p_dueAfter p))).

(** Validation, then page, limit, filter and sort: everything the handler
    derives from the request before it touches the store.  [page - 1],
    [(page - 1) * limit] and the sums the handler forms later are the numbers
    JavaScript computes as long as [page * limit] does not exceed
    [JS.maxSafe]. *)
Definition parseList {P : Platform} (uid : ObjectId) (p : ListParams)
  : list FieldError + Descriptor :=
  match listErrors p with
  | [] =>
      let page := JS.parseIntOr (p_page p) 1 in
      let limit := JS.parseIntOr (p_limit p) 10 in
      inr (mkDescriptor page limit ((page - 1) * limit)
             (buildQuery uid p)
             (orElse (given (p_sortBy p)) "createdAt")
             (match p_sortOrder p with
              | Some o => if String.eqb o "asc" then 1 else -1
              | None => -1
              end))
  | errs => inl errs
  end.

(** GET /api/tasks *)
Definition getTasks {P : Platform} (uid : ObjectId) (p : ListParams) (db : list Task)
  : Response ListData :=
  match parseList uid p with
  | inl errs => BadRequest errs
  | inr d =>
      match countDocuments (d_query d) db with
      | inl e => Thrown e
      | inr total =>
          match findPage (d_query d) (d_sortBy d) (d_sortOrder d)
                         (d_limit d) (d_startIndex d) db with
          | inl e => Thrown e
          | inr tasks =>
              Ok 200
                 (mkListData
                    (Z.of_nat (List.length tasks))
                    total
                    (if d_startIndex d + d_limit d <? total
                     then Some (mkPageRef (d_page d + 1) (d_limit d)) else None)
                    (if 0 <? d_startIndex d
                     then Some (mkPageRef (d_page d - 1) (d_limit d)) else None)
                    tasks)
          end
      end
  end.

(** GET /api/tasks/:id *)
Definition getTask (uid id : ObjectId) (db : list Task) : Response Task :=
  match findOne id uid db with
  | None => NotFound
  | Some t => Ok 200 t
  end.

(** The wildcard chain [body('tags.*')]: one error per offending element. *)
Fixpoint tagErrorsFrom (i : nat) (ts : list string) : list FieldError :=
  match ts with
  | [] => []
  | t :: r =>
      (if JS.isLength 1 (Some 20%nat) (JS.trim t) then []
       else [mkFieldError (PIndex "tags" i)
               "Each tag must be between 1 and 20 characters"])
      ++ tagErrorsFrom (S i) r
  end.

Definition tagErrors (ts : option (list string)) : list FieldError :=
  match ts with Some l => tagErrorsFrom 0 l | None => [] end.

(** The string a validator sees for a JSON value. *)
Definition jdateString (d : JDate) : string :=
  match d with JNull => "" | JString s => s end.

(** The validators of POST /api/tasks; [title] is not optional. *)
Definition createErrors {P : Platform} (b : TaskBody) : list FieldError :=
  (if JS.isLength 1 (Some 100%nat) (JS.trim (orElse (b_title b) "")) then []
   else [mkFieldError (PField "title")
           "Title is required and must be less than 100 characters"])
  ++ check "description" "Description must be less than 500 characters"
       (fun s => JS.isLength 0 (Some 500%nat) (JS.trim s)) (b_description b)
  ++ check "status" "Invalid status" (JS.isIn statusNames) (b_status b)
  ++ check "priority" "Invalid priority" (JS.isIn priorityNames) (b_priority b)
  ++ check "dueDate" "Due date must be a valid date" isISO8601
       (option_map jdateString (b_dueDate b))
  ++ tagErrors (b_tags b).

(** [dueDate ? new Date(dueDate) : undefined], cast to the schema.  An
    Invalid Date does not cast, and [Task.create] reports that when it
    validates the document. *)
Definition createDue {P : Platform} (d : option JDate) : Failure + option Z :=
  match d with
  | Some (JString s) =>
      if JS.truthy s then
        match newDate s with
        | Some v => inr (Some v)
        | None => inl (ValidationCast "dueDate")
        end
      else inr None
  | _ => inr None
  end.

(** POST /api/tasks: [Task.create] applies the defaults ([pending],
    [medium], no tags), validates, runs the save middleware (timestamps, then
    the [completedAt] hook) and inserts.  [newId] is the identifier the store
    assigns.  The length and enum validators of the schema repeat what the
    route has checked already; the [dueDate] validator is the one that can
    still fail.  [isModified('status')] holds for a status given in the
    body. *)
Definition createTask {P : Platform} (clk : Clock) (newId uid : ObjectId)
  (b : TaskBody) (db : list Task) : Response Task * list Task :=
  match createErrors b with
  | [] =>
      match createDue (b_dueDate b) with
      | inl e => (Thrown e, db)
      | inr due =>
          if dueDateValidator (clk 0%nat) due then
            let doc :=
              preSave (isSome (b_status b)) (clk 2%nat)
                (mkTask newId
                   (JS.trim (orElse (b_title b) ""))
                   (option_map JS.trim (b_description b))
                   (orElse (match b_status b with
                            | Some s => statusOfName s | None => None end) Pending)
                   (orElse (match b_priority b with
                            | Some s => priorityOfName s | None => None end) Medium)
                   due
                   (map JS.trim (orElse (b_tags b) []))
                   uid None (clk 1%nat) (clk 1%nat)) in
            (Ok 201 doc, (db ++ [doc])%list)
          else (Thrown (ValidationFailure [dueDateMessage]), db)
      end
  | errs => (BadRequest errs, db)
  end.

(** The custom validator of [dueDate] on PUT. *)
Definition dueDateCustom {P : Platform} (d : JDate) : bool :=
  match d with
  | JNull => true
  | JString s => if String.eqb s "" then true else isSome (newDate s)
  end.

(** The validators of PUT /api/tasks/:id. *)
Definition updateErrors {P : Platform} (b : TaskBody) : list FieldError :=
  check "title" "Title must be between 1 and 100 characters"
    (fun s => JS.isLength 1 (Some 100%nat) (JS.trim s)) (b_title b)
  ++ check "description" "Description must be less than 500 characters"
       (fun s => JS.isLength 0 (Some 500%nat) (JS.trim s)) (b_description b)
  ++ check "status" "Invalid status" (JS.isIn statusNames) (b_status b)
  ++ check "priority" "Invalid priority" (JS.isIn priorityNames) (b_priority b)
  ++ match b_dueDate b with
     | Some d =>
         if dueDateCustom d then []
         else [mkFieldError (PField "dueDate") "Due date must be a valid date or null"]
     | None => []
     end
  ++ tagErrors (b_tags b).

(** Lines 255-265: only the fields that are not [undefined] go into
    [updateData]; [dueDate ? new Date(dueDate) : null].  The validators have
    run before: a status or priority here names a member of its enumeration
    and a non-empty [dueDate] string parses. *)
Definition buildUpdate {P : Platform} (b : TaskBody) : UpdateData :=
  mkUpdateData
    (option_map JS.trim (b_title b))
    (option_map JS.trim (b_description b))
    (match b_status b with Some s => statusOfName s | None => None end)
    (match b_priority b with Some s => priorityOfName s | None => None end)
    (match b_dueDate b with
     | Some (JString s) => Some (if JS.truthy s then newDate s else None)
     | Some JNull => Some None
     | None => None
     end)
    (option_map (map JS.trim) (b_tags b)).

(** PUT /api/tasks/:id *)
Definition updateTask {P : Platform} (clk : Clock) (uid id : ObjectId) (b : TaskBody)
  (db : list Task) : Response (option Task) * list Task :=
  match updateErrors b with
  | [] =>
      match findOne id uid db with
      | None => (NotFound, db)
      | Some _ =>
          match findByIdAndUpdate clk id (buildUpdate b) db with
          | inl e => (Thrown e, db)
          | inr (task, db') => (Ok 200 task, db')
          end
      end
  | errs => (BadRequest errs, db)
  end.

(** DELETE /api/tasks/:id *)
Definition deleteTask (uid id : ObjectId) (db : list Task)
  : Response unit * list Task :=
  match findOne id uid db with
  | None => (NotFound, db)
  | Some _ => (Ok 200 tt, findByIdAndDelete id db)
  end.

(** [status: { $nin: ['completed', 'cancelled'] }] *)
Definition statusOpen (t : Task) : bool :=
  negb (Status_eqb (status t) Completed || Status_eqb (status t) Cancelled).

Definition dueIs (test : Z -> bool) (t : Task) : bool :=
  match dueDate t with Some d => test d | None => false end.

Definition countWhere (f : Task -> bool) (db : list Task) : Z :=
  Z.of_nat (List.length (filter f db)).

(** The filter of the overdue count. *)
Definition overdueFilter (uid : ObjectId) (now : Z) (t : Task) : bool :=
  (user t =? uid) && dueIs (fun d => d <? now) t && statusOpen t.

(** The filter of the due-today count, between two midnights. *)
Definition dueTodayFilter (uid : ObjectId) (from upto : Z) (t : Task) : bool :=
  (user t =? uid) && dueIs (fun d => (from <=? d) && (d <? upto)) t && statusOpen t.

(** GET /api/tasks/stats/overview.  The handler reads the clock twice:
    [new Date()] inside the overdue filter, then [const today = new Date()]. *)
Definition getStats {P : Platform} (clk : Clock) (uid : ObjectId) (db : list Task)
  : Response StatsData :=
  let stats := getUserStats uid db in
  let overdueCount := countWhere (overdueFilter uid (clk 0%nat)) db in
  let today := clk 1%nat in
  let tomorrow := setDateNext today in
  let dueTodayCount :=
    countWhere (dueTodayFilter uid (setHours0 today) (setHours0 tomorrow)) db in
  Ok 200 (mkStatsData stats overdueCount dueTodayCount).

End Routes.

(* ------------------------------------------------------------------ *)
(** ** The client helpers [taskUtils] *)

Module taskUtils.

Import Store.

(** [taskUtils.isOverdue] *)
Definition isOverdue (now : Z) (task : Task) : bool :=
  match dueDate task with
  | None => false
  | Some d =>
      if Status_eqb (status task) Completed || Status_eqb (status task) Cancelled
      then false
      else d <? now
  end.

(** One date filter of [filterTasks]: it only looks at tasks that have a
    due date; a comparison with an Invalid Date is false. *)
Definition dateRejects {P : Platform} (wrong : Z -> Z -> bool) (bound : option string)
  (task : Task) : bool :=
  match given bound, dueDate task with
  | Some s, Some d =>
      match newDate s with Some v => wrong d v | None => false end
  | _, _ => false
  end.

(** The predicate of [taskUtils.filterTasks]: each early [return false] is
    one conjunct. *)
Definition keeps {P : Platform} (filters : ListParams) (task : Task) : bool :=
  match given (p_status filters) with
  | Some s => String.eqb (statusName (status task)) s
  | None => true
  end
  && match given (p_priority filters) with
     | Some s => String.eqb (priorityName (priority task)) s
     | None => true
     end
  && match given (p_search filters) with
     | Some s =>
         JS.includesI (title task) s
         || match description task with
            | Some d => JS.includesI d s
            | None => false
            end
         || existsb (fun tag => JS.includesI tag s) (tags task)
     | None => true
     end
  && match given (p_tag filters) with
     | Some g => JS.isIn (tags task) g
     | None => true
     end
  && negb (dateRejects Z.gtb (p_dueBefore filters) task)
  && negb (dateRejects Z.ltb (p_dueAfter filters) task).

Definition filterTasks {P : Platform} (tasks : list Task) (filters : ListParams)
  : list Task :=
  filter (keeps filters) tasks.

(** The fields [sortTasks] is meant for: the [sortBy] of [TaskFilters]. *)
Inductive SortField := ByCreatedAt | ByUpdatedAt | ByDueDate | ByTitle | ByPriority.


Inductive SortOrder := Asc | Desc.

(** [priorityOrder] *)
Definition priorityOrder (p : Priority) : Z :=
  match p with Low => 1 | Medium => 2 | High => 3 | Urgent => 4 end.

(** The value two tasks are compared by: the time of a date field, or 0
    without one; the rank of the priority; the title itself. *)
Inductive SortValue := VNumber (n : Z) | VString (s : string).

Definition sortValue (sortBy : SortField) (task : Task) : SortValue :=
  match sortBy with
  | ByCreatedAt => VNumber (createdAt task)
  | ByUpdatedAt => VNumber (updatedAt task)
  | ByDueDate => VNumber (match dueDate task with Some d => d | None => 0 end)
  | ByTitle => VString (title task)
  | ByPriority => VNumber (priorityOrder (priority task))
  end.

(** [aValue < bValue]; the two values of one field are of one kind. *)
Definition valueLt (a b : SortValue) : bool :=
  match a, b with
  | VNumber x, VNumber y => x <? y
  | VString x, VString y => String.ltb x y
  | _, _ => false
  end.

(** The comparator handed to [Array.prototype.sort]. *)
Definition comparator (sortBy : SortField) (sortOrder : SortOrder) (a b : Task) : Z :=
  let aValue := sortValue sortBy a in
  let bValue := sortValue sortBy b in
  if valueLt aValue bValue then match sortOrder with Asc => -1 | Desc => 1 end
  else if valueLt bValue aValue then match sortOrder with Asc => 1 | Desc => -1 end
  else 0.

(** [[...tasks].sort(comparator)]; the sort is stable. *)
Definition sortTasks (tasks : list Task) (sortBy : SortField) (sortOrder : SortOrder)
  : list Task :=
  fold_right (insertDoc (fun a b => comparator sortBy sortOrder a b <=? 0)) [] tasks.

End taskUtils.

(* ------------------------------------------------------------------ *)
(** ** The client's requests: [tasksAPI] and the tasks page *)

Module tasksAPI.

(** [TaskFilters]; page and limit are whole numbers. *)
Record TaskFilters := mkTaskFilters {
  f_page : option Z;
  f_limit : option Z;
  f_status : option string;
  f_priority : option string;
  f_search : option string;
  f_tag : option string;
  f_dueBefore : option string;
  f_dueAfter : option string;
  f_sortBy : option string;
  f_sortOrder : option string
}.

(** One entry of the filters: left out when [undefined], [null] or empty. *)
Definition entry (v : option string) : option string :=
  match v with
  | Some s => if String.eqb s "" then None else Some s
  | None => None
  end.

(** The query of [getTasks]: every entry that is set, as a string.  The
    query string carries each value to [req.query] unchanged. *)
Definition queryOf (filters : TaskFilters) : ListParams :=
  mkListParams
    (entry (option_map JS.numberToString (f_page filters)))
    (entry (option_map JS.numberToString (f_limit filters)))
    (entry (f_status filters))
    (entry (f_priority filters))
    (entry (f_search filters))
    (entry (f_tag filters))
    (entry (f_dueBefore filters))
    (entry (f_dueAfter filters))
    (entry (f_sortBy filters))
    (entry (f_sortOrder filters)).

(** [{ ...prev, page }]: what the Previous and Next buttons do to the
    filters, with [prev.page - 1] and [prev.page + 1]. *)
Definition setPage (page : Z) (prev : TaskFilters) : TaskFilters :=
  mkTaskFilters (Some page) (f_limit prev) (f_status prev) (f_priority prev)
                (f_search prev) (f_tag prev) (f_dueBefore prev) (f_dueAfter prev)
                (f_sortBy prev) (f_sortOrder prev).

(** The range shown under the list: "Showing [from] to [upto] of total". *)
Definition showingFrom (page limit : Z) : Z := (page - 1) * limit + 1.
Definition showingTo (page limit totalTasks : Z) : Z := Z.min (page * limit) totalTasks.

(** The tags of the task form, typed as one string:
    [tags.split(',').map(tag => tag.trim()).filter(Boolean)]. *)
Definition processTags (tags : string) : list string :=
  filter JS.truthy (map JS.trim (JS.splitComma tags)).

End tasksAPI.

(* ------------------------------------------------------------------ *)
(** ** Passwords: the policy of the routes and the meter of the form *)

Module Passwords.

(** The two validators of a new password in [routes/auth.js]:
    [isLength({ min: 6 })] and [matches(/^(?=.*[a-z])(?=.*[A-Z])(?=.*\d)/)].
    Each lookahead searches the first line of the value. *)
Definition matchesPolicy (s : string) : bool :=
  JS.hasChar JS.isLower (JS.firstLine s)
  && JS.hasChar JS.isUpper (JS.firstLine s)
  && JS.hasChar JS.isDigit (JS.firstLine s).

Definition passwordErrors (name shortMessage patternMessage : string) (s : string)
  : list FieldError :=
  (if JS.isLength 6 None s then [] else [mkFieldError (PField name) shortMessage])
  ++ (if matchesPolicy s then [] else [mkFieldError (PField name) patternMessage]).

Record Strength := mkStrength { score : nat; text : string; color : string }.

Definition levels : list Strength :=
  [ mkStrength 0 "Very Weak" "text-red-500";
    mkStrength 1 "Weak" "text-red-400";
    mkStrength 2 "Fair" "text-yellow-500";
    mkStrength 3 "Good" "text-yellow-400";
    mkStrength 4 "Strong" "text-green-500";
    mkStrength 5 "Very Strong" "text-green-600" ].

Definition b2n (b : bool) : nat := if b then 1%nat else 0%nat.

Definition isOther (c : ascii) : bool :=
  negb (JS.isLower c || JS.isUpper c || JS.isDigit c).

(** The five increments of [getPasswordStrength]. *)
Definition rate (password : string) : nat :=
  (b2n (8 <=? String.length password)%nat
   + b2n (JS.hasChar JS.isLower password)
   + b2n (JS.hasChar JS.isUpper password)
   + b2n (JS.hasChar JS.isDigit password)
   + b2n (JS.hasChar isOther password))%nat.

(** [getPasswordStrength]; [None] would be [undefined], an index outside
    [levels]. *)
Definition getPasswordStrength (password : string) : option Strength :=
  if JS.truthy password then nth_error levels (rate password)
  else Some (mkStrength 0 "" "").

End Passwords.

(* ------------------------------------------------------------------ *)
(** ** Regular-expression patterns *)

Module Regex.

(** The characters with a special meaning in a pattern. *)
Definition metaChars : list ascii :=
  ["\"; "^"; "$"; "."; "["; "]"; "|"; "("; ")"; "?"; "*"; "+"; "{"; "}"]%char.

Definition isMeta (c : ascii) : bool := existsb (Ascii.eqb c) metaChars.

Fixpoint metaFree (p : string) : bool :=
  match p with
  | String c r => negb (isMeta c) && metaFree r
  | EmptyString => true
  end.

(** A pattern without metacharacters is a literal: with option [i] it tests
    containment with letter case ignored. *)
Definition literalPatterns {P : Platform} : Prop :=
  forall p, metaFree p = true ->
            exists m, regexI p = Some m /\ forall s, m s = JS.includesI s p.

(** The fragment of the pattern language made of literal characters and
    the wildcard [.], which stands for any character but a line
    terminator. *)
Definition atom (pc sc : ascii) : bool :=
  if Ascii.eqb pc "." then negb (JS.isLineEnd sc)
  else Ascii.eqb (JS.toLowerChar pc) (JS.toLowerChar sc).

Fixpoint matchHere (p s : string) : bool :=
  match p, s with
  | EmptyString, _ => true
  | String pc p', String sc s' => atom pc sc && matchHere p' s'
  | String _ _, EmptyString => false
  end.

Fixpoint searchFrom (p s : string) : bool :=
  matchHere p s ||
  match s with
  | String _ r => searchFrom p r
  | EmptyString => false
  end.

Fixpoint inFragment (p : string) : bool :=
  match p with
  | String c r => (negb (isMeta c) || Ascii.eqb c ".") && inFragment r
  | EmptyString => true
  end.

Definition compileFragment (p : string) : option (string -> bool) :=
  if inFragment p then Some (searchFrom p) else None.

End Regex.

(* ------------------------------------------------------------------ *)
(** ** A concrete platform and concrete documents for the examples *)

Module Sample.

(** Date strings of the examples with their instants (UTC midnight). *)
Definition knownDates : list (string * Z) :=
  [("2020-01-01", 1577836800000); ("2030-01-01", 1893456000000)].

Definition sampleNewDate (s : string) : option Z :=
  option_map snd (find (fun e => String.eqb (fst e) s) knownDates).

(** The platform of the examples: it parses the date strings above and no
    other, compiles the patterns of the fragment, runs in UTC, and returns
    documents with equal sort keys in insertion order. *)
Definition platform : Platform :=
  {| newDate := sampleNewDate;
     isISO8601 := fun s => isSome (sampleNewDate s);
     regexI := Regex.compileFragment;
     localTZA := fun _ _ => 0;
     tieRank := fun _ _ _ _ _ _ => 0 |}.

(** The same platform in a zone one hour ahead of UTC that moves its clocks
    forward by an hour at 2024-03-31T01:00Z, from 02:00 to 03:00 local time;
    a local time that the change skips is read with the offset before it. *)
Definition hour : Z := 3600000.
Definition clocksForward : Z := 1711846800000.

Definition springPlatform : Platform :=
  {| newDate := sampleNewDate;
     isISO8601 := fun s => isSome (sampleNewDate s);
     regexI := Regex.compileFragment;
     localTZA := fun t isUTC =>
       if isUTC then (if t <? clocksForward then hour else 2 * hour)
       else (if t <? clocksForward + 2 * hour then hour else 2 * hour);
     tieRank := fun _ _ _ _ _ _ => 0 |}.

(** The same platform with an engine that, when the query skips documents,
    returns documents with equal sort keys in the reverse of its usual
    order. *)
Definition shufflingPlatform : Platform :=
  {| newDate := sampleNewDate;
     isISO8601 := fun s => isSome (sampleNewDate s);
     regexI := Regex.compileFragment;
     localTZA := fun _ _ => 0;
     tieRank := fun _ _ _ _ skip t => if 0 <? skip then - _id t else _id t |}.

(** [n] times the character [c]. *)
Fixpoint repeated (n : nat) (c : ascii) : string :=
  match n with O => EmptyString | S k => String c (repeated k c) end.

(** Small e with acute accent, U+00E9, and the no-break space, U+00A0. *)
Definition eAcute : ascii := ascii_of_N 233.
Definition noBreakSpace : ascii := ascii_of_N 160.

Definition task (id owner : ObjectId) (name : string) (st : Status)
  (due : option Z) (labels : list string) (done : option Z) : Task :=
  mkTask id name None st Medium due labels owner done 1000 1000.

(** 2023-11-14T22:13:20Z *)
Definition nov2023 : Z := 1700000000000.

Definition fixedClock (now : Z) : Clock := fun _ => now.

(** A clock whose two readings straddle a midnight: the last millisecond
    of one day, then the first of the next. *)
Definition midnightClock : Clock :=
  fun k => match k with O => 2 * msPerDay - 1 | _ => 2 * msPerDay end.

(** One task due at the last millisecond of the day, two due during the
    next day. *)
Definition midnightTasks : list Task :=
  [ task 1 7 "report" Pending (Some (2 * msPerDay - 1)) [] None;
    task 2 7 "review" Pending (Some (2 * msPerDay + 3600000)) [] None;
    task 3 7 "release" InProgress (Some (2 * msPerDay + 7200000)) [] None ].

End Sample.

(* ------------------------------------------------------------------ *)
(** ** Relations between a document and its successor under an update *)

(** What an update with body [b] aimed at [id] leaves alone when document
    [t] becomes [t']. *)
Definition preserved (b : TaskBody) (id : ObjectId) (t t' : Task) : Prop :=
  _id t' = _id t /\ user t' = user t /\ createdAt t' = createdAt t
  /\ completedAt t' = completedAt t
  /\ (b_title b = None -> title t' = title t)
  /\ (b_description b = None -> description t' = description t)
  /\ (b_status b = None -> status t' = status t)
  /\ (b_priority b = None -> priority t' = priority t)
  /\ (b_dueDate b = None -> dueDate t' = dueDate t)
  /\ (b_tags b = None -> tags t' = tags t)
  /\ (_id t <> id -> t' = t).

(** What an accepted update with body [b] has written into [t']. *)
Definition written {P : Platform} (b : TaskBody) (t' : Task) : Prop :=
  (forall s, b_title b = Some s -> title t' = JS.trim s)
  /\ (forall s, b_description b = Some s -> description t' = Some (JS.trim s))
  /\ (forall s, b_status b = Some s -> statusName (status t') = s)
  /\ (forall s, b_priority b = Some s -> priorityName (priority t') = s)
  /\ (b_dueDate b = Some JNull -> dueDate t' = None)
  /\ (forall s, b_dueDate b = Some (JString s) ->
        dueDate t' = if JS.truthy s then newDate s else None)
  /\ (forall l, b_tags b = Some l -> tags t' = map JS.trim l).

(** A validator chain turns a parameter down: the parameter is present and
    fails the test. *)
Definition turnedDown (ok : string -> bool) (v : option string) : Prop :=
  exists s, v = Some s /\ ok s = false.

(* ================================================================== *)
(** * Properties *)

Import Store Routes.

(* ------------------------------------------------------------------ *)
(** ** Completion time *)

Lemma Status_eqb_eq (a b : Status) : Status_eqb a b = true <-> a = b.
Proof. destruct a, b; simpl; split; congruence. Qed.

Lemma Status_eqb_refl (a : Status) : Status_eqb a a = true.
Proof. now destruct a. Qed.

(** Once the hook has seen a modified status, the completion time is
    present exactly for a completed task. *)
Lemma preSave_in_sync (now : Z) (t : Task) :
  isSome (completedAt (preSave true now t)) = Status_eqb (status (preSave true now t)) Completed.
Proof.
  unfold preSave.
  destruct (Status_eqb (status t) Completed) eqn:Hs; simpl.
  - destruct (completedAt t) eqn:Hc; simpl; now rewrite ?Hs, ?Hc.
  - now rewrite Hs.
Qed.

Lemma preSave_status (m : bool) (now : Z) (t : Task) :
  status (preSave m now t) = status t.
Proof.
  unfold preSave. destruct m; [|reflexivity].
  destruct (_ && _); [reflexivity|]. now destruct (negb _).
Qed.

(** Creation keeps completion time and status in step: the document goes
    through [save], so the hook runs. *)
Lemma createTask_in_sync {P : Platform} (clk : Clock) (newId uid : ObjectId)
  (b : TaskBody) (db : list Task) (code : Z) (doc : Task) (db' : list Task) :
  createTask clk newId uid b db = (Ok code doc, db') ->
  db' = (db ++ [doc])%list
  /\ isSome (completedAt doc) = Status_eqb (status doc) Completed.
Proof.
  unfold createTask.
  destruct (createErrors b); [|discriminate].
  destruct (createDue (b_dueDate b)) as [e|due]; [discriminate|].
  destruct (dueDateValidator (clk 0%nat) due); [|discriminate].
  intros E. injection E as _ Hdoc Hdb. subst db'. split; [now rewrite Hdoc|].
  rewrite <- Hdoc. clear Hdoc.
  destruct (b_status b) as [s|].
  - change (isSome (Some s)) with true. apply preSave_in_sync.
  - reflexivity.
Qed.

(** C1.  Every mutation is claimed to leave [completedAt] set exactly when
    the status is completed.  The update endpoint does not: it writes through
    [findByIdAndUpdate], which runs no save hook.  Completing a pending task
    by PUT stores status completed with no completion time, and reopening a
    completed task by PUT keeps the old completion time. *)
Theorem C1_update_skips_completion_hook (P : Platform) (clk : Clock) :
  let open := Sample.task 1 7 "report" Pending None [] None in
  let closed := Sample.task 2 7 "review" Completed None [] (Some 500) in
  let complete := mkTaskBody None None (Some "completed") None None None in
  let reopen := mkTaskBody None None (Some "pending") None None None in
  (exists t', updateTask clk 7 1 complete [open] = (Ok 200 (Some t'), [t'])
              /\ status t' = Completed /\ completedAt t' = None)
  /\ (exists t', updateTask clk 7 2 reopen [closed] = (Ok 200 (Some t'), [t'])
                 /\ status t' = Pending /\ completedAt t' = Some 500).
Proof.
  split; eexists; (split; [reflexivity|]); split; reflexivity.
Qed.

(* ------------------------------------------------------------------ *)
(** ** The [isOverdue] field *)

Lemma virtual_isOverdue_true (now : Z) (t : Task) :
  j_isOverdue (toJSON now t) = Some true
  <-> exists d, dueDate t = Some d /\ d < now /\ status t <> Completed.
Proof.
  unfold toJSON, TaskModel.isOverdue; simpl.
  destruct (dueDate t) as [d|].
  - split.
    + intros E. injection E as E. apply andb_true_iff in E as [E1 E2].
      exists d. split; [reflexivity|]. split; [now apply Z.ltb_lt|].
      intros Hc. rewrite Hc in E2. discriminate.
    + intros (d' & E & Hlt & Hs). injection E as <-.
      f_equal. apply andb_true_iff. split; [now apply Z.ltb_lt|].
      destruct (status t); simpl; congruence.
  - split; [discriminate|]. intros (d & E & _). discriminate.
Qed.

Lemma client_isOverdue_true (now : Z) (t : Task) :
  taskUtils.isOverdue now t = true
  <-> exists d, dueDate t = Some d /\ d < now
                /\ status t <> Completed /\ status t <> Cancelled.
Proof.
  unfold taskUtils.isOverdue.
  destruct (dueDate t) as [d|].
  - destruct (status t); simpl; rewrite ?Z.ltb_lt; split;
      try discriminate;
      try (intros (d' & E & Hlt & H1 & H2); congruence);
      try (intros Hlt; exists d; repeat split; (reflexivity || assumption || discriminate)).
    all: intros (d' & E & Hlt & _); now injection E as <-.
  - split; [discriminate|]. intros (d & E & _). discriminate.
Qed.

(** C4.  [isOverdue] is claimed true only for a task that is neither
    completed nor cancelled.  The field a read returns is the schema's
    virtual, and that one tests [status !== 'completed'] alone: a cancelled
    task whose due date has passed is serialised with [isOverdue] true, while
    the client helper [taskUtils.isOverdue] answers false for it. *)
Theorem C4_virtual_isOverdue_counts_cancelled :
  let t := Sample.task 1 7 "report" Cancelled (Some 1000) [] None in
  j_isOverdue (toJSON 2000 t) = Some true
  /\ taskUtils.isOverdue 2000 t = false.
Proof. split; reflexivity. Qed.

(* ------------------------------------------------------------------ *)
(** ** Owner scoping *)

Lemma find_none_iff {A} (f : A -> bool) (l : list A) :
  find f l = None <-> forall x, In x l -> f x = false.
Proof.
  induction l as [|y l IH]; simpl.
  - split; [intros _ x []|reflexivity].
  - destruct (f y) eqn:Hy.
    + split; [discriminate|]. intros Hall. rewrite (Hall y) in Hy by now left.
      discriminate.
    + rewrite IH. split.
      * intros Hall x [<-|Hx]; [assumption|now apply Hall].
      * intros Hall x Hx. apply Hall. now right.
Qed.

Lemma unique_id (db : list Task) (x y : Task) :
  NoDup (map _id db) -> In x db -> In y db -> _id x = _id y -> x = y.
Proof.
  induction db as [|z db IH]; simpl; [intros _ []|].
  intros Hnd Hx Hy E. inversion Hnd as [|? ? Hnot Hnd']; subst.
  destruct Hx as [<-|Hx], Hy as [<-|Hy]; [reflexivity| | |now apply IH].
  - exfalso. apply Hnot. rewrite E. now apply in_map.
  - exfalso. apply Hnot. rewrite <- E. now apply in_map.
Qed.

(** A task of somebody else is not found by the owner-scoped lookup. *)
Lemma findOne_foreign (db : list Task) (t : Task) (b : ObjectId) :
  NoDup (map _id db) -> In t db -> user t <> b -> findOne (_id t) b db = None.
Proof.
  intros Hnd Ht Hb. unfold findOne. apply find_none_iff. intros x Hx.
  apply andb_false_iff.
  destruct (_id x =? _id t) eqn:E; [right|now left].
  apply Z.eqb_eq in E. rewrite (unique_id db x t Hnd Hx Ht E).
  now apply Z.eqb_neq.
Qed.

Lemma findOne_absent (db : list Task) (id b : ObjectId) :
  (forall x, In x db -> _id x <> id) -> findOne id b db = None.
Proof.
  intros Hall. unfold findOne. apply find_none_iff. intros x Hx.
  apply andb_false_iff. left. apply Z.eqb_neq. now apply Hall.
Qed.

Section OwnerScoping.

Context {P : Platform}.

(** C2.  Let task [t] of store [db] belong to user [a], and let [b] be
    another user.  Reading, updating and deleting [t] on behalf of [b]
    answer exactly what they answer in any store [db0] that holds no task
    with that id: the read and the delete answer 404, the update answers 404
    once the body passes validation (and the same 400 in both stores when it
    does not), no answer carries data, and [db] is left as it was. *)
Theorem C2_foreign_task_is_not_found (clk clk0 : Clock) (a b : ObjectId)
  (t : Task) (body : TaskBody) (db db0 : list Task) :
  NoDup (map _id db) -> In t db -> user t = a -> a <> b ->
  (forall x, In x db0 -> _id x <> _id t) ->
  getTask b (_id t) db = NotFound
  /\ getTask b (_id t) db0 = NotFound
  /\ updateTask clk b (_id t) body db
     = (fst (updateTask clk0 b (_id t) body db0), db)
  /\ (updateErrors body = [] ->
      fst (updateTask clk b (_id t) body db) = NotFound)
  /\ (forall code data, fst (updateTask clk b (_id t) body db) <> Ok code data)
  /\ deleteTask b (_id t) db = (NotFound, db)
  /\ fst (deleteTask b (_id t) db0) = NotFound.
Proof.
  intros Hnd Ht Ha Hab Hnone.
  assert (F : findOne (_id t) b db = None)
    by (apply findOne_foreign; congruence).
  assert (F0 : findOne (_id t) b db0 = None) by now apply findOne_absent.
  unfold getTask, updateTask, deleteTask. rewrite F, F0.
  repeat split; try reflexivity.
  - now destruct (updateErrors body).
  - intros E. now rewrite E.
  - intros code data. now destruct (updateErrors body).
Qed.

End OwnerScoping.

Lemma C2_foreign_task_is_not_found_witness :
  let t := Sample.task 1 7 "report" Pending None [] None in
  let body := mkTaskBody (Some "taken") None None None None None in
  getTask 8 1 [t] = NotFound
  /\ updateTask (P := Sample.platform) (Sample.fixedClock 5000) 8 1 body [t]
     = (NotFound, [t])
  /\ deleteTask 8 1 [t] = (NotFound, [t]).
Proof.
  intros t body.
  pose proof (C2_foreign_task_is_not_found (P := Sample.platform)
                (Sample.fixedClock 5000) (Sample.fixedClock 5000) 7 8 t body [t] []) as W.
  destruct W as (G & _ & U & _ & _ & D & _).
  - repeat constructor. simpl. intros [].
  - now left.
  - reflexivity.
  - lia.
  - intros x [].
  - split; [exact G|]. split; [exact U|exact D].
Defined.

(* ------------------------------------------------------------------ *)
(** ** Statistics *)

Lemma countWhere_cons (f : Task -> bool) (x : Task) (l : list Task) :
  countWhere f (x :: l) = Z.b2z (f x) + countWhere f l.
Proof.
  unfold countWhere. cbn [filter]. destruct (f x); cbn [Z.b2z List.length]; lia.
Qed.

Lemma countWhere_nonneg (f : Task -> bool) (l : list Task) : 0 <= countWhere f l.
Proof. unfold countWhere. lia. Qed.

(** A narrower filter counts no more documents. *)
Lemma countWhere_le (f g : Task -> bool) (l : list Task) :
  (forall x, f x = true -> g x = true) -> countWhere f l <= countWhere g l.
Proof.
  intros Himp. induction l as [|x l IH]; [reflexivity|].
  rewrite !countWhere_cons. specialize (Himp x).
  destruct (f x), (g x); cbn [Z.b2z]; lia.
Qed.

Lemma countWhere_owner (uid : ObjectId) (db : list Task) :
  countWhere (fun t => user t =? uid) db
  = Z.of_nat (List.length (filter (fun t => user t =? uid) db)).
Proof. reflexivity. Qed.

Lemma countStatus_cons (s : Status) (x : Task) (l : list Task) :
  countStatus s (x :: l) = Z.b2z (Status_eqb (status x) s) + countStatus s l.
Proof.
  unfold countStatus. cbn [filter].
  destruct (Status_eqb (status x) s); cbn [Z.b2z List.length]; lia.
Qed.

Lemma countStatus_nonneg (s : Status) (l : list Task) : 0 <= countStatus s l.
Proof. unfold countStatus. lia. Qed.

(** Every task has exactly one status. *)
Lemma countStatus_sum (l : list Task) :
  countStatus Pending l + countStatus InProgress l
  + countStatus Completed l + countStatus Cancelled l
  = Z.of_nat (List.length l).
Proof.
  induction l as [|x l IH]; [reflexivity|].
  rewrite !countStatus_cons. cbn [List.length].
  destruct (status x); cbn [Status_eqb Z.b2z]; lia.
Qed.

(** What the fold over the groups leaves in the result object. *)
Lemma getUserStats_buckets (uid : ObjectId) (db : list Task) :
  let mine := filter (fun t => user t =? uid) db in
  getUserStats uid db
  = mkUserStats (Z.of_nat (List.length mine))
                (countStatus Pending mine) (countStatus InProgress mine)
                (countStatus Completed mine) (countStatus Cancelled mine).
Proof.
  intros mine. unfold getUserStats, aggregateByStatus. fold mine.
  pose proof (countStatus_sum mine) as Hsum.
  pose proof (countStatus_nonneg Pending mine) as H1.
  pose proof (countStatus_nonneg InProgress mine) as H2.
  pose proof (countStatus_nonneg Completed mine) as H3.
  pose proof (countStatus_nonneg Cancelled mine) as H4.
  cbn [map filter snd].
  destruct (Z.ltb_spec 0 (countStatus Pending mine));
    destruct (Z.ltb_spec 0 (countStatus InProgress mine));
    destruct (Z.ltb_spec 0 (countStatus Completed mine));
    destruct (Z.ltb_spec 0 (countStatus Cancelled mine));
    cbn [fold_left addGroup total pending in_progress completed cancelled];
    f_equal; lia.
Qed.

(** Where the offset of local time never changes, local midnights are a day
    apart, and the local day of an instant contains it. *)
Lemma setHours0_next {P : Platform} (off d : Z) :
  (forall t b, localTZA t b = off) ->
  setHours0 (setDateNext d) = setHours0 d + msPerDay
  /\ setHours0 d <= d < setHours0 d + msPerDay.
Proof.
  intros Hoff. unfold setHours0, setDateNext, utc, localTime. rewrite !Hoff.
  replace (d + off + msPerDay - off + off) with (d + off + 1 * msPerDay) by ring.
  rewrite Z.div_add by (unfold msPerDay; lia).
  pose proof (Z.mul_div_le (d + off) msPerDay ltac:(unfold msPerDay; lia)).
  pose proof (Z.mul_succ_div_gt (d + off) msPerDay ltac:(unfold msPerDay; lia)).
  lia.
Qed.

Lemma overdueFilter_owner (uid : ObjectId) (now : Z) (t : Task) :
  overdueFilter uid now t = true -> (user t =? uid) = true.
Proof.
  unfold overdueFilter. intros E.
  apply andb_true_iff in E as [E _]. now apply andb_true_iff in E as [E _].
Qed.

Lemma dueTodayFilter_owner (uid : ObjectId) (from upto : Z) (t : Task) :
  dueTodayFilter uid from upto t = true -> (user t =? uid) = true.
Proof.
  unfold dueTodayFilter. intros E.
  apply andb_true_iff in E as [E _]. now apply andb_true_iff in E as [E _].
Qed.

Section Statistics.

Context {P : Platform}.

(** C3, as the handler has it.  For every owner the four status counts are
    the numbers of the owner's tasks in each status (0 for a status without
    tasks) and add up to [total], the number of the owner's tasks; [overdue]
    and [dueToday] are each at most [total].  [overdue] is counted against
    the first clock reading and [dueToday] over the local day of the second
    reading, from the local midnight before it to the local midnight of the
    day after; where the offset of local time never changes that day has 24
    hours and contains the reading.  When the two readings are the same
    instant, the answer is the one computed from that single instant. *)
Theorem C3_stats_counts (clk : Clock) (uid : ObjectId) (db : list Task) :
  let mine := filter (fun t => user t =? uid) db in
  exists st overdue dueToday,
    getStats clk uid db = Ok 200 (mkStatsData st overdue dueToday)
    /\ total st = Z.of_nat (List.length mine)
    /\ pending st = countStatus Pending mine
    /\ in_progress st = countStatus InProgress mine
    /\ completed st = countStatus Completed mine
    /\ cancelled st = countStatus Cancelled mine
    /\ pending st + in_progress st + completed st + cancelled st = total st
    /\ 0 <= overdue <= total st
    /\ 0 <= dueToday <= total st
    /\ overdue = countWhere (overdueFilter uid (clk 0%nat)) db
    /\ dueToday
       = countWhere (dueTodayFilter uid (setHours0 (clk 1%nat))
                                    (setHours0 (setDateNext (clk 1%nat)))) db
    /\ (forall off, (forall t b, localTZA t b = off) ->
          setHours0 (setDateNext (clk 1%nat)) = setHours0 (clk 1%nat) + msPerDay
          /\ setHours0 (clk 1%nat) <= clk 1%nat < setHours0 (clk 1%nat) + msPerDay)
    /\ (clk 0%nat = clk 1%nat ->
        getStats clk uid db = getStats (fun _ => clk 0%nat) uid db).
Proof.
  intros mine. unfold getStats.
  do 3 eexists. split; [reflexivity|].
  rewrite getUserStats_buckets. fold mine.
  cbn [total pending in_progress completed cancelled].
  split; [reflexivity|]. do 4 (split; [reflexivity|]).
  split; [apply countStatus_sum|].
  split.
  { split; [apply countWhere_nonneg|]. unfold mine. rewrite <- countWhere_owner.
    apply countWhere_le. apply overdueFilter_owner. }
  split.
  { split; [apply countWhere_nonneg|]. unfold mine. rewrite <- countWhere_owner.
    apply countWhere_le. apply dueTodayFilter_owner. }
  do 2 (split; [reflexivity|]).
  split; [intros off Hoff; exact (setHours0_next off (clk 1%nat) Hoff)|].
  intros E. now rewrite <- E.
Qed.

End Statistics.

(** C3 as stated fails: the handler does not work from one instant.  With a
    first reading in the last millisecond of a day and a second reading at the
    following midnight, no single instant yields the answer it gives: a task
    due in that last millisecond is not yet overdue, while the two tasks due
    the next day already count as due today. *)
Lemma C3_single_now_counterexample :
  ~ exists now,
      getStats (P := Sample.platform) Sample.midnightClock 7 Sample.midnightTasks
      = getStats (P := Sample.platform) (Sample.fixedClock now) 7 Sample.midnightTasks.
Proof.
  intros [now E]. unfold getStats, Sample.fixedClock in E.
  assert (Hutc : forall t b, localTZA (Platform := Sample.platform) t b = 0)
    by reflexivity.
  rewrite !(proj1 (setHours0_next (P := Sample.platform) 0 _ Hutc)) in E.
  assert (E1 := f_equal (fun r => match r with Ok _ d => s_overdue d | _ => 0 end) E).
  assert (E2 := f_equal (fun r => match r with Ok _ d => s_dueToday d | _ => 0 end) E).
  clear E. cbn [s_overdue s_dueToday] in E1, E2.
  change (countWhere _ Sample.midnightTasks) with 0 in E1 at 1.
  change (countWhere _ Sample.midnightTasks) with 2 in E2 at 1.
  unfold Sample.midnightTasks in E1, E2.
  rewrite !countWhere_cons in E1, E2.
  unfold Sample.task, countWhere, overdueFilter, dueTodayFilter, dueIs, statusOpen
    in E1, E2.
  cbn [user dueDate status Status_eqb negb orb andb filter List.length Z.of_nat]
    in E1, E2.
  rewrite !Z.eqb_refl, !andb_true_r in E1, E2. cbn [andb] in E1, E2.
  assert (Hnow : now <= 2 * msPerDay - 1).
  { destruct (Z.ltb_spec (2 * msPerDay - 1) now); [|assumption].
    exfalso. cbn [Z.b2z] in E1.
    destruct (_ <? now), (_ <? now); cbn [Z.b2z] in E1; lia. }
  clear E1.
  assert (Hday : setHours0 (P := Sample.platform) now + msPerDay <= 2 * msPerDay).
  { unfold setHours0, utc, localTime. cbn [localTZA Sample.platform].
    unfold msPerDay in *. Z.to_euclidean_division_equations. lia. }
  assert (B : (2 * msPerDay + 3600000
               <? setHours0 (P := Sample.platform) now + msPerDay) = false)
    by (apply Z.ltb_ge; unfold msPerDay in *; lia).
  assert (C : (2 * msPerDay + 7200000
               <? setHours0 (P := Sample.platform) now + msPerDay) = false)
    by (apply Z.ltb_ge; unfold msPerDay in *; lia).
  rewrite B, C, !andb_false_r in E2. cbn [Z.b2z] in E2.
  destruct (_ && _); cbn [Z.b2z] in E2; lia.
Qed.

(** On the day the clocks go forward the local day has 23 hours.  At
    2024-03-31T11:00Z in the zone of [Sample.springPlatform], the day runs
    from 2024-03-30T23:00Z to 2024-03-31T22:00Z, and a task due at
    2024-03-31T22:30Z, half an hour into the next local day, is not counted
    as due today. *)
Example stats_on_the_day_the_clocks_go_forward :
  let now := Sample.clocksForward + 10 * Sample.hour in
  let late := Sample.task 1 7 "report" Pending (Some (now + 11 * Sample.hour + 1800000))
                          [] None in
  setHours0 (P := Sample.springPlatform) now = 1711839600000
  /\ setHours0 (P := Sample.springPlatform) (setDateNext (P := Sample.springPlatform) now)
     = 1711839600000 + 23 * Sample.hour
  /\ exists st,
       getStats (P := Sample.springPlatform) (Sample.fixedClock now) 7 [late]
       = Ok 200 (mkStatsData st 0 0).
Proof.
  repeat split. eexists. reflexivity.
Qed.

(* ------------------------------------------------------------------ *)
(** ** Updates *)

Lemma findOne_of_findById (id uid : ObjectId) (db : list Task) (t : Task) :
  findById id db = Some t -> user t = uid -> findOne id uid db = Some t.
Proof.
  unfold findById, findOne. intros F U.
  induction db as [|x db IH]; simpl in *; [discriminate|].
  destruct (_id x =? id) eqn:E; simpl.
  - injection F as ->. now rewrite U, Z.eqb_refl.
  - now apply IH.
Qed.

Lemma findById_updateFirst (id : ObjectId) (f : Task -> Task) (db : list Task)
  (t : Task) :
  (forall x, _id (f x) = _id x) -> findById id db = Some t ->
  findById id (updateFirst id f db) = Some (f t).
Proof.
  unfold findById. intros Hid F.
  induction db as [|x db IH]; simpl in *; [discriminate|].
  destruct (_id x =? id) eqn:E; simpl.
  - injection F as ->. now rewrite Hid, E.
  - rewrite E. now apply IH.
Qed.

Lemma app_nil_both {A} (l1 l2 : list A) :
  (l1 ++ l2)%list = [] <-> l1 = [] /\ l2 = [].
Proof.
  split; [apply app_eq_nil|]. now intros [-> ->].
Qed.

Section Updates.

Context {P : Platform}.

(** The [dueDate] chain is the only one that looks at [dueDate]. *)
Lemma updateErrors_split (b : TaskBody) :
  updateErrors b = [] <->
  updateErrors (withoutDueDate b) = []
  /\ match b_dueDate b with Some d => dueDateCustom d = true | None => True end.
Proof.
  unfold updateErrors, withoutDueDate; cbn [b_title b_description b_status
    b_priority b_dueDate b_tags].
  rewrite !app_nil_both. cbn [app].
  destruct (b_dueDate b) as [d|]; [destruct (dueDateCustom d)|]; intuition congruence.
Qed.

(** An accepted update, as the route performs it on an owned task. *)
Lemma updateTask_accepts (clk : Clock) (uid id : ObjectId) (b : TaskBody)
  (db : list Task) (t : Task) :
  findById id db = Some t -> user t = uid ->
  updateErrors b = [] ->
  updateValidators (clk 1%nat) (buildUpdate b) = [] ->
  let t' := applyUpdate (buildUpdate b) (clk 0%nat) t in
  let db' := updateFirst id (applyUpdate (buildUpdate b) (clk 0%nat)) db in
  updateTask clk uid id b db = (Ok 200 (Some t'), db')
  /\ findById id db' = Some t'.
Proof.
  intros F U E V t' db'.
  assert (F' : findById id db' = Some t')
    by (apply findById_updateFirst; [reflexivity|assumption]).
  split; [|exact F'].
  unfold updateTask, findByIdAndUpdate.
  rewrite E, (findOne_of_findById _ _ _ _ F U), V. fold db'. now rewrite F'.
Qed.

(** C5, as the route has it.  On an owned task and with the rest of the
    body valid: a [dueDate] of [null] or of the empty string is always
    accepted and clears the due date; a [dueDate] string that parses is
    checked against the clock by the schema validator, which the update runs
    ([runValidators: true]): it is stored when it lies strictly after now,
    and otherwise the update is refused and the store is left as it was. *)
Theorem C5_update_revalidates_dueDate (clk : Clock) (uid id : ObjectId)
  (b : TaskBody) (db : list Task) (t : Task) :
  findById id db = Some t -> user t = uid ->
  updateErrors (withoutDueDate b) = [] ->
  (forall d, b_dueDate b = Some d -> d = JNull \/ d = JString "" ->
     exists t' db',
       updateTask clk uid id b db = (Ok 200 (Some t'), db')
       /\ findById id db' = Some t' /\ dueDate t' = None)
  /\ (forall s v, b_dueDate b = Some (JString s) -> s <> "" ->
        newDate s = Some v ->
        (clk 1%nat < v ->
           exists t' db',
             updateTask clk uid id b db = (Ok 200 (Some t'), db')
             /\ findById id db' = Some t' /\ dueDate t' = Some v)
        /\ (v <= clk 1%nat ->
              updateTask clk uid id b db
              = (Thrown (ValidationFailure [dueDateMessage]), db))).
Proof.
  intros F U E. split.
  - intros d Hd Hclear.
    destruct (updateTask_accepts clk uid id b db t F U) as [Hr Hf].
    + apply updateErrors_split. split; [assumption|].
      rewrite Hd. destruct Hclear as [-> | ->]; reflexivity.
    + unfold updateValidators, buildUpdate; cbn [u_dueDate]. rewrite Hd.
      destruct Hclear as [-> | ->]; reflexivity.
    + do 2 eexists. split; [exact Hr|]. split; [exact Hf|].
      unfold applyUpdate, buildUpdate; cbn [dueDate u_dueDate]. rewrite Hd.
      destruct Hclear as [-> | ->]; reflexivity.
  - intros s v Hd Hs Hv.
    assert (Ht : JS.truthy s = true) by (destruct s; [congruence|reflexivity]).
    assert (Herr : updateErrors b = []).
    { apply updateErrors_split. split; [assumption|]. rewrite Hd.
      unfold dueDateCustom. rewrite Hv. now destruct (String.eqb s ""). }
    split.
    + intros Hlt.
      destruct (updateTask_accepts clk uid id b db t F U Herr) as [Hr Hf].
      * unfold updateValidators, buildUpdate; cbn [u_dueDate].
        rewrite Hd, Ht, Hv. unfold dueDateValidator.
        now apply Z.ltb_lt in Hlt as ->.
      * do 2 eexists. split; [exact Hr|]. split; [exact Hf|].
        unfold applyUpdate, buildUpdate; cbn [dueDate u_dueDate].
        now rewrite Hd, Ht, Hv.
    + intros Hle. unfold updateTask, findByIdAndUpdate.
      rewrite Herr, (findOne_of_findById _ _ _ _ F U).
      unfold updateValidators, buildUpdate; cbn [u_dueDate].
      rewrite Hd, Ht, Hv. unfold dueDateValidator.
      now apply Z.ltb_ge in Hle as ->.
Qed.

End Updates.

Lemma C5_update_revalidates_dueDate_witness :
  let t := Sample.task 1 7 "report" Pending (Some 1600000000000) [] None in
  (exists t' db',
      updateTask (P := Sample.platform) (Sample.fixedClock Sample.nov2023) 7 1
        (mkTaskBody None None None None (Some JNull) None) [t]
      = (Ok 200 (Some t'), db')
      /\ findById 1 db' = Some t' /\ dueDate t' = None)
  /\ (exists t' db',
         updateTask (P := Sample.platform) (Sample.fixedClock Sample.nov2023) 7 1
           (mkTaskBody None None None None (Some (JString "2030-01-01")) None) [t]
         = (Ok 200 (Some t'), db')
         /\ findById 1 db' = Some t' /\ dueDate t' = Some 1893456000000).
Proof.
  intros t. split.
  - refine (proj1 (C5_update_revalidates_dueDate (P := Sample.platform)
               (Sample.fixedClock Sample.nov2023) 7 1
               (mkTaskBody None None None None (Some JNull) None) [t] t
               eq_refl eq_refl eq_refl) JNull eq_refl (or_introl eq_refl)).
  - refine (proj1 (proj2 (C5_update_revalidates_dueDate (P := Sample.platform)
               (Sample.fixedClock Sample.nov2023) 7 1
               (mkTaskBody None None None None (Some (JString "2030-01-01")) None)
               [t] t eq_refl eq_refl eq_refl)
               "2030-01-01" 1893456000000 eq_refl _ eq_refl) _).
    + discriminate.
    + unfold Sample.fixedClock, Sample.nov2023. lia.
Defined.

(** C5 as stated fails: a due date in the past supplied on update is not
    accepted.  In November 2023 a PUT with [dueDate] 2020-01-01 on an owned
    task is refused by the schema validator and nothing is stored. *)
Lemma C5_past_dueDate_counterexample :
  let t := Sample.task 1 7 "report" Pending None [] None in
  let body := mkTaskBody None None None None (Some (JString "2020-01-01")) None in
  newDate (Platform := Sample.platform) "2020-01-01" = Some 1577836800000
  /\ 1577836800000 < Sample.nov2023
  /\ updateErrors (P := Sample.platform) body = []
  /\ updateTask (P := Sample.platform) (Sample.fixedClock Sample.nov2023) 7 1 body [t]
     = (Thrown (ValidationFailure ["Due date must be in the future"]), [t]).
Proof. repeat split. Qed.

(* ------------------------------------------------------------------ *)
(** ** Partial updates *)

Lemma preserved_refl (b : TaskBody) (id : ObjectId) (t : Task) : preserved b id t t.
Proof. unfold preserved. repeat split; reflexivity. Qed.

Lemma preserved_same (b : TaskBody) (id : ObjectId) (db : list Task) :
  Forall2 (preserved b id) db db.
Proof. induction db; constructor; [apply preserved_refl|assumption]. Qed.

Lemma statusOfName_isIn (s : string) :
  JS.isIn statusNames s = true ->
  exists st, statusOfName s = Some st /\ statusName st = s.
Proof.
  unfold JS.isIn, statusNames. cbn [existsb]. rewrite !orb_true_iff.
  intros [E|[E|[E|[E|E]]]]; try discriminate;
    apply String.eqb_eq in E; subst s; eexists; split; reflexivity.
Qed.

Lemma priorityOfName_isIn (s : string) :
  JS.isIn priorityNames s = true ->
  exists p, priorityOfName s = Some p /\ priorityName p = s.
Proof.
  unfold JS.isIn, priorityNames. cbn [existsb]. rewrite !orb_true_iff.
  intros [E|[E|[E|[E|E]]]]; try discriminate;
    apply String.eqb_eq in E; subst s; eexists; split; reflexivity.
Qed.

Lemma check_nil (name message : string) (ok : string -> bool) (v : option string)
  (s : string) :
  check name message ok v = [] -> v = Some s -> ok s = true.
Proof.
  intros E ->. unfold check in E. now destruct (ok s).
Qed.

Lemma findOne_findById (id uid : ObjectId) (db : list Task) (t : Task) :
  findOne id uid db = Some t -> exists t1, findById id db = Some t1.
Proof.
  unfold findOne, findById. intros F.
  destruct (find (fun x => _id x =? id) db) as [t1|] eqn:E; [now exists t1|].
  apply find_some in F as [Hin Hm]. apply andb_true_iff in Hm as [Hm _].
  rewrite (proj1 (find_none_iff _ _) E t Hin) in Hm. discriminate.
Qed.

Section PartialUpdates.

Context {P : Platform}.

Lemma applyUpdate_preserved (b : TaskBody) (id : ObjectId) (stamp : Z) (t : Task) :
  _id t = id -> preserved b id t (applyUpdate (buildUpdate b) stamp t).
Proof.
  intros Hid. unfold preserved, applyUpdate, buildUpdate.
  cbn [_id user createdAt completedAt title description status priority dueDate
       tags u_title u_description u_status u_priority u_dueDate u_tags].
  repeat split; try (intros ->; reflexivity). congruence.
Qed.

Lemma updateFirst_preserved (b : TaskBody) (id : ObjectId) (stamp : Z)
  (db : list Task) :
  Forall2 (preserved b id) db
          (updateFirst id (applyUpdate (buildUpdate b) stamp) db).
Proof.
  induction db as [|x db IH]; cbn [updateFirst]; [constructor|].
  destruct (_id x =? id) eqn:E.
  - constructor; [|apply preserved_same].
    apply applyUpdate_preserved. now apply Z.eqb_eq.
  - constructor; [apply preserved_refl|assumption].
Qed.

Lemma applyUpdate_written (b : TaskBody) (stamp : Z) (t : Task) :
  updateErrors b = [] -> written b (applyUpdate (buildUpdate b) stamp t).
Proof.
  unfold updateErrors. rewrite !app_nil_both.
  intros (_ & _ & Hs & Hp & _ & _).
  unfold written, applyUpdate, buildUpdate.
  cbn [title description status priority dueDate tags u_title u_description
       u_status u_priority u_dueDate u_tags].
  repeat split.
  - now intros s ->.
  - now intros s ->.
  - intros s E.
    destruct (statusOfName_isIn s (check_nil _ _ _ _ s Hs E)) as (st & E1 & E2).
    now rewrite E, E1.
  - intros s E.
    destruct (priorityOfName_isIn s (check_nil _ _ _ _ s Hp E)) as (p & E1 & E2).
    now rewrite E, E1.
  - now intros ->.
  - now intros s ->.
  - now intros l ->.
Qed.

(** C9.  An update changes, in the document it is aimed at, only fields
    that its body provides: a field among title, description, status,
    priority, dueDate and tags that the body leaves out keeps its value, and
    so do the owner, the creation time and [completedAt] (whether or not the
    body has a status); every other document stays as it is.  When the
    update is accepted, the provided fields hold the values of the body. *)
Theorem C9_update_changes_only_given_fields (clk : Clock) (uid id : ObjectId)
  (b : TaskBody) (db : list Task) :
  Forall2 (preserved b id) db (snd (updateTask clk uid id b db))
  /\ (forall code data,
        fst (updateTask clk uid id b db) = Ok code data ->
        exists t', data = Some t'
                   /\ findById id (snd (updateTask clk uid id b db)) = Some t'
                   /\ written b t').
Proof.
  unfold updateTask.
  destruct (updateErrors b) as [|e errs] eqn:Herr;
    [|split; [apply preserved_same|discriminate]].
  destruct (findOne id uid db) as [t0|] eqn:F;
    [|split; [apply preserved_same|discriminate]].
  unfold findByIdAndUpdate.
  destruct (updateValidators (clk 1%nat) (buildUpdate b));
    [|split; [apply preserved_same|discriminate]].
  cbn [fst snd]. split; [apply updateFirst_preserved|].
  intros code data E. injection E as _ <-.
  destruct (findOne_findById _ _ _ _ F) as [t1 F1].
  rewrite (findById_updateFirst id (applyUpdate (buildUpdate b) (clk 0%nat))
             db t1 (fun x => eq_refl) F1).
  eexists. split; [reflexivity|]. split; [reflexivity|].
  now apply applyUpdate_written.
Qed.

End PartialUpdates.

(* ------------------------------------------------------------------ *)
(** ** Parsing the list request *)

Lemma check_nil_iff (name message : string) (ok : string -> bool)
  (v : option string) :
  check name message ok v = [] <-> ~ turnedDown ok v.
Proof.
  unfold check, turnedDown. destruct v as [s|].
  - destruct (ok s) eqn:E; split.
    + intros _ (s' & Hs & Hok). injection Hs as <-. congruence.
    + reflexivity.
    + discriminate.
    + intros Hn. exfalso. apply Hn. now exists s.
  - split; [|reflexivity]. intros _ (s & Hs & _). discriminate.
Qed.

Lemma check_turnedDown (name message : string) (ok : string -> bool)
  (v : option string) :
  turnedDown ok v -> check name message ok v = [mkFieldError (PField name) message].
Proof. intros (s & -> & Hok). unfold check. now rewrite Hok. Qed.

(** A string accepted by [isInt] reads as an integer within the bounds. *)
Lemma isInt_bounds (lo : Z) (hi : option Z) (s : string) :
  JS.isInt lo hi s = true ->
  exists n, JS.parseInt10 s = Some n /\ lo <= n
            /\ match hi with Some m => n <= m | None => True end.
Proof.
  unfold JS.isInt. intros E. apply andb_true_iff in E as [_ E].
  destruct (JS.parseInt10 s) as [n|]; [|discriminate].
  apply andb_true_iff in E as [E1 E2]. exists n.
  split; [reflexivity|]. split; [now apply Z.leb_le|].
  destruct hi; [now apply Z.leb_le|exact I].
Qed.

(** A string whose integer value is out of bounds is turned down. *)
Lemma isInt_out_of_range (lo : Z) (hi : option Z) (s : string) (n : Z) :
  JS.parseInt10 s = Some n ->
  n < lo \/ match hi with Some m => m < n | None => False end ->
  JS.isInt lo hi s = false.
Proof.
  intros E Hout. unfold JS.isInt. rewrite E. apply andb_false_iff. right.
  apply andb_false_iff. destruct Hout as [Hlo|Hhi].
  - left. now apply Z.leb_gt.
  - right. destruct hi; [now apply Z.leb_gt|contradiction].
Qed.

Lemma parseIntOr_accepted (lo : Z) (hi : option Z) (v : option string) (d : Z) :
  1 <= lo -> ~ turnedDown (JS.isInt lo hi) v ->
  match v with
  | Some s => JS.parseInt10 s = Some (JS.parseIntOr v d)
              /\ lo <= JS.parseIntOr v d
              /\ match hi with Some m => JS.parseIntOr v d <= m | None => True end
  | None => JS.parseIntOr v d = d
  end.
Proof.
  intros Hlo Hok. destruct v as [s|]; [|reflexivity].
  destruct (JS.isInt lo hi s) eqn:E.
  - destruct (isInt_bounds _ _ _ E) as (n & Hn & H1 & H2).
    unfold JS.parseIntOr. rewrite Hn.
    destruct (Z.eqb_spec n 0); [lia|]. now repeat split.
  - exfalso. apply Hok. now exists s.
Qed.

Lemma isIn_truthy (xs : list string) (s : string) :
  JS.isIn xs s = true -> Forall (fun x => x <> "") xs -> given (Some s) = Some s.
Proof.
  unfold JS.isIn. intros E Hne. apply existsb_exists in E as (x & Hx & Hs).
  apply String.eqb_eq in Hs. subst x.
  rewrite Forall_forall in Hne. specialize (Hne s Hx).
  unfold given. destruct s; [congruence|reflexivity].
Qed.

Section ListParsing.

Context {P : Platform}.

Lemma listErrors_nil (p : ListParams) :
  listErrors p = [] <->
  ~ turnedDown (JS.isInt 1 None) (p_page p)
  /\ ~ turnedDown (JS.isInt 1 (Some 100)) (p_limit p)
  /\ ~ turnedDown (JS.isIn statusNames) (p_status p)
  /\ ~ turnedDown (JS.isIn priorityNames) (p_priority p)
  /\ ~ turnedDown (JS.isIn sortFields) (p_sortBy p)
  /\ ~ turnedDown (JS.isIn ["asc"; "desc"]) (p_sortOrder p).
Proof.
  unfold listErrors. rewrite !app_nil_both, !check_nil_iff. reflexivity.
Qed.

Lemma parseList_rejects (uid : ObjectId) (p : ListParams) (e : FieldError) :
  In e (listErrors p) -> parseList uid p = inl (listErrors p).
Proof.
  unfold parseList. destruct (listErrors p); [intros []|reflexivity].
Qed.

(** What the handler derives from a request that passes validation. *)
Lemma parseList_accepts (uid : ObjectId) (p : ListParams) :
  listErrors p = [] ->
  exists d, parseList uid p = inr d
    /\ d_query d = buildQuery uid p
    /\ d_startIndex d = (d_page d - 1) * d_limit d
    /\ 1 <= d_page d /\ 1 <= d_limit d <= 100
    /\ (p_page p = None -> d_page d = 1)
    /\ (forall s, p_page p = Some s -> JS.parseInt10 s = Some (d_page d))
    /\ (p_limit p = None -> d_limit d = 10)
    /\ (forall s, p_limit p = Some s -> JS.parseInt10 s = Some (d_limit d))
    /\ (p_sortBy p = None -> d_sortBy d = "createdAt")
    /\ (forall s, p_sortBy p = Some s -> d_sortBy d = s)
    /\ (p_sortOrder p = None -> d_sortOrder d = -1)
    /\ (p_sortOrder p = Some "desc" -> d_sortOrder d = -1)
    /\ (p_sortOrder p = Some "asc" -> d_sortOrder d = 1).
Proof.
  intros E. unfold parseList. rewrite E.
  apply listErrors_nil in E as (Hpage & Hlimit & _ & _ & Hsort & _).
  pose proof (parseIntOr_accepted 1 None (p_page p) 1 ltac:(lia) Hpage) as Hp.
  pose proof (parseIntOr_accepted 1 (Some 100) (p_limit p) 10 ltac:(lia) Hlimit) as Hl.
  eexists. split; [reflexivity|].
  cbn [d_query d_startIndex d_page d_limit d_sortBy d_sortOrder].
  split; [reflexivity|]. split; [reflexivity|].
  split; [destruct (p_page p); [tauto|lia]|].
  split; [destruct (p_limit p); [tauto|lia]|].
  split; [intros Hn; now rewrite Hn in *|].
  split; [intros s Hs; rewrite Hs in *; tauto|].
  split; [intros Hn; now rewrite Hn in *|].
  split; [intros s Hs; rewrite Hs in *; tauto|].
  split; [now intros ->|].
  split.
  { intros s Hs. rewrite Hs in *.
    destruct (JS.isIn sortFields s) eqn:Hin.
    - rewrite (isIn_truthy sortFields s Hin); [reflexivity|].
      repeat constructor; discriminate.
    - exfalso. apply Hsort. now exists s. }
  repeat split; now intros ->.
Qed.

(** The six parameters the list route validates.  Parsing fails with a
    validation error that lists a message for the offending field whenever
    status, priority, sortBy or sortOrder is present with a value outside its
    enumeration, or page or limit is present and is not an integer within
    range (page at least 1, limit from 1 to 100).  When none of these six is
    turned down, parsing yields the descriptor, with page 1, limit 10, sortBy
    createdAt and sortOrder desc for the parameters left out. *)
Lemma parseList_checks_six_parameters (uid : ObjectId) (p : ListParams) :
  (forall name message ok v,
      In (name, message, ok, v)
         [ ("page", "Page must be a positive integer", JS.isInt 1 None, p_page p);
           ("limit", "Limit must be between 1 and 100", JS.isInt 1 (Some 100), p_limit p);
           ("status", "Invalid status", JS.isIn statusNames, p_status p);
           ("priority", "Invalid priority", JS.isIn priorityNames, p_priority p);
           ("sortBy", "Invalid sort field", JS.isIn sortFields, p_sortBy p);
           ("sortOrder", "Sort order must be asc or desc", JS.isIn ["asc"; "desc"],
            p_sortOrder p) ] ->
      turnedDown ok v ->
      exists errs, parseList uid p = inl errs
                   /\ In (mkFieldError (PField name) message) errs)
  /\ (forall s n, JS.parseInt10 s = Some n -> n < 1 -> JS.isInt 1 None s = false)
  /\ (forall s n, JS.parseInt10 s = Some n -> n < 1 \/ 100 < n ->
                  JS.isInt 1 (Some 100) s = false)
  /\ (~ turnedDown (JS.isInt 1 None) (p_page p) ->
      ~ turnedDown (JS.isInt 1 (Some 100)) (p_limit p) ->
      ~ turnedDown (JS.isIn statusNames) (p_status p) ->
      ~ turnedDown (JS.isIn priorityNames) (p_priority p) ->
      ~ turnedDown (JS.isIn sortFields) (p_sortBy p) ->
      ~ turnedDown (JS.isIn ["asc"; "desc"]) (p_sortOrder p) ->
      exists d, parseList uid p = inr d
        /\ 1 <= d_page d /\ 1 <= d_limit d <= 100
        /\ (p_page p = None -> d_page d = 1)
        /\ (forall s, p_page p = Some s -> JS.parseInt10 s = Some (d_page d))
        /\ (p_limit p = None -> d_limit d = 10)
        /\ (forall s, p_limit p = Some s -> JS.parseInt10 s = Some (d_limit d))
        /\ (p_sortBy p = None -> d_sortBy d = "createdAt")
        /\ (forall s, p_sortBy p = Some s -> d_sortBy d = s)
        /\ (p_sortOrder p = None -> d_sortOrder d = -1)
        /\ (p_sortOrder p = Some "desc" -> d_sortOrder d = -1)
        /\ (p_sortOrder p = Some "asc" -> d_sortOrder d = 1)).
Proof.
  split; [|split; [|split]].
  - intros name message ok v Hin Hdown.
    assert (Herr : In (mkFieldError (PField name) message) (listErrors p)).
    { unfold listErrors. cbn [In] in Hin.
      destruct Hin as [E|[E|[E|[E|[E|[E|[]]]]]]]; injection E as <- <- <- <-;
        rewrite (check_turnedDown _ _ _ _ Hdown), !in_app_iff; cbn [In]; tauto. }
    exists (listErrors p). split; [|exact Herr].
    now apply parseList_rejects with (e := mkFieldError (PField name) message).
  - intros s n Hn Hlt. apply (isInt_out_of_range 1 None s n Hn). now left.
  - intros s n Hn Hout. apply (isInt_out_of_range 1 (Some 100) s n Hn).
    cbn. lia.
  - intros H1 H2 H3 H4 H5 H6.
    destruct (parseList_accepts uid p) as (d & Hd & _ & _ & Hrest).
    + apply listErrors_nil. tauto.
    + exists d. split; [exact Hd|exact Hrest].
Qed.

End ListParsing.

(** C6.  A date string that does not parse is claimed to fail parsing with
    a validation error that carries field-level messages.  The list route
    does not do that: its validator list has no entry for [dueBefore] or
    [dueAfter].  With [dueBefore=abc] the validators find nothing wrong,
    parsing yields a descriptor with page 1 and limit 10 whose upper date
    bound is the Invalid Date, and the request ends in the cast error the
    store throws, not in an answer 400.  The routes that create and update
    a task do check their date string: the same string as [dueDate] is
    answered 400 with a message for the field. *)
Theorem C6_unparsable_date_is_not_refused :
  let p := mkListParams None None None None None None (Some "abc") None None None in
  let body := mkTaskBody (Some "report") None None None (Some (JString "abc")) None in
  let t := Sample.task 1 7 "report" Pending None [] None in
  newDate (Platform := Sample.platform) "abc" = None
  /\ listErrors p = []
  /\ (exists d, parseList (P := Sample.platform) 7 p = inr d
                /\ q_dueLte (d_query d) = Some None
                /\ d_page d = 1 /\ d_limit d = 10)
  /\ getTasks (P := Sample.platform) 7 p Sample.midnightTasks = Thrown CastError
  /\ createTask (P := Sample.platform) (Sample.fixedClock Sample.nov2023) 9 7 body []
     = (BadRequest [mkFieldError (PField "dueDate") "Due date must be a valid date"],
        [])
  /\ updateTask (P := Sample.platform) (Sample.fixedClock Sample.nov2023) 7 1 body [t]
     = (BadRequest [mkFieldError (PField "dueDate")
                      "Due date must be a valid date or null"], [t]).
Proof.
  repeat split. eexists. repeat split.
Qed.

(* ------------------------------------------------------------------ *)
(** ** Listing: total and page size *)

Lemma length_insertDoc (le : Task -> Task -> bool) (x : Task) (l : list Task) :
  List.length (insertDoc le x l) = S (List.length l).
Proof.
  induction l as [|y l IH]; [reflexivity|].
  cbn [insertDoc]. destruct (le x y); cbn [List.length]; congruence.
Qed.

(** Sorting neither drops nor adds a document. *)
Lemma length_sortDocs (field : string) (order : Z) (l : list Task) :
  List.length (sortDocs field order l) = List.length l.
Proof.
  unfold sortDocs. induction l as [|x l IH]; [reflexivity|].
  cbn [fold_right List.length]. now rewrite length_insertDoc, IH.
Qed.

(** The engine's scan neither drops nor adds a document. *)
Lemma length_scanOrder (rank : Task -> Z) (l : list Task) :
  List.length (scanOrder rank l) = List.length l.
Proof.
  unfold scanOrder. induction l as [|x l IH]; [reflexivity|].
  cbn [fold_right List.length]. now rewrite length_insertDoc, IH.
Qed.

Section Listing.

Context {P : Platform}.


End Listing.


(* ------------------------------------------------------------------ *)
(** ** Search and tag filters *)

Lemma isMeta_dot (c : ascii) : Regex.isMeta c = false -> Ascii.eqb c "." = false.
Proof.
  unfold Regex.isMeta, Regex.metaChars. cbn [existsb].
  destruct (Ascii.eqb c "."); [|reflexivity].
  rewrite !orb_true_r. discriminate.
Qed.

(** On a literal pattern the fragment tests a prefix, letter case ignored. *)
Lemma matchHere_literal (p : string) :
  Regex.metaFree p = true ->
  forall s, Regex.matchHere p s = JS.startsWith (JS.toLowerCase s) (JS.toLowerCase p).
Proof.
  induction p as [|c p IH]; intros Hp s.
  - now destruct s.
  - cbn [Regex.metaFree] in Hp. apply andb_true_iff in Hp as [Hc Hp].
    apply negb_true_iff in Hc.
    destruct s as [|b s]; [reflexivity|].
    cbn [Regex.matchHere JS.toLowerCase JS.startsWith].
    unfold Regex.atom. rewrite (isMeta_dot c Hc). now rewrite IH.
Qed.

Lemma searchFrom_literal (p : string) :
  Regex.metaFree p = true ->
  forall s, Regex.searchFrom p s = JS.includesI s p.
Proof.
  intros Hp s. unfold JS.includesI.
  induction s as [|b s IH].
  - cbn [Regex.searchFrom JS.toLowerCase JS.includes].
    now rewrite (matchHere_literal p Hp "").
  - cbn [Regex.searchFrom JS.toLowerCase JS.includes].
    rewrite (matchHere_literal p Hp (String b s)). cbn [JS.toLowerCase].
    now rewrite IH.
Qed.

Lemma metaFree_inFragment (p : string) :
  Regex.metaFree p = true -> Regex.inFragment p = true.
Proof.
  induction p as [|c p IH]; [reflexivity|].
  cbn [Regex.metaFree Regex.inFragment]. intros Hp.
  apply andb_true_iff in Hp as [Hc Hp]. rewrite Hc, (IH Hp). reflexivity.
Qed.

(** The platform of the examples treats literal patterns as literals. *)
Lemma fragment_literal : Regex.literalPatterns (P := Sample.platform).
Proof.
  intros p Hp. exists (Regex.searchFrom p). split.
  - cbn [regexI Sample.platform]. unfold Regex.compileFragment.
    now rewrite (metaFree_inFragment p Hp).
  - now apply searchFrom_literal.
Qed.

Lemma isIn_In (xs : list string) (s : string) : JS.isIn xs s = true <-> In s xs.
Proof.
  unfold JS.isIn. rewrite existsb_exists. split.
  - intros (x & Hx & E). apply String.eqb_eq in E. now subst.
  - intros Hin. exists s. split; [assumption|apply String.eqb_refl].
Qed.

Lemma existsb_ext_eq {A} (f g : A -> bool) (l : list A) :
  (forall x, f x = g x) -> existsb f l = existsb g l.
Proof. intros E. induction l as [|x l IH]; [reflexivity|]. cbn. now rewrite E, IH. Qed.

Section Search.

Context {P : Platform}.
Hypothesis literal : Regex.literalPatterns.

(** For a search term without metacharacters the search clause is the
    disjunction of three containment tests, letter case ignored, on the
    title, the description and each tag; the clause is conjoined with the
    other filters; and the [tag] parameter selects by equality with a tag. *)
Lemma search_literal_term (uid : ObjectId) (p : ListParams) (term : string) :
  given (p_search p) = Some term -> Regex.metaFree term = true ->
  exists m,
    compileSearch (buildQuery uid p) = Some (Some m)
    /\ (forall t,
          matchesOr m t
          = JS.includesI (title t) term
            || match description t with
               | Some d => JS.includesI d term
               | None => false
               end
            || existsb (fun g => JS.includesI g term) (tags t))
    /\ (forall t,
          matchDoc (buildQuery uid p) (Some m) t
          = matchDoc (buildQuery uid (withoutSearch p)) None t && matchesOr m t)
    /\ (forall t g,
          given (p_tag p) = Some g ->
          matchDoc (buildQuery uid p) (Some m) t = true -> In g (tags t)).
Proof.
  intros Hs Hlit. destruct (literal term Hlit) as (m & Hm & Hinc).
  exists m. split; [|split; [|split]].
  - unfold compileSearch, buildQuery; cbn [q_or]. now rewrite Hs, Hm.
  - intros t. unfold matchesOr. rewrite Hinc.
    destruct (description t); [rewrite Hinc|];
      now rewrite (existsb_ext_eq m (fun g => JS.includesI g term) _ Hinc).
  - intros t. unfold matchDoc, buildQuery, withoutSearch.
    cbn [q_user q_status q_priority q_or q_tagsIn q_dueLte q_dueGte p_page
         p_limit p_status p_priority p_search p_tag p_dueBefore p_dueAfter].
    destruct (user t =? uid), (eqField (statusName (status t)) (given (p_status p))),
      (eqField (priorityName (priority t)) (given (p_priority p))),
      (matchesOr m t), (given (p_tag p)) as [g|];
      cbn [andb]; rewrite ?andb_true_r, ?andb_false_r; try reflexivity.
    all: destruct (JS.isIn (tags t) g); cbn [andb];
      rewrite ?andb_true_r, ?andb_false_r; try reflexivity.
    all: destruct (dueCmp Z.leb (option_map newDate (given (p_dueBefore p))) t),
      (dueCmp Z.geb (option_map newDate (given (p_dueAfter p))) t); reflexivity.
  - intros t g Hg Hmatch. unfold matchDoc, buildQuery in Hmatch.
    cbn [q_tagsIn] in Hmatch. rewrite Hg in Hmatch.
    repeat (apply andb_true_iff in Hmatch as [Hmatch ?]).
    now apply isIn_In.
Qed.

(** The scenario of the specification: a search for [urgent] finds a task
    whose only hit is the tag [urgent-fix]; the tag filter [urgent] does not
    select a task tagged [urgentfix]. *)
Lemma search_urgent_scenario :
  let hit := Sample.task 1 7 "deploy" Pending None ["urgent-fix"] None in
  let other := Sample.task 2 7 "deploy" Pending None ["urgentfix"] None in
  let bySearch := mkListParams None None None None (Some "urgent") None None None
                               None None in
  let byTag := mkListParams None None None None None (Some "urgent") None None
                            None None in
  (exists r, getTasks 7 bySearch [hit] = Ok 200 r /\ l_data r = [hit])
  /\ (exists r, getTasks 7 byTag [other] = Ok 200 r /\ l_data r = []).
Proof.
  intros hit other bySearch byTag. split.
  - destruct (search_literal_term 7 bySearch "urgent" eq_refl eq_refl)
      as (m & Hm & Hor & Hand & _).
    assert (Hhit : matchDoc (buildQuery 7 bySearch) (Some m) hit = true)
      by (rewrite Hand, Hor; reflexivity).
    assert (Hparse : parseList 7 bySearch
                     = inr (mkDescriptor 1 10 0 (buildQuery 7 bySearch) "createdAt" (-1)))
      by reflexivity.
    assert (Hcast : castable (buildQuery 7 bySearch) = true) by reflexivity.
    unfold getTasks, countDocuments, findPage, selectDocs.
    rewrite Hparse. cbn [d_query d_sortBy d_sortOrder d_limit d_startIndex d_page].
    rewrite Hm, Hcast. cbn [filter]. rewrite Hhit.
    eexists. split; reflexivity.
  - eexists. split; reflexivity.
Qed.

End Search.

(** C8.  A task is claimed to match a search exactly when the term is
    contained, letter case ignored, in its title, its description or one of
    its tags.  The list route hands the term to the store as a regular
    expression, without escaping it.  The search [a.c] therefore returns a
    task titled [abc], although [a.c] is contained in none of its fields, and
    the search [(] ends in the error of a pattern that does not compile,
    although [(] is contained in the title [f(x)].  The client helper
    [filterTasks], which tests containment, drops the first task and keeps
    the second. *)
Theorem C8_search_term_is_a_pattern :
  let t := Sample.task 1 7 "abc" Pending None [] None in
  let p := mkListParams None None None None (Some "a.c") None None None None None in
  let u := Sample.task 2 7 "f(x)" Pending None [] None in
  let q := mkListParams None None None None (Some "(") None None None None None in
  (exists r, getTasks (P := Sample.platform) 7 p [t] = Ok 200 r
             /\ l_total r = 1 /\ l_data r = [t])
  /\ JS.includesI (title t) "a.c" = false
  /\ description t = None
  /\ tags t = []
  /\ taskUtils.filterTasks (P := Sample.platform) [t] p = []
  /\ getTasks (P := Sample.platform) 7 q [u] = Thrown RegexError
  /\ JS.includesI (title u) "(" = true
  /\ taskUtils.filterTasks (P := Sample.platform) [u] q = [u].
Proof.
  repeat split. eexists. repeat split.
Qed.

Example search_urgent_on_sample_platform :
  (exists r,
      getTasks (P := Sample.platform) 7
        (mkListParams None None None None (Some "urgent") None None None None None)
        [Sample.task 1 7 "deploy" Pending None ["urgent-fix"] None] = Ok 200 r
      /\ l_data r = [Sample.task 1 7 "deploy" Pending None ["urgent-fix"] None])
  /\ (exists r,
         getTasks (P := Sample.platform) 7
           (mkListParams None None None None None (Some "urgent") None None None None)
           [Sample.task 2 7 "deploy" Pending None ["urgentfix"] None] = Ok 200 r
         /\ l_data r = []).
Proof. exact (search_urgent_scenario (P := Sample.platform) fragment_literal). Qed.

(* ------------------------------------------------------------------ *)
(** ** Date filters and tasks without a due date *)

Lemma In_insertDoc (le : Task -> Task -> bool) (x y : Task) (l : list Task) :
  In y (insertDoc le x l) -> y = x \/ In y l.
Proof.
  induction l as [|z l IH]; cbn [insertDoc].
  - intros [<-|[]]. now left.
  - destruct (le x z); cbn [In].
    + intros [<-|H]; [now left|now right].
    + intros [<-|H]; [right; now left|].
      destruct (IH H) as [->|Hin]; [now left|right; now right].
Qed.

Lemma In_sortDocs (field : string) (order : Z) (y : Task) (l : list Task) :
  In y (sortDocs field order l) -> In y l.
Proof.
  unfold sortDocs. induction l as [|x l IH]; cbn [fold_right]; [trivial|].
  intros H. destruct (In_insertDoc _ _ _ _ H) as [->|Hin]; [now left|].
  right. now apply IH.
Qed.

Lemma In_scanOrder (rank : Task -> Z) (y : Task) (l : list Task) :
  In y (scanOrder rank l) -> In y l.
Proof.
  unfold scanOrder. induction l as [|x l IH]; cbn [fold_right]; [trivial|].
  intros H. destruct (In_insertDoc _ _ _ _ H) as [->|Hin]; [now left|].
  right. now apply IH.
Qed.

Lemma In_skipn {A} (n : nat) (y : A) (l : list A) : In y (skipn n l) -> In y l.
Proof.
  revert l. induction n as [|n IH]; intros l; [trivial|].
  destruct l as [|x l]; cbn [skipn]; [trivial|]. intros H. right. now apply IH.
Qed.

Lemma In_firstn {A} (n : nat) (y : A) (l : list A) : In y (firstn n l) -> In y l.
Proof.
  revert l. induction n as [|n IH]; intros l; [intros []|].
  destruct l as [|x l]; cbn [firstn]; [trivial|].
  intros [<-|H]; [now left|right; now apply IH].
Qed.

(** A comparison on [dueDate] selects no document without the field. *)
Lemma matchDoc_undated (q : Query) (m : option (string -> bool)) (t : Task) :
  dueDate t = None -> q_dueLte q <> None \/ q_dueGte q <> None ->
  matchDoc q m t = false.
Proof.
  intros Hd Hq. unfold matchDoc, dueCmp. rewrite Hd.
  destruct Hq as [Hq|Hq].
  - destruct (q_dueLte q) as [[v|]|]; [| |congruence];
      now rewrite andb_false_r, andb_false_l.
  - destruct (q_dueGte q) as [[v|]|]; [| |congruence];
      now rewrite andb_false_r.
Qed.

Section DateFilters.

Context {P : Platform}.

Lemma buildQuery_dated (uid : ObjectId) (p : ListParams) :
  given (p_dueBefore p) <> None \/ given (p_dueAfter p) <> None ->
  q_dueLte (buildQuery uid p) <> None \/ q_dueGte (buildQuery uid p) <> None.
Proof.
  unfold buildQuery; cbn [q_dueLte q_dueGte].
  intros [H|H]; [left|right]; destruct (given _); cbn; congruence.
Qed.

Lemma selectDocs_skip (q : Query) (t : Task) (l1 l2 : list Task) :
  (forall m, matchDoc q m t = false) ->
  selectDocs q (l1 ++ t :: l2) = selectDocs q (l1 ++ l2).
Proof.
  intros Hno. unfold selectDocs.
  destruct (compileSearch q) as [m|]; [|reflexivity].
  destruct (castable q); [|reflexivity].
  rewrite !filter_app. cbn [filter]. now rewrite Hno.
Qed.

(** C10.  Let the request carry a [dueBefore] or a [dueAfter] value, and let
    [t] have no due date.  Then [t] fails the filter of the request; a store
    with [t] is answered exactly as the store without it, so [t] is neither
    among the items nor in the total, whether or not it satisfies the rest of
    the request; and on the client [filterTasks] treats [t] as it does
    without the two date filters, so there [t] passes them. *)
Theorem C10_date_filter_drops_undated (uid : ObjectId) (p : ListParams) (t : Task) :
  dueDate t = None ->
  given (p_dueBefore p) <> None \/ given (p_dueAfter p) <> None ->
  (forall m, matchDoc (buildQuery uid p) m t = false)
  /\ (forall l1 l2, getTasks uid p (l1 ++ t :: l2) = getTasks uid p (l1 ++ l2))
  /\ (forall db code r, getTasks uid p db = Ok code r -> ~ In t (l_data r))
  /\ taskUtils.keeps p t = taskUtils.keeps (withoutDates p) t
  /\ (forall tasks,
        In t (taskUtils.filterTasks tasks p)
        <-> In t (taskUtils.filterTasks tasks (withoutDates p))).
Proof.
  intros Hd Hp.
  assert (Hno : forall m, matchDoc (buildQuery uid p) m t = false).
  { intros m. apply matchDoc_undated; [assumption|now apply buildQuery_dated]. }
  assert (Hkeep : taskUtils.keeps p t = taskUtils.keeps (withoutDates p) t).
  { unfold taskUtils.keeps, taskUtils.dateRejects, withoutDates.
    cbn [p_status p_priority p_search p_tag p_dueBefore p_dueAfter].
    rewrite Hd. cbn [given].
    now destruct (given (p_dueBefore p)), (given (p_dueAfter p)). }
  split; [exact Hno|]. split; [|split; [|split; [exact Hkeep|]]].
  - intros l1 l2. unfold getTasks.
    destruct (parseList uid p) as [errs|d] eqn:Hparse; [reflexivity|].
    assert (Hq : d_query d = buildQuery uid p).
    { unfold parseList in Hparse. destruct (listErrors p); [|discriminate].
      now injection Hparse as <-. }
    unfold countDocuments, findPage.
    rewrite (selectDocs_skip (d_query d) t l1 l2); [reflexivity|].
    now rewrite Hq.
  - intros db code r. unfold getTasks.
    destruct (parseList uid p) as [errs|d] eqn:Hparse; [discriminate|].
    assert (Hq : d_query d = buildQuery uid p).
    { unfold parseList in Hparse. destruct (listErrors p); [|discriminate].
      now injection Hparse as <-. }
    unfold countDocuments, findPage, selectDocs.
    destruct (compileSearch (d_query d)) as [m|]; [|discriminate].
    destruct (castable (d_query d)); [|discriminate].
    intros E. injection E as _ <-. cbn [l_data]. intros Hin.
    apply In_firstn, In_skipn, In_sortDocs, In_scanOrder, filter_In in Hin as [_ Hm].
    rewrite Hq, Hno in Hm. discriminate.
  - intros tasks. unfold taskUtils.filterTasks. rewrite !filter_In.
    now rewrite Hkeep.
Qed.

End DateFilters.

Lemma C10_date_filter_drops_undated_witness :
  let t := Sample.task 4 7 "notes" Pending None [] None in
  let dated := mkListParams None None None None None None (Some "2030-01-01") None
                            None None in
  (exists r, getTasks (P := Sample.platform) 7 (withoutDates dated) [t] = Ok 200 r
             /\ l_total r = 1 /\ l_data r = [t])
  /\ (exists r, getTasks (P := Sample.platform) 7 dated [t] = Ok 200 r
                /\ l_total r = 0 /\ l_data r = [])
  /\ getTasks (P := Sample.platform) 7 dated [t]
     = getTasks (P := Sample.platform) 7 dated []
  /\ In t (taskUtils.filterTasks (P := Sample.platform) [t] dated).
Proof.
  intros t dated.
  destruct (C10_date_filter_drops_undated (P := Sample.platform) 7 dated t eq_refl)
    as (_ & Hsame & _ & _ & Hclient).
  - left. discriminate.
  - split; [eexists; repeat split|].
    split; [eexists; repeat split|].
    split; [exact (Hsame [] [])|].
    apply Hclient. now left.
Defined.

(* ================================================================== *)
(** * Further properties of the handlers *)

(* ------------------------------------------------------------------ *)
(** ** Creation *)

Lemma preSave_frame (m : bool) (now : Z) (t : Task) :
  _id (preSave m now t) = _id t
  /\ title (preSave m now t) = title t
  /\ description (preSave m now t) = description t
  /\ status (preSave m now t) = status t
  /\ priority (preSave m now t) = priority t
  /\ dueDate (preSave m now t) = dueDate t
  /\ tags (preSave m now t) = tags t
  /\ user (preSave m now t) = user t
  /\ createdAt (preSave m now t) = createdAt t
  /\ updatedAt (preSave m now t) = updatedAt t.
Proof.
  unfold preSave. destruct m; [|repeat split].
  destruct (_ && _); [repeat split|]. destruct (negb _); repeat split.
Qed.

Lemma tagErrorsFrom_nil (i : nat) (ts : list string) :
  tagErrorsFrom i ts = [] ->
  Forall (fun g => JS.isLength 1 (Some 20%nat) (JS.trim g) = true) ts.
Proof.
  revert i. induction ts as [|g ts IH]; intros i; [constructor|].
  cbn [tagErrorsFrom]. intros E. apply app_nil_both in E as [E1 E2].
  constructor; [|now apply (IH (S i))].
  now destruct (JS.isLength 1 (Some 20%nat) (JS.trim g)).
Qed.

Lemma isLength_bounds (lo hi : nat) (s : string) :
  JS.isLength lo (Some hi) s = true -> (lo <= String.length s <= hi)%nat.
Proof.
  unfold JS.isLength. intros E. apply andb_true_iff in E as [E1 E2].
  apply Nat.leb_le in E1, E2. lia.
Qed.

Section Creation.

Context {P : Platform}.

(** What the handler has established when it answers 201. *)
Lemma createTask_ok (clk : Clock) (newId uid : ObjectId) (b : TaskBody)
  (db : list Task) (code : Z) (doc : Task) (db' : list Task) :
  createTask clk newId uid b db = (Ok code doc, db') ->
  exists due,
    createErrors b = []
    /\ createDue (b_dueDate b) = inr due
    /\ dueDateValidator (clk 0%nat) due = true
    /\ code = 201
    /\ db' = (db ++ [doc])%list
    /\ doc = preSave (isSome (b_status b)) (clk 2%nat)
               (mkTask newId
                  (JS.trim (orElse (b_title b) ""))
                  (option_map JS.trim (b_description b))
                  (orElse (match b_status b with
                           | Some s => statusOfName s | None => None end) Pending)
                  (orElse (match b_priority b with
                           | Some s => priorityOfName s | None => None end) Medium)
                  due
                  (map JS.trim (orElse (b_tags b) []))
                  uid None (clk 1%nat) (clk 1%nat)).
Proof.
  unfold createTask.
  destruct (createErrors b); [|discriminate].
  destruct (createDue (b_dueDate b)) as [e|due]; [discriminate|].
  destruct (dueDateValidator (clk 0%nat) due) eqn:V; [|discriminate].
  intros E. injection E as <- <- <-. exists due. repeat split. exact V.
Qed.

(** Every answer other than 201 leaves the store as it was. *)
Lemma createTask_unchanged (clk : Clock) (newId uid : ObjectId) (b : TaskBody)
  (db : list Task) (r : Response Task) (db' : list Task) :
  createTask clk newId uid b db = (r, db') ->
  (forall code doc, r <> Ok code doc) -> db' = db.
Proof.
  unfold createTask.
  destruct (createErrors b); [|now intros E; injection E as <- <-].
  destruct (createDue (b_dueDate b)) as [e|due]; [now intros E; injection E as <- <-|].
  destruct (dueDateValidator (clk 0%nat) due); [|now intros E; injection E as <- <-].
  intros E Hno. injection E as <- <-. exfalso. eapply Hno. reflexivity.
Qed.

Lemma createTask_ok_ids (clk : Clock) (newId uid : ObjectId) (b : TaskBody)
  (db : list Task) (code : Z) (doc : Task) (db' : list Task) :
  createTask clk newId uid b db = (Ok code doc, db') ->
  db' = (db ++ [doc])%list /\ _id doc = newId /\ user doc = uid.
Proof.
  intros E.
  destruct (createTask_ok _ _ _ _ _ _ _ _ E) as (due & _ & _ & _ & _ & Hdb & Hdoc).
  split; [exact Hdb|]. rewrite Hdoc.
  match goal with
  | |- context [preSave ?m ?n ?t] =>
      destruct (preSave_frame m n t) as (F1 & _ & _ & _ & _ & _ & _ & F8 & _)
  end.
  split; [exact F1|exact F8].
Qed.

(** A created task belongs to the authenticated user and carries the
    identifier the store assigned; its status is [pending] and its priority
    [medium] unless the body names others; it has no tags unless the body
    lists some; its title is stored trimmed and has 1 to 100 characters, its
    description at most 500, each tag 1 to 20; both timestamps are the same
    instant; and the store grows by exactly this document, at its end. *)
Theorem create_stores_owned_task_with_defaults (clk : Clock) (newId uid : ObjectId)
  (b : TaskBody) (db : list Task) (code : Z) (doc : Task) (db' : list Task) :
  createTask clk newId uid b db = (Ok code doc, db') ->
  code = 201
  /\ db' = (db ++ [doc])%list
  /\ _id doc = newId /\ user doc = uid
  /\ (b_status b = None -> status doc = Pending)
  /\ (forall s, b_status b = Some s -> statusName (status doc) = s)
  /\ (b_priority b = None -> priority doc = Medium)
  /\ (forall s, b_priority b = Some s -> priorityName (priority doc) = s)
  /\ (b_tags b = None -> tags doc = [])
  /\ (exists s, b_title b = Some s /\ title doc = JS.trim s)
  /\ (1 <= String.length (title doc) <= 100)%nat
  /\ (forall d, description doc = Some d -> (String.length d <= 500)%nat)
  /\ Forall (fun g => (1 <= String.length g <= 20)%nat) (tags doc)
  /\ createdAt doc = updatedAt doc.
Proof.
  intros E.
  destruct (createTask_ok _ _ _ _ _ _ _ _ E) as (due & Herr & _ & _ & Hc & Hdb & Hdoc).
  destruct (preSave_frame (isSome (b_status b)) (clk 2%nat)
              (mkTask newId (JS.trim (orElse (b_title b) ""))
                 (option_map JS.trim (b_description b))
                 (orElse (match b_status b with
                          | Some s => statusOfName s | None => None end) Pending)
                 (orElse (match b_priority b with
                          | Some s => priorityOfName s | None => None end) Medium)
                 due (map JS.trim (orElse (b_tags b) []))
                 uid None (clk 1%nat) (clk 1%nat)))
    as (F1 & F2 & F3 & F4 & F5 & F6 & F7 & F8 & F9 & F10).
  rewrite <- Hdoc in *. cbn [_id title description status priority dueDate tags
                              user createdAt updatedAt] in *.
  unfold createErrors in Herr. rewrite !app_nil_both in Herr.
  destruct Herr as (Ht & Hd & Hs & Hp & _ & Htags).
  assert (Htitle : JS.isLength 1 (Some 100%nat) (JS.trim (orElse (b_title b) "")) = true)
    by (destruct (JS.isLength 1 (Some 100%nat) (JS.trim (orElse (b_title b) "")));
        [reflexivity|discriminate]).
  split; [exact Hc|]. split; [exact Hdb|]. split; [exact F1|]. split; [exact F8|].
  split; [intros Hn; now rewrite F4, Hn|].
  split.
  { intros s Hsome. rewrite F4, Hsome.
    destruct (statusOfName_isIn s (check_nil _ _ _ _ s Hs Hsome)) as (st & E1 & E2).
    now rewrite E1. }
  split; [intros Hn; now rewrite F5, Hn|].
  split.
  { intros s Hsome. rewrite F5, Hsome.
    destruct (priorityOfName_isIn s (check_nil _ _ _ _ s Hp Hsome)) as (pr & E1 & E2).
    now rewrite E1. }
  split; [intros Hn; now rewrite F7, Hn|].
  split.
  { destruct (b_title b) as [s|] eqn:Hb.
    - exists s. split; [reflexivity|exact F2].
    - discriminate Htitle. }
  split; [rewrite F2; now apply isLength_bounds|].
  split.
  { intros d Hdesc. rewrite F3 in Hdesc.
    destruct (b_description b) as [s|] eqn:Hb; [|discriminate].
    injection Hdesc as <-.
    pose proof (check_nil _ _ _ _ s Hd eq_refl) as Hlen.
    apply isLength_bounds in Hlen. lia. }
  split; [|now rewrite F9, F10].
  rewrite F7. destruct (b_tags b) as [l|]; [|constructor].
  cbn [orElse]. apply Forall_map. cbn [tagErrors] in Htags.
  apply tagErrorsFrom_nil in Htags.
  eapply Forall_impl; [|exact Htags]. intros g Hg.
  now apply isLength_bounds in Hg.
Qed.

(** The completion time of a created task: the hook's clock reading when
    the task is created as completed, and none otherwise, whatever the body
    says. *)
Theorem create_sets_completion_time (clk : Clock) (newId uid : ObjectId)
  (b : TaskBody) (db : list Task) (code : Z) (doc : Task) (db' : list Task) :
  createTask clk newId uid b db = (Ok code doc, db') ->
  completedAt doc = if Status_eqb (status doc) Completed then Some (clk 2%nat) else None.
Proof.
  intros E.
  destruct (createTask_ok _ _ _ _ _ _ _ _ E) as (due & _ & _ & _ & _ & _ & Hdoc).
  rewrite Hdoc. unfold preSave.
  destruct (b_status b) as [s|]; cbn [isSome orElse status completedAt].
  - destruct (Status_eqb (orElse (statusOfName s) Pending) Completed) eqn:Hs;
      cbn [andb negb isSome completedAt set_completedAt status]; now rewrite Hs.
  - reflexivity.
Qed.

(** A task is never created already due.  A due date that parses to an
    instant not after the validator's clock reading is refused, and every
    answer other than 201 leaves the store as it was; a task that is created
    has no due date or one strictly after that reading. *)
Theorem create_refuses_due_date_not_in_future (clk : Clock) (newId uid : ObjectId)
  (b : TaskBody) (db : list Task) :
  (forall s v, createErrors b = [] -> b_dueDate b = Some (JString s) ->
               s <> "" -> newDate s = Some v -> v <= clk 0%nat ->
               createTask clk newId uid b db
               = (Thrown (ValidationFailure [dueDateMessage]), db))
  /\ (forall code doc db',
         createTask clk newId uid b db = (Ok code doc, db') ->
         match dueDate doc with Some d => clk 0%nat < d | None => True end)
  /\ (forall r db',
         createTask clk newId uid b db = (r, db') ->
         (forall code doc, r <> Ok code doc) -> db' = db).
Proof.
  split; [|split].
  - intros s v Herr Hd Hs Hv Hle. unfold createTask, createDue.
    rewrite Herr, Hd.
    destruct s as [|c s]; [congruence|].
    cbn [JS.truthy]. rewrite Hv. unfold dueDateValidator.
    now apply Z.ltb_ge in Hle as ->.
  - intros code doc db' E.
    destruct (createTask_ok _ _ _ _ _ _ _ _ E) as (due & _ & _ & V & _ & _ & Hdoc).
    destruct (preSave_frame (isSome (b_status b)) (clk 2%nat)
                (mkTask newId (JS.trim (orElse (b_title b) ""))
                   (option_map JS.trim (b_description b))
                   (orElse (match b_status b with
                            | Some s => statusOfName s | None => None end) Pending)
                   (orElse (match b_priority b with
                            | Some s => priorityOfName s | None => None end) Medium)
                   due (map JS.trim (orElse (b_tags b) []))
                   uid None (clk 1%nat) (clk 1%nat)))
      as (_ & _ & _ & _ & _ & F6 & _).
    rewrite <- Hdoc in F6. rewrite F6. cbn [dueDate].
    destruct due as [d|]; [|exact I]. now apply Z.ltb_lt.
  - intros r db'. apply createTask_unchanged.
Qed.

End Creation.

Lemma create_stores_owned_task_with_defaults_witness :
  exists doc db',
    createTask (P := Sample.platform) (Sample.fixedClock Sample.nov2023) 9 7
      (mkTaskBody (Some "  plan the week ") None None None None None) []
    = (Ok 201 doc, db')
    /\ db' = [doc] /\ user doc = 7 /\ status doc = Pending /\ priority doc = Medium
    /\ tags doc = [].
Proof.
  do 2 eexists. split; [reflexivity|].
  destruct (create_stores_owned_task_with_defaults (P := Sample.platform)
              (Sample.fixedClock Sample.nov2023) 9 7
              (mkTaskBody (Some "  plan the week ") None None None None None) []
              _ _ _ eq_refl)
    as (_ & Hdb & _ & Hu & Hs & _ & Hp & _ & Ht & _).
  split; [exact Hdb|]. split; [exact Hu|]. split; [exact (Hs eq_refl)|].
  split; [exact (Hp eq_refl)|exact (Ht eq_refl)].
Defined.

Lemma create_sets_completion_time_witness :
  exists doc db',
    createTask (P := Sample.platform) (Sample.fixedClock Sample.nov2023) 9 7
      (mkTaskBody (Some "done already") None (Some "completed") None None None) []
    = (Ok 201 doc, db')
    /\ completedAt doc = Some Sample.nov2023.
Proof.
  do 2 eexists. split; [reflexivity|].
  exact (create_sets_completion_time (P := Sample.platform)
           (Sample.fixedClock Sample.nov2023) 9 7
           (mkTaskBody (Some "done already") None (Some "completed") None None None)
           [] _ _ _ eq_refl).
Defined.

(* ------------------------------------------------------------------ *)
(** ** Creation, lookup and deletion together *)

Lemma find_app_fresh {A} (f : A -> bool) (l : list A) (x : A) :
  (forall y, In y l -> f y = false) -> find f (l ++ [x]) = find f [x].
Proof.
  induction l as [|y l IH]; intros Hall; [reflexivity|].
  cbn [app find]. rewrite (Hall y) by now left.
  apply IH. intros z Hz. apply Hall. now right.
Qed.

Lemma find_app_other {A} (f : A -> bool) (l : list A) (x : A) :
  f x = false -> find f (l ++ [x]) = find f l.
Proof.
  intros Hx. induction l as [|y l IH]; cbn [app find]; [now rewrite Hx|].
  now destruct (f y).
Qed.

Lemma findByIdAndDelete_fresh (id : ObjectId) (l : list Task) (x : Task) :
  (forall y, In y l -> _id y <> id) -> _id x = id ->
  findByIdAndDelete id (l ++ [x]) = l.
Proof.
  intros Hall Hx. induction l as [|y l IH]; cbn [app findByIdAndDelete].
  - now rewrite Hx, Z.eqb_refl.
  - destruct (Z.eqb_spec (_id y) id) as [E|_]; [exfalso; apply (Hall y); [now left|exact E]|].
    f_equal. apply IH. intros z Hz. apply Hall. now right.
Qed.

Section CreateThenUse.

Context {P : Platform}.

(** A task created under a fresh identifier can be read back by its owner,
    and the owner reads exactly the document the creation answered; nobody
    else can read it; lookups of other identifiers answer as before; and
    deleting it again restores the store. *)
Theorem create_then_get_and_delete (clk : Clock) (newId uid : ObjectId)
  (b : TaskBody) (db : list Task) (code : Z) (doc : Task) (db' : list Task) :
  (forall x, In x db -> _id x <> newId) ->
  createTask clk newId uid b db = (Ok code doc, db') ->
  getTask uid newId db' = Ok 200 doc
  /\ (forall other, other <> uid -> getTask other newId db' = NotFound)
  /\ (forall who id, id <> newId -> getTask who id db' = getTask who id db)
  /\ deleteTask uid newId db' = (Ok 200 tt, db).
Proof.
  intros Hfresh E.
  destruct (createTask_ok_ids clk newId uid b db code doc db' E) as (-> & Hid & Hu).
  assert (Hget : findOne newId uid (db ++ [doc]) = Some doc).
  { unfold findOne. rewrite find_app_fresh.
    - cbn [find]. now rewrite Hid, Hu, !Z.eqb_refl.
    - intros y Hy. apply andb_false_iff. left. apply Z.eqb_neq. now apply Hfresh. }
  split; [unfold getTask; now rewrite Hget|].
  split.
  { intros other Hother. unfold getTask, findOne. rewrite find_app_fresh.
    - cbn [find]. rewrite Hid, Hu, Z.eqb_refl. cbn [andb].
      destruct (Z.eqb_spec uid other); [congruence|reflexivity].
    - intros y Hy. apply andb_false_iff. left. apply Z.eqb_neq. now apply Hfresh. }
  split.
  { intros who id Hne. unfold getTask, findOne. rewrite find_app_other; [reflexivity|].
    apply andb_false_iff. left. apply Z.eqb_neq. congruence. }
  unfold deleteTask. rewrite Hget. f_equal.
  now apply findByIdAndDelete_fresh.
Qed.

End CreateThenUse.

Lemma create_then_get_and_delete_witness :
  let mine := Sample.task 1 7 "report" Pending None [] None in
  exists doc db',
    createTask (P := Sample.platform) (Sample.fixedClock Sample.nov2023) 9 7
      (mkTaskBody (Some "plan") None None None None None) [mine]
    = (Ok 201 doc, db')
    /\ getTask 7 9 db' = Ok 200 doc
    /\ getTask 8 9 db' = NotFound
    /\ deleteTask 7 9 db' = (Ok 200 tt, [mine]).
Proof.
  intros mine. do 2 eexists. split; [reflexivity|].
  assert (Hfresh : forall x, In x [mine] -> _id x <> 9).
  { intros x [<-|[]]. cbn. lia. }
  destruct (create_then_get_and_delete (P := Sample.platform)
              (Sample.fixedClock Sample.nov2023) 9 7
              (mkTaskBody (Some "plan") None None None None None) [mine] 201 _ _
              Hfresh eq_refl)
    as (Hg & Ho & _ & Hd).
  split; [exact Hg|]. split; [apply Ho; lia|exact Hd].
Defined.

(* ------------------------------------------------------------------ *)
(** ** Deletion *)

Lemma filter_keeps_all {A} (g : A -> bool) (l : list A) :
  (forall x, In x l -> g x = true) -> filter g l = l.
Proof.
  induction l as [|x l IH]; intros Hall; [reflexivity|].
  cbn [filter]. rewrite (Hall x) by now left.
  f_equal. apply IH. intros y Hy. apply Hall. now right.
Qed.

(** With unique identifiers, deleting by identifier removes every document
    that carries it. *)
Lemma findByIdAndDelete_filter (id : ObjectId) (db : list Task) :
  NoDup (map _id db) ->
  findByIdAndDelete id db = filter (fun x => negb (_id x =? id)) db.
Proof.
  induction db as [|x db IH]; intros Hnd; [reflexivity|].
  cbn [map] in Hnd. inversion Hnd as [|? ? Hnot Hnd']; subst.
  cbn [findByIdAndDelete filter].
  destruct (Z.eqb_spec (_id x) id) as [E|Hne]; cbn [negb].
  - symmetry. apply filter_keeps_all. intros y Hy.
    apply negb_true_iff, Z.eqb_neq. intros Ey. apply Hnot.
    rewrite E, <- Ey. now apply in_map.
  - f_equal. now apply IH.
Qed.

Lemma length_findByIdAndDelete (id : ObjectId) (db : list Task) (t : Task) :
  findById id db = Some t ->
  S (List.length (findByIdAndDelete id db)) = List.length db.
Proof.
  unfold findById. induction db as [|x db IH]; cbn [find findByIdAndDelete];
    [discriminate|].
  destruct (_id x =? id); [reflexivity|].
  intros F. cbn [List.length]. now rewrite (IH F).
Qed.

Lemma find_filter_implied {A} (f g : A -> bool) (l : list A) :
  (forall x, f x = true -> g x = true) -> find f (filter g l) = find f l.
Proof.
  intros Himp. induction l as [|x l IH]; [reflexivity|].
  cbn [filter find]. destruct (g x) eqn:Hg; cbn [find].
  - now destruct (f x).
  - destruct (f x) eqn:Hf; [|exact IH].
    rewrite (Himp x Hf) in Hg. discriminate.
Qed.

(** When the owner deletes one of their tasks, the store loses exactly that
    document: afterwards nobody finds the identifier, every other identifier
    is found as before, and the store is one document shorter. *)
Theorem delete_removes_exactly_that_task (uid id : ObjectId) (db : list Task)
  (t : Task) :
  NoDup (map _id db) -> findById id db = Some t -> user t = uid ->
  exists db',
    deleteTask uid id db = (Ok 200 tt, db')
    /\ db' = filter (fun x => negb (_id x =? id)) db
    /\ (forall who, getTask who id db' = NotFound)
    /\ (forall who id', id' <> id -> getTask who id' db' = getTask who id' db)
    /\ S (List.length db') = List.length db.
Proof.
  intros Hnd F U. exists (findByIdAndDelete id db).
  split; [unfold deleteTask; now rewrite (findOne_of_findById _ _ _ _ F U)|].
  pose proof (length_findByIdAndDelete id db t F) as Hlen.
  rewrite (findByIdAndDelete_filter id db Hnd) in *.
  split; [reflexivity|]. split; [|split].
  - intros who. unfold getTask.
    rewrite findOne_absent; [reflexivity|].
    intros x Hx. apply filter_In in Hx as [_ Hx].
    now apply negb_true_iff, Z.eqb_neq in Hx.
  - intros who id' Hne. unfold getTask, findOne.
    rewrite find_filter_implied; [reflexivity|].
    intros x Hx. apply andb_true_iff in Hx as [Hx _]. apply Z.eqb_eq in Hx.
    apply negb_true_iff, Z.eqb_neq. congruence.
  - exact Hlen.
Qed.

Lemma delete_removes_exactly_that_task_witness :
  let a := Sample.task 1 7 "report" Pending None [] None in
  let b := Sample.task 2 7 "review" Pending None [] None in
  exists db',
    deleteTask 7 1 [a; b] = (Ok 200 tt, db')
    /\ db' = [b] /\ getTask 7 1 db' = NotFound /\ getTask 7 2 db' = Ok 200 b.
Proof.
  intros a b.
  destruct (delete_removes_exactly_that_task 7 1 [a; b] a) as (db' & Hd & Hf & Hn & Ho & _).
  - repeat constructor; cbn; intuition lia.
  - reflexivity.
  - reflexivity.
  - exists db'. split; [exact Hd|]. split; [exact Hf|].
    split; [apply Hn|]. rewrite Ho by lia. reflexivity.
Defined.

(* ------------------------------------------------------------------ *)
(** ** What every mutation keeps *)

Lemma map_id_updateFirst (id : ObjectId) (f : Task -> Task) (db : list Task) :
  (forall x, _id (f x) = _id x) ->
  map _id (updateFirst id f db) = map _id db.
Proof.
  intros Hid. induction db as [|x db IH]; [reflexivity|].
  cbn [updateFirst]. destruct (_id x =? id); cbn [map]; [now rewrite Hid|now rewrite IH].
Qed.

Lemma NoDup_findByIdAndDelete (id : ObjectId) (db : list Task) :
  NoDup (map _id db) -> NoDup (map _id (findByIdAndDelete id db)).
Proof.
  induction db as [|x db IH]; intros Hnd; [constructor|].
  cbn [map] in Hnd. inversion Hnd as [|? ? Hnot Hnd']; subst.
  cbn [findByIdAndDelete]. destruct (_id x =? id); [assumption|].
  cbn [map]. constructor; [|now apply IH].
  intros Hin. apply Hnot. apply in_map_iff in Hin as (y & Ey & Hy).
  apply in_map_iff. exists y. split; [assumption|].
  clear - Hy. induction db as [|z db IH]; [contradiction|].
  cbn [findByIdAndDelete] in Hy. destruct (_id z =? id); [now right|].
  destruct Hy as [<-|Hy]; [now left|right; now apply IH].
Qed.

(** The store an update leaves behind. *)
Lemma updateTask_store {P : Platform} (clk : Clock) (uid id : ObjectId)
  (b : TaskBody) (db : list Task) :
  (snd (updateTask clk uid id b db) = db
   /\ forall code data, fst (updateTask clk uid id b db) <> Ok code data)
  \/ (exists t0,
         findOne id uid db = Some t0
         /\ updateTask clk uid id b db
            = (Ok 200 (findById id (updateFirst id (applyUpdate (buildUpdate b)
                                                                (clk 0%nat)) db)),
               updateFirst id (applyUpdate (buildUpdate b) (clk 0%nat)) db)).
Proof.
  unfold updateTask, findByIdAndUpdate.
  destruct (updateErrors b); [|left; split; [reflexivity|discriminate]].
  destruct (findOne id uid db) as [t0|]; [|left; split; [reflexivity|discriminate]].
  destruct (updateValidators (clk 1%nat) (buildUpdate b));
    [|left; split; [reflexivity|discriminate]].
  right. exists t0. split; reflexivity.
Qed.

Lemma filter_owner_updateFirst (a id : ObjectId) (f : Task -> Task)
  (db : list Task) :
  (forall x, In x db -> _id x = id -> user x <> a) ->
  (forall x, user (f x) = user x) ->
  filter (fun x => user x =? a) (updateFirst id f db)
  = filter (fun x => user x =? a) db.
Proof.
  intros Hown Hf. induction db as [|x db IH]; [reflexivity|].
  cbn [updateFirst]. destruct (Z.eqb_spec (_id x) id) as [E|Hne]; cbn [filter].
  - rewrite Hf. destruct (Z.eqb_spec (user x) a) as [Ea|_]; [|reflexivity].
    exfalso. apply (Hown x); [now left|exact E|exact Ea].
  - rewrite IH; [reflexivity|]. intros y Hy. apply Hown. now right.
Qed.

Lemma filter_owner_findByIdAndDelete (a id : ObjectId) (db : list Task) :
  (forall x, In x db -> _id x = id -> user x <> a) ->
  filter (fun x => user x =? a) (findByIdAndDelete id db)
  = filter (fun x => user x =? a) db.
Proof.
  intros Hown. induction db as [|x db IH]; [reflexivity|].
  cbn [findByIdAndDelete]. destruct (Z.eqb_spec (_id x) id) as [E|Hne]; cbn [filter].
  - destruct (Z.eqb_spec (user x) a) as [Ea|_]; [|reflexivity].
    exfalso. apply (Hown x); [now left|exact E|exact Ea].
  - rewrite IH; [reflexivity|]. intros y Hy. apply Hown. now right.
Qed.

Lemma findOne_owner (id uid : ObjectId) (db : list Task) (t0 : Task) (a : ObjectId) :
  NoDup (map _id db) -> findOne id uid db = Some t0 -> a <> uid ->
  forall x, In x db -> _id x = id -> user x <> a.
Proof.
  intros Hnd F Ha x Hx Hid. unfold findOne in F.
  apply find_some in F as [Hin Hm]. apply andb_true_iff in Hm as [H1 H2].
  apply Z.eqb_eq in H1, H2.
  rewrite (unique_id db x t0 Hnd Hx Hin) by congruence. congruence.
Qed.

Section Mutations.

Context {P : Platform}.

(** Identifiers stay unique.  An update keeps the sequence of identifiers
    as it is, a deletion only removes one, and a creation under a fresh
    identifier adds that one. *)
Theorem mutations_keep_identifiers_unique (clk : Clock) (newId uid id : ObjectId)
  (b : TaskBody) (db : list Task) :
  NoDup (map _id db) ->
  ((forall x, In x db -> _id x <> newId) ->
   NoDup (map _id (snd (createTask clk newId uid b db))))
  /\ map _id (snd (updateTask clk uid id b db)) = map _id db
  /\ NoDup (map _id (snd (deleteTask uid id db))).
Proof.
  intros Hnd. split; [|split].
  - intros Hfresh.
    destruct (createTask clk newId uid b db) as [r db'] eqn:E. cbn [snd].
    destruct r as [code doc|errs| |e].
    + destruct (createTask_ok_ids _ _ _ _ _ _ _ _ E) as (-> & Hid & _).
      rewrite map_app. cbn [map]. rewrite Hid.
      apply NoDup_app; [assumption|repeat constructor; intros []|].
      intros i Hi [<-|[]]. apply in_map_iff in Hi as (x & Ex & Hx).
      now apply (Hfresh x).
    + rewrite (createTask_unchanged clk newId uid b db _ _ E); [assumption|discriminate].
    + rewrite (createTask_unchanged clk newId uid b db _ _ E); [assumption|discriminate].
    + rewrite (createTask_unchanged clk newId uid b db _ _ E); [assumption|discriminate].
  - destruct (updateTask_store clk uid id b db) as [[-> _]|(t0 & _ & ->)];
      [reflexivity|]. cbn [snd]. now apply map_id_updateFirst.
  - unfold deleteTask. destruct (findOne id uid db); cbn [snd]; [|assumption].
    now apply NoDup_findByIdAndDelete.
Qed.

(** No request touches the tasks of somebody else.  Whatever user [uid]
    creates, updates or deletes, the tasks of any other user [a] are in the
    store afterwards exactly as they were before. *)
Theorem mutations_leave_other_owners_alone (clk : Clock) (newId uid id a : ObjectId)
  (b : TaskBody) (db : list Task) :
  NoDup (map _id db) -> a <> uid ->
  filter (fun x => user x =? a) (snd (createTask clk newId uid b db))
  = filter (fun x => user x =? a) db
  /\ filter (fun x => user x =? a) (snd (updateTask clk uid id b db))
     = filter (fun x => user x =? a) db
  /\ filter (fun x => user x =? a) (snd (deleteTask uid id db))
     = filter (fun x => user x =? a) db.
Proof.
  intros Hnd Ha. split; [|split].
  - destruct (createTask clk newId uid b db) as [r db'] eqn:E. cbn [snd].
    destruct r as [code doc|errs| |e].
    + destruct (createTask_ok_ids _ _ _ _ _ _ _ _ E) as (-> & _ & Hu).
      rewrite filter_app. cbn [filter]. rewrite Hu.
      destruct (Z.eqb_spec uid a); [congruence|]. now rewrite app_nil_r.
    + now rewrite (createTask_unchanged clk newId uid b db _ _ E) by discriminate.
    + now rewrite (createTask_unchanged clk newId uid b db _ _ E) by discriminate.
    + now rewrite (createTask_unchanged clk newId uid b db _ _ E) by discriminate.
  - destruct (updateTask_store clk uid id b db) as [[-> _]|(t0 & F & ->)];
      [reflexivity|]. cbn [snd].
    apply filter_owner_updateFirst; [|reflexivity].
    now apply (findOne_owner id uid db t0 a).
  - unfold deleteTask. destruct (findOne id uid db) as [t0|] eqn:F; cbn [snd];
      [|reflexivity].
    apply filter_owner_findByIdAndDelete. now apply (findOne_owner id uid db t0 a).
Qed.

End Mutations.

Lemma mutations_keep_identifiers_unique_witness :
  let a := Sample.task 1 7 "report" Pending None [] None in
  let b := Sample.task 2 8 "review" Pending None [] None in
  let body := mkTaskBody (Some "plan") None (Some "completed") None None None in
  NoDup (map _id (snd (createTask (P := Sample.platform)
                         (Sample.fixedClock Sample.nov2023) 9 7 body [a; b])))
  /\ map _id (snd (updateTask (P := Sample.platform)
                     (Sample.fixedClock Sample.nov2023) 7 1 body [a; b])) = [1; 2]
  /\ NoDup (map _id (snd (deleteTask 7 1 [a; b]))).
Proof.
  intros a b body.
  assert (Hnd : NoDup (map _id [a; b])) by (repeat constructor; cbn; intuition lia).
  destruct (mutations_keep_identifiers_unique (P := Sample.platform)
              (Sample.fixedClock Sample.nov2023) 9 7 1 body [a; b] Hnd)
    as (Hc & Hu & Hd).
  split; [|split; [exact Hu|exact Hd]].
  apply Hc. intros x [<-|[<-|[]]]; cbn; lia.
Defined.

Lemma mutations_leave_other_owners_alone_witness :
  let a := Sample.task 1 7 "report" Pending None [] None in
  let b := Sample.task 2 8 "review" Pending None [] None in
  let body := mkTaskBody (Some "plan") None (Some "completed") None None None in
  filter (fun x => user x =? 8)
         (snd (updateTask (P := Sample.platform)
                 (Sample.fixedClock Sample.nov2023) 7 1 body [a; b])) = [b]
  /\ filter (fun x => user x =? 8) (snd (deleteTask 7 1 [a; b])) = [b].
Proof.
  intros a b body.
  assert (Hnd : NoDup (map _id [a; b])) by (repeat constructor; cbn; intuition lia).
  destruct (mutations_leave_other_owners_alone (P := Sample.platform)
              (Sample.fixedClock Sample.nov2023) 9 7 1 8 body [a; b] Hnd)
    as (_ & Hu & Hd); [lia|].
  split; [exact Hu|exact Hd].
Defined.

(* ------------------------------------------------------------------ *)
(** ** Repeating an update *)

Lemma applyUpdate_twice (u : UpdateData) (stamp : Z) (t : Task) :
  applyUpdate u stamp (applyUpdate u stamp t) = applyUpdate u stamp t.
Proof.
  unfold applyUpdate.
  cbn [_id title description status priority dueDate tags user completedAt createdAt].
  destruct u as [ut ud us up udue utags]; cbn [u_title u_description u_status
    u_priority u_dueDate u_tags].
  destruct ut, ud, us, up, udue, utags; reflexivity.
Qed.

Lemma updateFirst_twice (id : ObjectId) (f : Task -> Task) (db : list Task) :
  (forall x, _id (f x) = _id x) -> (forall x, f (f x) = f x) ->
  updateFirst id f (updateFirst id f db) = updateFirst id f db.
Proof.
  intros Hid Hff. induction db as [|x db IH]; [reflexivity|].
  cbn [updateFirst]. destruct (_id x =? id) eqn:E; cbn [updateFirst].
  - now rewrite Hid, E, Hff.
  - now rewrite E, IH.
Qed.

Lemma findOne_updateFirst (id uid id' : ObjectId) (f : Task -> Task)
  (db : list Task) (t0 : Task) :
  (forall x, _id (f x) = _id x) -> (forall x, user (f x) = user x) ->
  findOne id uid db = Some t0 ->
  exists t1, findOne id uid (updateFirst id' f db) = Some t1.
Proof.
  intros Hid Hu. unfold findOne.
  induction db as [|x db IH]; cbn [find updateFirst]; [discriminate|].
  destruct (_id x =? id') eqn:E'; cbn [find].
  - rewrite Hid, Hu. destruct ((_id x =? id) && (user x =? uid)).
    + intros _. now eexists.
    + intros F. now exists t0.
  - destruct ((_id x =? id) && (user x =? uid)); [intros _; now eexists|exact IH].
Qed.

Section RepeatedUpdate.

Context {P : Platform}.

(** Sending an accepted update a second time, at the same clock readings,
    is answered as the first time and leaves the store as the first update
    left it. *)
Theorem update_twice_is_update_once (clk : Clock) (uid id : ObjectId)
  (b : TaskBody) (db : list Task) (code : Z) (data : option Task)
  (db' : list Task) :
  updateTask clk uid id b db = (Ok code data, db') ->
  updateTask clk uid id b db' = (Ok code data, db').
Proof.
  intros E.
  destruct (updateTask_store clk uid id b db) as [[_ Hno]|(t0 & F & E')].
  - exfalso. rewrite E in Hno. now apply (Hno code data).
  - rewrite E' in E. injection E as <- <- <-.
    unfold updateTask, findByIdAndUpdate in *.
    destruct (updateErrors b); [|discriminate].
    rewrite F in E'.
    destruct (updateValidators (clk 1%nat) (buildUpdate b)); [|discriminate].
    destruct (findOne_updateFirst id uid id (applyUpdate (buildUpdate b) (clk 0%nat))
                db t0 (fun x => eq_refl) (fun x => eq_refl) F) as [t1 ->].
    rewrite updateFirst_twice; [reflexivity|reflexivity|].
    intros x. apply applyUpdate_twice.
Qed.

End RepeatedUpdate.

Lemma update_twice_is_update_once_witness :
  let a := Sample.task 1 7 "report" Pending None [] None in
  let body := mkTaskBody (Some " weekly report ") None (Some "in-progress") None None
                         (Some ["work "]) in
  exists data db',
    updateTask (P := Sample.platform) (Sample.fixedClock Sample.nov2023) 7 1 body [a]
    = (Ok 200 data, db')
    /\ updateTask (P := Sample.platform) (Sample.fixedClock Sample.nov2023) 7 1 body db'
       = (Ok 200 data, db').
Proof.
  intros a body. do 2 eexists. split; [reflexivity|].
  exact (update_twice_is_update_once (P := Sample.platform)
           (Sample.fixedClock Sample.nov2023) 7 1 body [a] 200 _ _ eq_refl).
Defined.

(* ------------------------------------------------------------------ *)
(** ** The list: owner, order and pages *)

Lemma filter_filter_implied {A} (f g : A -> bool) (l : list A) :
  (forall x, f x = true -> g x = true) -> filter f (filter g l) = filter f l.
Proof.
  intros Himp. induction l as [|x l IH]; [reflexivity|].
  cbn [filter]. destruct (g x) eqn:Hg; cbn [filter].
  - now rewrite IH.
  - destruct (f x) eqn:Hf; [|exact IH].
    rewrite (Himp x Hf) in Hg. discriminate.
Qed.

Lemma matchDoc_owner (q : Query) (m : option (string -> bool)) (t : Task) :
  matchDoc q m t = true -> (user t =? q_user q) = true.
Proof.
  unfold matchDoc. intros E. repeat (apply andb_true_iff in E as [E _]). exact E.
Qed.

Lemma compareOpt_antisym (a b : option Z) :
  compareOpt b a = CompOpp (compareOpt a b).
Proof. destruct a, b; cbn; try reflexivity. apply Z.compare_antisym. Qed.

Lemma compareField_antisym (field : string) (a b : Task) :
  compareField field b a = CompOpp (compareField field a b).
Proof.
  unfold compareField.
  repeat match goal with
         | |- context [String.eqb field ?s] => destruct (String.eqb field s)
         end;
    try apply Z.compare_antisym; try apply compareOpt_antisym;
    try apply String.compare_antisym; reflexivity.
Qed.

Lemma inOrder_total (field : string) (order : Z) (a b : Task) :
  order <> 0 -> inOrder field order a b = false -> inOrder field order b a = true.
Proof.
  unfold inOrder. intros Ho. rewrite (compareField_antisym field a b).
  destruct (compareField field a b); cbn [CompOpp]; try discriminate;
    intros E; [apply Z.ltb_ge in E|apply Z.ltb_ge in E]; apply Z.ltb_lt; lia.
Qed.

Section SortedLists.

Variable R : Task -> Task -> Prop.
Variable le : Task -> Task -> bool.
Hypothesis le_R : forall a b, le a b = true -> R a b.
Hypothesis le_total : forall a b, le a b = false -> R b a.

Lemma HdRel_insertDoc (y x : Task) (l : list Task) :
  R y x -> HdRel R y l -> HdRel R y (insertDoc le x l).
Proof.
  intros Hyx Hl. destruct l as [|z l]; cbn [insertDoc]; [now constructor|].
  destruct (le x z); constructor; [assumption|].
  now inversion Hl.
Qed.

Lemma Sorted_insertDoc (x : Task) (l : list Task) :
  Sorted R l -> Sorted R (insertDoc le x l).
Proof.
  induction l as [|y l IH]; intros Hs; cbn [insertDoc].
  - repeat constructor.
  - destruct (le x y) eqn:E.
    + constructor; [assumption|]. constructor. now apply le_R.
    + apply Sorted_inv in Hs as [Hs Hhd]. constructor; [now apply IH|].
      apply HdRel_insertDoc; [now apply le_total|assumption].
Qed.

Lemma Sorted_skipn (n : nat) (l : list Task) : Sorted R l -> Sorted R (skipn n l).
Proof.
  revert l. induction n as [|n IH]; intros l Hs; [assumption|].
  destruct l as [|x l]; [constructor|]. cbn [skipn].
  apply IH. now apply Sorted_inv in Hs.
Qed.

Lemma Sorted_firstn (n : nat) (l : list Task) : Sorted R l -> Sorted R (firstn n l).
Proof.
  revert l. induction n as [|n IH]; intros l Hs; [constructor|].
  destruct l as [|x l]; [constructor|]. cbn [firstn].
  apply Sorted_inv in Hs as [Hs Hhd]. constructor; [now apply IH|].
  destruct l as [|y l]; [rewrite firstn_nil; constructor|].
  destruct n; cbn [firstn]; constructor. now inversion Hhd.
Qed.

End SortedLists.

Lemma Sorted_sortDocs (field : string) (order : Z) (l : list Task) :
  order <> 0 ->
  Sorted (fun a b => inOrder field order a b = true) (sortDocs field order l).
Proof.
  intros Ho. unfold sortDocs. induction l as [|x l IH]; [constructor|].
  cbn [fold_right]. apply Sorted_insertDoc; [trivial| |assumption].
  intros a b. now apply inOrder_total.
Qed.

Lemma Permutation_insertDoc (le : Task -> Task -> bool) (x : Task) (l : list Task) :
  Permutation (insertDoc le x l) (x :: l).
Proof.
  induction l as [|y l IH]; cbn [insertDoc]; [reflexivity|].
  destruct (le x y); [reflexivity|].
  rewrite IH. apply perm_swap.
Qed.

Lemma Permutation_sortDocs (field : string) (order : Z) (l : list Task) :
  Permutation (sortDocs field order l) l.
Proof.
  unfold sortDocs. induction l as [|x l IH]; [reflexivity|].
  cbn [fold_right]. rewrite Permutation_insertDoc. now constructor.
Qed.

Section ListAnswers.

Context {P : Platform}.

(** What the handler has established when it answers with data. *)
Lemma getTasks_ok (uid : ObjectId) (p : ListParams) (db : list Task)
  (code : Z) (r : ListData) :
  getTasks uid p db = Ok code r ->
  exists d m,
    parseList uid p = inr d
    /\ listErrors p = []
    /\ compileSearch (d_query d) = Some m
    /\ castable (d_query d) = true
    /\ code = 200
    /\ l_total r = Z.of_nat (List.length (filter (matchDoc (d_query d) m) db))
    /\ l_count r = Z.of_nat (List.length (l_data r))
    /\ l_next r = (if d_startIndex d + d_limit d <? l_total r
                   then Some (mkPageRef (d_page d + 1) (d_limit d)) else None)
    /\ l_prev r = (if 0 <? d_startIndex d
                   then Some (mkPageRef (d_page d - 1) (d_limit d)) else None)
    /\ l_data r = firstn (Z.to_nat (d_limit d))
                    (skipn (Z.to_nat (d_startIndex d))
                       (sortDocs (d_sortBy d) (d_sortOrder d)
                          (scanOrder (tieRank (d_query d) (d_sortBy d) (d_sortOrder d)
                                              (d_limit d) (d_startIndex d))
                             (filter (matchDoc (d_query d) m) db)))).
Proof.
  unfold getTasks.
  destruct (parseList uid p) as [errs|d] eqn:Hparse; [discriminate|].
  assert (Herr : listErrors p = []).
  { unfold parseList in Hparse. now destruct (listErrors p). }
  unfold countDocuments, findPage, selectDocs.
  destruct (compileSearch (d_query d)) as [m|] eqn:Hm; [|discriminate].
  destruct (castable (d_query d)) eqn:Hc; [|discriminate].
  intros E. injection E as <- <-. exists d, m. repeat split; assumption.
Qed.

(** Only the requester's own tasks are listed, and the tasks of other users
    have no influence on the answer: it is the answer for the store reduced
    to the requester's tasks. *)
Theorem list_shows_only_own_tasks (uid : ObjectId) (p : ListParams) (db : list Task) :
  getTasks uid p db = getTasks uid p (filter (fun t => user t =? uid) db)
  /\ (forall code r, getTasks uid p db = Ok code r ->
                     Forall (fun t => user t = uid) (l_data r)).
Proof.
  split.
  - unfold getTasks.
    destruct (parseList uid p) as [errs|d] eqn:Hparse; [reflexivity|].
    assert (Hq : q_user (d_query d) = uid).
    { unfold parseList in Hparse. destruct (listErrors p); [|discriminate].
      now injection Hparse as <-. }
    unfold countDocuments, findPage, selectDocs.
    destruct (compileSearch (d_query d)) as [m|]; [|reflexivity].
    destruct (castable (d_query d)); [|reflexivity].
    rewrite filter_filter_implied; [reflexivity|].
    intros x Hx. apply matchDoc_owner in Hx. now rewrite Hq in Hx.
  - intros code r E.
    destruct (getTasks_ok uid p db code r E)
      as (d & m & Hparse & Herr & _ & _ & _ & _ & _ & _ & _ & Hdata).
    assert (Hq : q_user (d_query d) = uid).
    { unfold parseList in Hparse. rewrite Herr in Hparse. now injection Hparse as <-. }
    rewrite Hdata. apply Forall_forall. intros x Hx.
    apply In_firstn, In_skipn, In_sortDocs, In_scanOrder, filter_In in Hx as [_ Hx].
    apply matchDoc_owner, Z.eqb_eq in Hx. congruence.
Qed.

(** The items come in the requested order: going down the list, the sort
    field never decreases when [sortOrder] is [asc], and never increases
    otherwise; the field is [createdAt] unless [sortBy] names another. *)
Theorem list_items_are_in_order (uid : ObjectId) (p : ListParams) (db : list Task)
  (code : Z) (r : ListData) :
  getTasks uid p db = Ok code r ->
  let field := match p_sortBy p with Some f => f | None => "createdAt" end in
  let wrong := match p_sortOrder p with
               | Some o => if String.eqb o "asc" then Gt else Lt
               | None => Lt
               end in
  Sorted (fun a b => compareField field a b <> wrong) (l_data r).
Proof.
  intros E field wrong.
  destruct (getTasks_ok uid p db code r E)
    as (d & m & Hparse & Herr & _ & _ & _ & _ & _ & _ & _ & Hdata).
  destruct (parseList_accepts uid p Herr)
    as (d' & Hd' & _ & _ & _ & _ & _ & _ & _ & _ & Hs0 & Hs1 & _).
  rewrite Hparse in Hd'. injection Hd' as <-.
  assert (Hfield : d_sortBy d = field).
  { unfold field. destruct (p_sortBy p) as [f|]; [now apply Hs1|now apply Hs0]. }
  assert (Horder : d_sortOrder d = match wrong with Gt => 1 | _ => -1 end).
  { unfold parseList in Hparse. rewrite Herr in Hparse. injection Hparse as <-.
    cbn [d_sortOrder]. unfold wrong.
    destruct (p_sortOrder p) as [o|]; [|reflexivity]. now destruct (String.eqb o "asc"). }
  rewrite Hdata, Hfield, Horder.
  apply Sorted_firstn, Sorted_skipn.
  assert (Hrel : forall a b,
             inOrder field (match wrong with Gt => 1 | _ => -1 end) a b = true ->
             compareField field a b <> wrong).
  { intros a b. unfold inOrder.
    assert (Hw : wrong = Gt \/ wrong = Lt).
    { unfold wrong. destruct (p_sortOrder p) as [o|]; [|now right].
      destruct (String.eqb o "asc"); [now left|now right]. }
    destruct Hw as [-> | ->]; destruct (compareField field a b); cbn;
      congruence. }
  eapply Sorted_ind with (P := fun l => Sorted _ l);
    [constructor| |apply Sorted_sortDocs; destruct wrong; lia].
  intros a l _ IH Hhd. constructor; [exact IH|].
  destruct Hhd; constructor. now apply Hrel.
Qed.

End ListAnswers.

Lemma list_shows_only_own_tasks_witness :
  let mine := Sample.task 1 7 "report" Pending None [] None in
  let theirs := Sample.task 2 8 "review" Pending None [] None in
  getTasks (P := Sample.platform) 7 noParams [theirs; mine; theirs]
  = getTasks (P := Sample.platform) 7 noParams [mine]
  /\ exists r, getTasks (P := Sample.platform) 7 noParams [theirs; mine; theirs]
               = Ok 200 r
               /\ Forall (fun t => user t = 7) (l_data r).
Proof.
  intros mine theirs.
  destruct (list_shows_only_own_tasks (P := Sample.platform) 7 noParams
              [theirs; mine; theirs]) as [Hsame Hown].
  split; [exact Hsame|].
  eexists. split; [reflexivity|]. eapply Hown. reflexivity.
Defined.

Lemma list_items_are_in_order_witness :
  exists r,
    getTasks (P := Sample.platform) 7
      (mkListParams None None None None None None None None (Some "dueDate")
                    (Some "asc"))
      Sample.midnightTasks = Ok 200 r
    /\ Sorted (fun a b => compareField "dueDate" a b <> Gt) (l_data r).
Proof.
  eexists. split; [reflexivity|].
  exact (list_items_are_in_order (P := Sample.platform) 7
           (mkListParams None None None None None None None None (Some "dueDate")
                         (Some "asc"))
           Sample.midnightTasks 200 _ eq_refl).
Defined.

Lemma NoDup_firstn {A} (n : nat) (l : list A) : NoDup l -> NoDup (firstn n l).
Proof.
  intros H. rewrite <- (firstn_skipn n l) in H. now apply NoDup_app_remove_r in H.
Qed.

Lemma NoDup_skipn {A} (n : nat) (l : list A) : NoDup l -> NoDup (skipn n l).
Proof.
  intros H. rewrite <- (firstn_skipn n l) in H. now apply NoDup_app_remove_l in H.
Qed.

Lemma firstn_plus {A} (n m : nat) (l : list A) :
  firstn (n + m) l = (firstn n l ++ firstn m (skipn n l))%list.
Proof.
  revert l. induction n as [|n IH]; intros l; [reflexivity|].
  destruct l as [|x l]; cbn [Nat.add firstn skipn app].
  - now rewrite firstn_nil.
  - now rewrite IH.
Qed.

Lemma firstn_skipn_next {A} (n k : nat) (l : list A) :
  (firstn n (skipn k l) ++ firstn n (skipn (k + n) l))%list
  = firstn (n + n) (skipn k l).
Proof.
  rewrite firstn_plus, skipn_skipn. now rewrite (Nat.add_comm n k).
Qed.

Lemma NoDup_ids_filter (f : Task -> bool) (db : list Task) :
  NoDup (map _id db) -> NoDup (map _id (filter f db)).
Proof.
  induction db as [|x db IH]; intros Hnd; [constructor|].
  cbn [map] in Hnd. inversion Hnd as [|? ? Hnot Hnd']; subst.
  cbn [filter]. destruct (f x); [|now apply IH].
  cbn [map]. constructor; [|now apply IH].
  intros Hin. apply Hnot. apply in_map_iff in Hin as (y & Ey & Hy).
  apply in_map_iff. exists y. split; [assumption|].
  now apply filter_In in Hy as [Hy _].
Qed.

Lemma NoDup_ids_slice (n k : nat) (field : string) (order : Z) (l : list Task) :
  NoDup (map _id l) ->
  NoDup (map _id (firstn n (skipn k (sortDocs field order l)))).
Proof.
  intros Hnd. rewrite <- firstn_map, <- skipn_map.
  apply NoDup_firstn, NoDup_skipn.
  eapply Permutation_NoDup; [|exact Hnd].
  apply Permutation_map. symmetry. apply Permutation_sortDocs.
Qed.

Lemma Permutation_scanOrder (rank : Task -> Z) (l : list Task) :
  Permutation (scanOrder rank l) l.
Proof.
  unfold scanOrder. induction l as [|x l IH]; [reflexivity|].
  cbn [fold_right]. rewrite Permutation_insertDoc. now constructor.
Qed.

(** The orders of the sort keys are transitive. *)
Lemma compareOpt_trans (a b c : option Z) :
  compareOpt a b <> Gt -> compareOpt b c <> Gt -> compareOpt a c <> Gt.
Proof.
  destruct a, b, c; cbn [compareOpt]; try congruence. apply Z.le_trans.
Qed.

Lemma string_compare_trans (a b c : string) :
  String.compare a b <> Gt -> String.compare b c <> Gt -> String.compare a c <> Gt.
Proof.
  revert b c. induction a as [|x a IH]; intros [|y b] [|z c];
    cbn [String.compare]; try congruence.
  unfold Ascii.compare.
  destruct (N.compare_spec (N_of_ascii x) (N_of_ascii y)) as [E1|E1|E1];
    destruct (N.compare_spec (N_of_ascii y) (N_of_ascii z)) as [E2|E2|E2];
    destruct (N.compare_spec (N_of_ascii x) (N_of_ascii z)) as [E3|E3|E3];
    try congruence; try lia. apply IH.
Qed.

Lemma compareField_trans (field : string) (a b c : Task) :
  compareField field a b <> Gt -> compareField field b c <> Gt ->
  compareField field a c <> Gt.
Proof.
  unfold compareField.
  repeat match goal with
         | |- context [String.eqb field ?s] => destruct (String.eqb field s)
         end;
    try apply Z.le_trans; try apply compareOpt_trans;
    try apply string_compare_trans; congruence.
Qed.

Lemma inOrder_trans (field : string) (order : Z) (a b c : Task) :
  order <> 0 -> inOrder field order a b = true -> inOrder field order b c = true ->
  inOrder field order a c = true.
Proof.
  intros Ho. unfold inOrder.
  pose proof (compareField_trans field a b c) as Hup.
  pose proof (compareField_trans field c b a) as Hdown.
  rewrite (compareField_antisym field b c), (compareField_antisym field a b),
    (compareField_antisym field a c) in Hdown.
  destruct (Z.ltb_spec 0 order), (Z.ltb_spec order 0); try lia;
    destruct (compareField field a b), (compareField field b c),
      (compareField field a c); cbn [CompOpp] in *; intros; try reflexivity;
      try discriminate; exfalso; (apply Hup + apply Hdown); congruence.
Qed.

(** Two documents that may each stand before the other have equal keys. *)
Lemma inOrder_both (field : string) (order : Z) (a b : Task) :
  order <> 0 -> inOrder field order a b = true -> inOrder field order b a = true ->
  compareField field a b = Eq.
Proof.
  intros Ho. unfold inOrder. rewrite (compareField_antisym field a b).
  destruct (compareField field a b); cbn [CompOpp]; [reflexivity| |];
    destruct (Z.ltb_spec 0 order), (Z.ltb_spec order 0); try lia; discriminate.
Qed.

(** A list has one sorted arrangement at most, as long as no two of its
    members are interchangeable. *)
Lemma sorted_arrangement_unique (R : Task -> Task -> Prop) (l1 l2 : list Task) :
  (forall a b c, R a b -> R b c -> R a c) ->
  (forall a b, In a l1 -> In b l1 -> R a b -> R b a -> a = b) ->
  Sorted R l1 -> Sorted R l2 -> Permutation l1 l2 -> l1 = l2.
Proof.
  intros Htrans Hanti S1 S2.
  apply Sorted_StronglySorted in S1; [|exact Htrans].
  apply Sorted_StronglySorted in S2; [|exact Htrans].
  revert l2 S2 Hanti. induction S1 as [|a l1 S1 IH Ha]; intros l2 S2 Hanti Hperm.
  - now apply Permutation_nil in Hperm.
  - destruct l2 as [|b l2]; [now apply Permutation_sym, Permutation_nil_cons in Hperm|].
    apply StronglySorted_inv in S2 as [S2 Hb].
    rewrite Forall_forall in Ha, Hb.
    assert (Hab : a = b).
    { assert (Ia : In a (b :: l2)) by (apply (Permutation_in a Hperm); now left).
      assert (Ib : In b (a :: l1))
        by (apply (Permutation_in b (Permutation_sym Hperm)); now left).
      destruct Ia as [->|Ia]; [reflexivity|].
      destruct Ib as [->|Ib]; [reflexivity|].
      apply Hanti; [now left|now right|now apply Ha|now apply Hb]. }
    subst b. f_equal. apply IH; [exact S2| |now apply Permutation_cons_inv in Hperm].
    intros x y Hx Hy. apply Hanti; now right.
Qed.

(** Where no two documents have the same key, the sort gives the same list
    in whatever order the engine supplies them. *)
Lemma sortDocs_arranged (field : string) (order : Z) (l l' : list Task) :
  order <> 0 -> Permutation l' l ->
  (forall a b, In a l -> In b l -> compareField field a b = Eq -> a = b) ->
  sortDocs field order l' = sortDocs field order l.
Proof.
  intros Ho Hperm Hties.
  apply sorted_arrangement_unique
    with (R := fun a b => inOrder field order a b = true).
  - intros a b c. now apply inOrder_trans.
  - intros a b Ia Ib Hab Hba. apply Hties.
    + apply (Permutation_in a Hperm). now apply In_sortDocs in Ia.
    + apply (Permutation_in b Hperm). now apply In_sortDocs in Ib.
    + now apply inOrder_both with (order := order).
  - now apply Sorted_sortDocs.
  - now apply Sorted_sortDocs.
  - rewrite !Permutation_sortDocs. exact Hperm.
Qed.

Section Pages.

Context {P : Platform}.

(** The parts of the descriptor that do not depend on the page. *)
Lemma parseList_parts (uid : ObjectId) (p : ListParams) (d : Descriptor) :
  parseList uid p = inr d ->
  d_query d = buildQuery uid p /\ q_user (d_query d) = uid /\ d_sortOrder d <> 0
  /\ d_limit d = JS.parseIntOr (p_limit p) 10
  /\ d_sortBy d = orElse (given (p_sortBy p)) "createdAt"
  /\ d_sortOrder d = match p_sortOrder p with
                     | Some o => if String.eqb o "asc" then 1 else -1
                     | None => -1
                     end.
Proof.
  unfold parseList. destruct (listErrors p); [|discriminate].
  intros E. injection E as <-. cbn [d_query d_sortOrder d_limit d_sortBy].
  repeat split. destruct (p_sortOrder p) as [o|]; [destruct (String.eqb o "asc")|]; lia.
Qed.

(** The matches of a query whose keys are all different come in one order,
    whatever the engine does. *)
Lemma findPage_without_ties (uid : ObjectId) (q : Query) (m : option (string -> bool))
  (field : string) (order : Z) (rank : Task -> Z) (db : list Task) :
  q_user q = uid -> order <> 0 ->
  (forall a b, In a db -> In b db -> user a = uid -> user b = uid ->
               compareField field a b = Eq -> a = b) ->
  sortDocs field order (scanOrder rank (filter (matchDoc q m) db))
  = sortDocs field order (filter (matchDoc q m) db).
Proof.
  intros Hu Ho Hties. apply sortDocs_arranged; [exact Ho|apply Permutation_scanOrder|].
  intros a b Ia Ib. apply filter_In in Ia as [Ia Ma], Ib as [Ib Mb].
  apply matchDoc_owner, Z.eqb_eq in Ma, Mb. apply Hties; congruence.
Qed.

(** The pagination links.  [prev] is present exactly from page 2 on, and
    points to the page before; [next] is present exactly when matching tasks
    remain beyond the items of this page, and points to the page after.  The
    page numbers are those the handler computes as long as [page * limit] is
    a safe integer. *)
Theorem list_pagination_links (uid : ObjectId) (p : ListParams) (db : list Task)
  (code : Z) (r : ListData) (d : Descriptor) :
  getTasks uid p db = Ok code r ->
  parseList uid p = inr d ->
  d_page d * d_limit d <= JS.maxSafe ->
  (l_prev r = None <-> d_page d = 1)
  /\ (forall q, l_prev r = Some q -> q = mkPageRef (d_page d - 1) (d_limit d))
  /\ (l_next r = None <-> l_total r <= (d_page d - 1) * d_limit d + l_count r)
  /\ (l_next r = None <-> l_total r <= d_page d * d_limit d)
  /\ (forall q, l_next r = Some q -> q = mkPageRef (d_page d + 1) (d_limit d)).
Proof.
  intros E Hparse0 _.
  destruct (getTasks_ok uid p db code r E)
    as (d0 & m & Hparse & Herr & _ & _ & _ & Ht & Hc & Hn & Hp & Hdata).
  rewrite Hparse0 in Hparse. injection Hparse as <-.
  destruct (parseList_accepts uid p Herr) as (d' & Hd' & _ & Hstart & Hpage & Hlimit & _).
  rewrite Hparse0 in Hd'. injection Hd' as <-.
  assert (Hcount : l_count r
                   = Z.max 0 (Z.min (d_limit d) (l_total r - d_startIndex d))).
  { assert (0 <= d_startIndex d) by nia.
    rewrite Hc, Hdata, length_firstn, length_skipn, length_sortDocs, length_scanOrder,
      Ht. lia. }
  rewrite Hn, Hp, Hstart in *. clear Hn Hp.
  split; [|split; [|split; [|split]]].
  - destruct (Z.ltb_spec 0 ((d_page d - 1) * d_limit d)); split;
      try discriminate; try reflexivity; nia.
  - intros q. destruct (0 <? _); [now intros [= <-]|discriminate].
  - destruct (Z.ltb_spec ((d_page d - 1) * d_limit d + d_limit d) (l_total r));
      split; try discriminate; try reflexivity; lia.
  - destruct (Z.ltb_spec ((d_page d - 1) * d_limit d + d_limit d) (l_total r));
      split; try discriminate; try reflexivity; lia.
  - intros q. destruct (_ <? _); [now intros [= <-]|discriminate].
Qed.

(** Consecutive pages tile the matches, when no two tasks of the requester
    have the same sort key.  Two requests that differ in [page] alone, the
    second asking for the page after the first, are then answered from one
    and the same list, the matches in the order of the key: the first gets a
    stretch of [limit] items of it and the second the stretch that follows,
    so that together they are one stretch of twice the length; with unique
    identifiers no task is on both pages. *)
Theorem list_consecutive_pages (uid : ObjectId) (p : ListParams) (next : option string)
  (db : list Task) (c1 c2 : Z) (r1 r2 : ListData) (d1 d2 : Descriptor) :
  getTasks uid p db = Ok c1 r1 ->
  getTasks uid (withPage next p) db = Ok c2 r2 ->
  parseList uid p = inr d1 ->
  parseList uid (withPage next p) = inr d2 ->
  d_page d2 = d_page d1 + 1 ->
  d_page d2 * d_limit d2 <= JS.maxSafe ->
  (forall a b, In a db -> In b db -> user a = uid -> user b = uid ->
               compareField (d_sortBy d1) a b = Eq -> a = b) ->
  exists m all,
    compileSearch (d_query d1) = Some m
    /\ all = sortDocs (d_sortBy d1) (d_sortOrder d1)
               (filter (matchDoc (d_query d1) m) db)
    /\ l_total r1 = Z.of_nat (List.length all) /\ l_total r2 = l_total r1
    /\ l_data r1 = firstn (Z.to_nat (d_limit d1)) (skipn (Z.to_nat (d_startIndex d1)) all)
    /\ (l_data r1 ++ l_data r2)%list
       = firstn (Z.to_nat (2 * d_limit d1)) (skipn (Z.to_nat (d_startIndex d1)) all)
    /\ (NoDup (map _id db) -> NoDup (map _id (l_data r1 ++ l_data r2))).
Proof.
  intros E1 E2 P1 P2 Hnext _ Hties.
  destruct (getTasks_ok uid p db c1 r1 E1)
    as (d & m & Hparse & Herr & Hm & _ & _ & Ht & _ & _ & _ & Hdata).
  rewrite P1 in Hparse. injection Hparse as <-.
  destruct (getTasks_ok uid (withPage next p) db c2 r2 E2)
    as (d & m' & Hparse & Herr' & Hm' & _ & _ & Ht' & _ & _ & _ & Hdata').
  rewrite P2 in Hparse. injection Hparse as <-.
  destruct (parseList_accepts uid p Herr) as (d & Hd & _ & Hs1 & Hp1 & Hl1 & _).
  rewrite P1 in Hd. injection Hd as <-.
  destruct (parseList_accepts uid (withPage next p) Herr')
    as (d & Hd & _ & Hs2 & Hp2 & Hl2 & _).
  rewrite P2 in Hd. injection Hd as <-.
  destruct (parseList_parts uid p d1 P1) as (Hq1 & Hu & Ho & Hl1' & Hsb1 & Hso1).
  destruct (parseList_parts uid _ d2 P2) as (Hq2 & _ & _ & Hl2' & Hsb2 & Hso2).
  assert (Hsame : d_query d2 = d_query d1 /\ d_limit d2 = d_limit d1
                  /\ d_sortBy d2 = d_sortBy d1 /\ d_sortOrder d2 = d_sortOrder d1).
  { rewrite Hq1, Hq2, Hl1', Hl2', Hsb1, Hsb2, Hso1, Hso2. repeat split. }
  destruct Hsame as (Hq & Hl & Hsb & Hso).
  rewrite Hq, Hl, Hsb, Hso in *. rewrite Hm in Hm'. injection Hm' as <-.
  rewrite (findPage_without_ties uid _ m _ _ _ db Hu Ho Hties) in Hdata.
  rewrite (findPage_without_ties uid _ m _ _ _ db Hu Ho Hties) in Hdata'.
  set (all := sortDocs (d_sortBy d1) (d_sortOrder d1)
                (filter (matchDoc (d_query d1) m) db)) in *.
  exists m, all. split; [exact Hm|]. split; [reflexivity|].
  assert (Hlen : List.length all = List.length (filter (matchDoc (d_query d1) m) db))
    by apply length_sortDocs.
  split; [now rewrite Hlen|]. split; [congruence|]. split; [exact Hdata|].
  assert (Hstart2 : Z.to_nat (d_startIndex d2)
                    = (Z.to_nat (d_startIndex d1) + Z.to_nat (d_limit d1))%nat).
  { rewrite Hs1, Hs2, Hnext. nia. }
  assert (Hcat : (l_data r1 ++ l_data r2)%list
                 = firstn (Z.to_nat (2 * d_limit d1))
                     (skipn (Z.to_nat (d_startIndex d1)) all)).
  { rewrite Hdata, Hdata', Hstart2, firstn_skipn_next. f_equal. lia. }
  split; [exact Hcat|].
  intros Hnd. rewrite Hcat. apply NoDup_ids_slice. now apply NoDup_ids_filter.
Qed.

End Pages.

Lemma list_pagination_links_witness :
  exists r,
    getTasks (P := Sample.platform) 7
      (mkListParams (Some "2") (Some "1") None None None None None None None None)
      Sample.midnightTasks = Ok 200 r
    /\ l_prev r = Some (mkPageRef 1 1) /\ l_next r = Some (mkPageRef 3 1).
Proof.
  eexists. split; [reflexivity|].
  assert (Hsafe : 2 * 1 <= JS.maxSafe) by (unfold JS.maxSafe; lia).
  destruct (list_pagination_links (P := Sample.platform) 7
              (mkListParams (Some "2") (Some "1") None None None None None None None None)
              Sample.midnightTasks 200 _ _ eq_refl eq_refl Hsafe)
    as (_ & _ & _ & _ & _).
  split; reflexivity.
Defined.

Lemma list_consecutive_pages_witness :
  let p := mkListParams (Some "1") (Some "1") None None None None None None
                        (Some "dueDate") (Some "asc") in
  exists r1 r2,
    getTasks (P := Sample.platform) 7 p Sample.midnightTasks = Ok 200 r1
    /\ getTasks (P := Sample.platform) 7 (withPage (Some "2") p) Sample.midnightTasks
       = Ok 200 r2
    /\ map _id (l_data r1 ++ l_data r2) = [1; 2]
    /\ NoDup (map _id (l_data r1 ++ l_data r2)).
Proof.
  intros p. do 2 eexists. split; [reflexivity|]. split; [reflexivity|].
  assert (Hsafe : 2 * 1 <= JS.maxSafe) by (unfold JS.maxSafe; lia).
  assert (Hties : forall a b, In a Sample.midnightTasks -> In b Sample.midnightTasks ->
                    user a = 7 -> user b = 7 ->
                    compareField "dueDate" a b = Eq -> a = b).
  { intros a b [<-|[<-|[<-|[]]]] [<-|[<-|[<-|[]]]] _ _ H;
      try reflexivity; discriminate H. }
  destruct (list_consecutive_pages (P := Sample.platform) 7 p (Some "2")
              Sample.midnightTasks 200 200 _ _ _ _ eq_refl eq_refl eq_refl eq_refl
              eq_refl Hsafe Hties)
    as (m & all & _ & _ & _ & _ & _ & _ & Hnd).
  split; [reflexivity|]. apply Hnd.
  repeat constructor; cbn; intuition lia.
Defined.

(** With tasks that agree on the sort key the pages need not tile the
    matches.  The three tasks below were created at the same instant and the
    list is sorted by creation time; an engine that returns equal keys in
    another order once it has to skip puts task 1 on both pages of two and
    task 3 on neither. *)
Example pages_with_equal_keys_can_overlap :
  let p := mkListParams (Some "1") (Some "2") None None None None None None None None in
  exists r1 r2,
    getTasks (P := Sample.shufflingPlatform) 7 p Sample.midnightTasks = Ok 200 r1
    /\ getTasks (P := Sample.shufflingPlatform) 7 (withPage (Some "2") p)
         Sample.midnightTasks = Ok 200 r2
    /\ map _id (l_data r1) = [1; 2] /\ map _id (l_data r2) = [1].
Proof.
  intros p. do 2 eexists. split; [reflexivity|]. split; [reflexivity|].
  split; reflexivity.
Qed.

(* ------------------------------------------------------------------ *)
(** ** The save hook *)

(** The hook is idempotent and never moves an existing completion time: a
    completed task that has one keeps it on every save, so the time recorded
    is that of the first save as completed; and without a modified status the
    hook changes nothing. *)
Theorem preSave_keeps_first_completion_time (m : bool) (now now' : Z) (t : Task) :
  preSave m now' (preSave m now t) = preSave m now t
  /\ (forall c, status t = Completed -> completedAt t = Some c ->
                preSave m now t = t)
  /\ preSave false now t = t
  /\ (status t <> Completed -> completedAt (preSave true now t) = None).
Proof.
  split; [|split; [|split]].
  - unfold preSave. destruct m; [|reflexivity].
    destruct (Status_eqb (status t) Completed) eqn:Hs.
    + destruct (completedAt t) eqn:Hc;
        cbn [andb negb isSome status completedAt set_completedAt];
        rewrite ?Hs, ?Hc; cbn [andb negb isSome]; now rewrite ?Hs.
    + cbn [andb negb status completedAt set_completedAt]. now rewrite Hs.
  - intros c Hs Hc. unfold preSave. destruct m; [|reflexivity].
    now rewrite Hs, Hc.
  - reflexivity.
  - intros Hs. unfold preSave.
    destruct (Status_eqb (status t) Completed) eqn:E.
    + apply Status_eqb_eq in E. contradiction.
    + reflexivity.
Qed.

(* ------------------------------------------------------------------ *)
(** ** Statistics: open tasks, other users, the client's view *)

Lemma statusOpen_iff (t : Task) :
  statusOpen t = Status_eqb (status t) Pending || Status_eqb (status t) InProgress.
Proof. unfold statusOpen. now destruct (status t). Qed.

Lemma countWhere_ext (f g : Task -> bool) (l : list Task) :
  (forall x, f x = g x) -> countWhere f l = countWhere g l.
Proof.
  intros E. induction l as [|x l IH]; [reflexivity|].
  now rewrite !countWhere_cons, E, IH.
Qed.

Lemma countWhere_filter (f g : Task -> bool) (l : list Task) :
  countWhere f (filter g l) = countWhere (fun x => g x && f x) l.
Proof.
  induction l as [|x l IH]; [reflexivity|].
  cbn [filter]. destruct (g x) eqn:Hg.
  - rewrite !countWhere_cons, Hg, IH. reflexivity.
  - rewrite countWhere_cons, Hg, IH. cbn [andb Z.b2z]. lia.
Qed.

Lemma countWhere_open (l : list Task) :
  countWhere statusOpen l = countStatus Pending l + countStatus InProgress l.
Proof.
  induction l as [|x l IH]; [reflexivity|].
  rewrite countWhere_cons, !countStatus_cons, IH, statusOpen_iff.
  destruct (status x); cbn [Status_eqb orb Z.b2z]; lia.
Qed.

Section StatisticsMore.

Context {P : Platform}.

(** Only open tasks can be overdue or due today: both counts are at most
    the number of pending plus in-progress tasks.  And the statistics of a
    user do not depend on the tasks of other users. *)
Theorem stats_count_open_tasks_of_owner (clk : Clock) (uid : ObjectId)
  (db : list Task) :
  exists st overdue dueToday,
    getStats clk uid db = Ok 200 (mkStatsData st overdue dueToday)
    /\ overdue <= pending st + in_progress st
    /\ dueToday <= pending st + in_progress st
    /\ getStats clk uid (filter (fun t => user t =? uid) db) = getStats clk uid db.
Proof.
  unfold getStats. do 3 eexists. split; [reflexivity|].
  rewrite getUserStats_buckets. cbn [pending in_progress].
  set (mine := filter (fun t => user t =? uid) db).
  rewrite <- countWhere_open. unfold mine. rewrite countWhere_filter.
  split; [|split].
  - apply countWhere_le. intros x. unfold overdueFilter. intros E.
    apply andb_true_iff in E as [E1 E3]. apply andb_true_iff in E1 as [E1 _].
    now rewrite E1, E3.
  - apply countWhere_le. intros x. unfold dueTodayFilter. intros E.
    apply andb_true_iff in E as [E1 E3]. apply andb_true_iff in E1 as [E1 _].
    now rewrite E1, E3.
  - f_equal. f_equal.
    + rewrite !getUserStats_buckets.
      rewrite (filter_filter_implied (fun t => user t =? uid)
                 (fun t => user t =? uid) db (fun x H => H)). reflexivity.
    + rewrite countWhere_filter. apply countWhere_ext. intros x.
      unfold overdueFilter. now destruct (user x =? uid).
    + rewrite countWhere_filter. apply countWhere_ext. intros x.
      unfold dueTodayFilter. now destruct (user x =? uid).
Qed.

End StatisticsMore.

(** The overdue count of the statistics is the number of the owner's tasks
    that the client marks overdue at the same instant.  The [isOverdue]
    field of a serialised task agrees with the client's mark except on
    cancelled tasks whose due date has passed, which only the field flags. *)
Theorem overdue_on_server_and_client (now : Z) (uid : ObjectId) (db : list Task)
  (t : Task) :
  overdueFilter uid now t = (user t =? uid) && taskUtils.isOverdue now t
  /\ countWhere (overdueFilter uid now) db
     = countWhere (taskUtils.isOverdue now) (filter (fun x => user x =? uid) db)
  /\ (j_isOverdue (toJSON now t) = Some true
      <-> taskUtils.isOverdue now t = true
          \/ (status t = Cancelled /\ exists d, dueDate t = Some d /\ d < now)).
Proof.
  assert (Hone : forall x,
             overdueFilter uid now x = (user x =? uid) && taskUtils.isOverdue now x).
  { intros x. unfold overdueFilter, taskUtils.isOverdue, dueIs, statusOpen.
    destruct (user x =? uid), (dueDate x) as [d|]; cbn [andb]; try reflexivity.
    destruct (Status_eqb (status x) Completed || Status_eqb (status x) Cancelled);
      cbn [negb]; [apply andb_false_r|apply andb_true_r]. }
  split; [apply Hone|]. split.
  - rewrite countWhere_filter. apply countWhere_ext. exact Hone.
  - rewrite virtual_isOverdue_true, client_isOverdue_true. split.
    + intros (d & Hd & Hlt & Hs).
      destruct (status t) eqn:Est; try congruence.
      * left. exists d. repeat split; congruence.
      * left. exists d. repeat split; congruence.
      * right. split; [reflexivity|]. now exists d.
    + intros [(d & Hd & Hlt & Hs & _)|(Hs & d & Hd & Hlt)]; exists d;
        repeat split; congruence.
Qed.

(* ------------------------------------------------------------------ *)
(** ** The client's filter and the server's *)

Section ClientAndServerFilter.

Context {P : Platform}.
Hypothesis literal : Regex.literalPatterns.


End ClientAndServerFilter.


(* ------------------------------------------------------------------ *)
(** ** Validation answers *)

Lemma In_check (e : FieldError) (name message : string) (ok : string -> bool)
  (v : option string) :
  In e (check name message ok v)
  <-> e = mkFieldError (PField name) message /\ turnedDown ok v.
Proof.
  unfold check, turnedDown. destruct v as [s|]; [destruct (ok s) eqn:E|]; cbn [In].
  - split; [intros []|]. intros (_ & s' & [= <-] & Hs). congruence.
  - split.
    + intros [<-|[]]. split; [reflexivity|]. now exists s.
    + intros [-> _]. now left.
  - split; [intros []|]. intros (_ & s' & Hs & _). discriminate.
Qed.

Lemma In_tagErrorsFrom (e : FieldError) (i : nat) (l : list string) :
  In e (tagErrorsFrom i l)
  <-> exists k g,
        e = mkFieldError (PIndex "tags" (i + k))
                         "Each tag must be between 1 and 20 characters"
        /\ nth_error l k = Some g
        /\ JS.isLength 1 (Some 20%nat) (JS.trim g) = false.
Proof.
  revert i. induction l as [|x l IH]; intros i; cbn [tagErrorsFrom].
  - split; [intros []|]. intros (k & g & _ & Hn & _). now destruct k.
  - rewrite in_app_iff, IH. split.
    + intros [Hx|(k & g & -> & Hn & Hg)].
      * destruct (JS.isLength 1 (Some 20%nat) (JS.trim x)) eqn:E; [destruct Hx|].
        destruct Hx as [<-|[]]. exists 0%nat, x.
        rewrite Nat.add_0_r. repeat split. exact E.
      * exists (S k), g. rewrite Nat.add_succ_r. repeat split; assumption.
    + intros (k & g & -> & Hn & Hg). destruct k as [|k]; cbn [nth_error] in Hn.
      * injection Hn as ->. left. rewrite Hg, Nat.add_0_r. now left.
      * right. exists k, g. rewrite Nat.add_succ_r. repeat split; assumption.
Qed.

Section ValidationAnswers.

Context {P : Platform}.

(** An update with an invalid body is answered 400 before any lookup, with
    the store untouched and with every violation listed, not just the first:
    the list has the message of a field exactly when that field is present
    and fails its check, and one message for each offending tag, under the
    index of the tag. *)
Theorem update_reports_every_invalid_field (clk : Clock) (uid id : ObjectId)
  (b : TaskBody) (db : list Task) :
  (updateErrors b <> [] ->
   updateTask clk uid id b db = (BadRequest (updateErrors b), db))
  /\ (In (mkFieldError (PField "title") "Title must be between 1 and 100 characters")
         (updateErrors b)
      <-> turnedDown (fun s => JS.isLength 1 (Some 100%nat) (JS.trim s)) (b_title b))
  /\ (In (mkFieldError (PField "description")
                       "Description must be less than 500 characters")
         (updateErrors b)
      <-> turnedDown (fun s => JS.isLength 0 (Some 500%nat) (JS.trim s))
                     (b_description b))
  /\ (In (mkFieldError (PField "status") "Invalid status") (updateErrors b)
      <-> turnedDown (JS.isIn statusNames) (b_status b))
  /\ (In (mkFieldError (PField "priority") "Invalid priority") (updateErrors b)
      <-> turnedDown (JS.isIn priorityNames) (b_priority b))
  /\ (In (mkFieldError (PField "dueDate") "Due date must be a valid date or null")
         (updateErrors b)
      <-> exists d, b_dueDate b = Some d /\ dueDateCustom d = false)
  /\ (forall i,
         In (mkFieldError (PIndex "tags" i)
                          "Each tag must be between 1 and 20 characters")
            (updateErrors b)
         <-> exists l g, b_tags b = Some l /\ nth_error l i = Some g
                         /\ JS.isLength 1 (Some 20%nat) (JS.trim g) = false).
Proof.
  assert (Hdue : forall e,
             In e (match b_dueDate b with
                   | Some d =>
                       if dueDateCustom d then []
                       else [mkFieldError (PField "dueDate")
                               "Due date must be a valid date or null"]
                   | None => []
                   end)
             <-> e = mkFieldError (PField "dueDate")
                                  "Due date must be a valid date or null"
                 /\ exists d, b_dueDate b = Some d /\ dueDateCustom d = false).
  { intros e. destruct (b_dueDate b) as [d|]; [destruct (dueDateCustom d) eqn:E|];
      cbn [In].
    - split; [intros []|]. intros (_ & d' & [= <-] & Hd). congruence.
    - split.
      + intros [<-|[]]. split; [reflexivity|]. now exists d.
      + intros [-> _]. now left.
    - split; [intros []|]. intros (_ & d' & Hd & _). discriminate. }
  assert (Htags : forall e,
             In e (tagErrors (b_tags b))
             <-> exists l k g,
                   b_tags b = Some l
                   /\ e = mkFieldError (PIndex "tags" k)
                                       "Each tag must be between 1 and 20 characters"
                   /\ nth_error l k = Some g
                   /\ JS.isLength 1 (Some 20%nat) (JS.trim g) = false).
  { intros e. unfold tagErrors. destruct (b_tags b) as [l|].
    - rewrite In_tagErrorsFrom. split.
      + intros (k & g & He & Hn & Hg). now exists l, k, g.
      + intros (l' & k & g & [= <-] & He & Hn & Hg). now exists k, g.
    - split; [intros []|]. intros (l & k & g & Hl & _). discriminate. }
  split.
  { intros Hne. unfold updateTask. destruct (updateErrors b); [congruence|reflexivity]. }
  unfold updateErrors.
  repeat split;
    try (intros Hin; rewrite !in_app_iff, !In_check, Hdue, Htags in Hin;
         destruct Hin as [[E H]|[[E H]|[[E H]|[[E H]|[[E H]|(l & k & g & Hl & E & H)]]]]];
         try discriminate E; try exact H;
         injection E as <-; now exists l, g);
    try (intros H; rewrite !in_app_iff, !In_check, Hdue, Htags; tauto).
  intros (l & g & Hl & Hn & Hg). rewrite !in_app_iff, !In_check, Hdue, Htags.
  do 5 right. now exists l, i, g.
Qed.

Lemma ltrim_blank (s : string) : JS.isBlank s = true -> JS.ltrim s = "".
Proof.
  induction s as [|c s IH]; [reflexivity|].
  cbn [JS.isBlank JS.ltrim]. intros E. apply andb_true_iff in E as [-> E].
  now apply IH.
Qed.

(** A task cannot be created without a title, with a title of whitespace
    only, or with one of more than 100 characters once trimmed: the answer is
    400 with the title message, and nothing is stored. *)
Theorem create_requires_a_title (clk : Clock) (newId uid : ObjectId)
  (b : TaskBody) (db : list Task) :
  b_title b = None
  \/ (exists s, b_title b = Some s
                /\ (JS.isBlank s = true \/ (100 < String.length (JS.trim s))%nat)) ->
  exists errs,
    createTask clk newId uid b db = (BadRequest errs, db)
    /\ In (mkFieldError (PField "title")
                        "Title is required and must be less than 100 characters")
          errs.
Proof.
  intros Hbad.
  assert (Hlen : JS.isLength 1 (Some 100%nat) (JS.trim (orElse (b_title b) "")) = false).
  { destruct Hbad as [->|(s & -> & [Hblank|Hlong])]; cbn [orElse].
    - reflexivity.
    - unfold JS.trim. now rewrite (ltrim_blank s Hblank).
    - unfold JS.isLength. apply andb_false_iff. right. now apply Nat.leb_gt. }
  exists (createErrors b). unfold createTask.
  assert (Hin : In (mkFieldError (PField "title")
                      "Title is required and must be less than 100 characters")
                   (createErrors b)).
  { unfold createErrors. rewrite Hlen. now left. }
  split; [|exact Hin].
  destruct (createErrors b); [destruct Hin|reflexivity].
Qed.

End ValidationAnswers.

Lemma create_requires_a_title_witness :
  exists errs,
    createTask (P := Sample.platform) (Sample.fixedClock Sample.nov2023) 9 7
      (mkTaskBody (Some "   ") None None None None None) Sample.midnightTasks
    = (BadRequest errs, Sample.midnightTasks)
    /\ In (mkFieldError (PField "title")
                        "Title is required and must be less than 100 characters")
          errs.
Proof.
  apply (create_requires_a_title (P := Sample.platform)).
  right. exists "   ". split; [reflexivity|]. left. reflexivity.
Defined.

(** Characters beyond ASCII count once each, and the no-break space is
    white space: a title of 51 letters e with acute accent is accepted and
    stored with length 51, and a title that is one no-break space is turned
    down as empty. *)
Example titles_beyond_ascii :
  (exists doc db',
      createTask (P := Sample.platform) (Sample.fixedClock Sample.nov2023) 9 7
        (mkTaskBody (Some (Sample.repeated 51 Sample.eAcute)) None None None None None)
        [] = (Ok 201 doc, db')
      /\ String.length (title doc) = 51%nat)
  /\ JS.trim (String Sample.noBreakSpace "") = ""
  /\ exists errs,
       createTask (P := Sample.platform) (Sample.fixedClock Sample.nov2023) 9 7
         (mkTaskBody (Some (String Sample.noBreakSpace "")) None None None None None)
         [] = (BadRequest errs, []).
Proof.
  split; [do 2 eexists; split; reflexivity|].
  split; [reflexivity|]. eexists. reflexivity.
Qed.

(* ------------------------------------------------------------------ *)
(** ** Reading after writing *)

Lemma findOne_is_findById (id uid : ObjectId) (db : list Task) (t : Task) :
  NoDup (map _id db) -> findOne id uid db = Some t -> findById id db = Some t.
Proof.
  intros Hnd F. destruct (findOne_findById id uid db t F) as [t1 F1].
  rewrite F1. f_equal.
  unfold findOne, findById in *.
  apply find_some in F as [Hin Hm], F1 as [Hin1 Hm1].
  apply andb_true_iff in Hm as [Hm _]. apply Z.eqb_eq in Hm, Hm1.
  apply (unique_id db t1 t Hnd Hin1 Hin). congruence.
Qed.

Section ReadAfterWrite.

Context {P : Platform}.

(** What an accepted update answers is what the owner reads afterwards, and
    it is the task as it was with the fields of the body written over it;
    anybody else still finds nothing under that identifier. *)
Theorem update_then_get (clk : Clock) (uid id : ObjectId) (b : TaskBody)
  (db : list Task) (code : Z) (data : option Task) (db' : list Task) :
  NoDup (map _id db) ->
  updateTask clk uid id b db = (Ok code data, db') ->
  exists t,
    getTask uid id db = Ok 200 t
    /\ data = Some (applyUpdate (buildUpdate b) (clk 0%nat) t)
    /\ getTask uid id db' = Ok 200 (applyUpdate (buildUpdate b) (clk 0%nat) t)
    /\ (forall other, other <> uid -> getTask other id db' = NotFound).
Proof.
  intros Hnd E.
  destruct (updateTask_store clk uid id b db) as [[_ Hno]|(t0 & F & E')].
  - exfalso. rewrite E in Hno. now apply (Hno code data).
  - rewrite E' in E. injection E as <- <- <-.
    pose proof (findOne_is_findById id uid db t0 Hnd F) as F1.
    pose proof (findById_updateFirst id (applyUpdate (buildUpdate b) (clk 0%nat))
                  db t0 (fun x => eq_refl) F1) as F2.
    assert (Hu : user t0 = uid).
    { unfold findOne in F. apply find_some in F as [_ Hm].
      apply andb_true_iff in Hm as [_ Hm]. now apply Z.eqb_eq in Hm. }
    exists t0. split; [unfold getTask; now rewrite F|].
    split; [exact F2|]. split.
    + unfold getTask. now rewrite (findOne_of_findById _ _ _ _ F2 Hu).
    + intros other Hother. unfold getTask.
      assert (Hid : _id t0 = id).
      { unfold findById in F1. apply find_some in F1 as [_ Hm].
        now apply Z.eqb_eq in Hm. }
      pose proof (findOne_foreign
                    (updateFirst id (applyUpdate (buildUpdate b) (clk 0%nat)) db)
                    (applyUpdate (buildUpdate b) (clk 0%nat) t0) other) as Hnone.
      cbn [applyUpdate _id user] in Hnone. rewrite Hid in Hnone.
      rewrite Hnone; [reflexivity| | |congruence].
      * now rewrite map_id_updateFirst.
      * unfold findById in F2. now apply find_some in F2 as [Hin _].
Qed.

End ReadAfterWrite.

Lemma update_then_get_witness :
  let a := Sample.task 1 7 "report" Pending None [] None in
  exists data db' t',
    updateTask (P := Sample.platform) (Sample.fixedClock Sample.nov2023) 7 1
      (mkTaskBody None None (Some "in-progress") None None None) [a]
    = (Ok 200 data, db')
    /\ data = Some t' /\ getTask 7 1 db' = Ok 200 t' /\ status t' = InProgress
    /\ getTask 8 1 db' = NotFound.
Proof.
  intros a. do 3 eexists. split; [reflexivity|].
  assert (Hnd : NoDup (map _id [a])) by (repeat constructor; intros []).
  destruct (update_then_get (P := Sample.platform) (Sample.fixedClock Sample.nov2023)
              7 1 (mkTaskBody None None (Some "in-progress") None None None) [a]
              200 _ _ Hnd eq_refl) as (t & Hg & Hd & Hg' & Ho).
  injection Hg as <-. split; [reflexivity|]. split; [exact Hg'|].
  split; [reflexivity|]. apply Ho. lia.
Defined.

(* ------------------------------------------------------------------ *)
(** ** Sorting on the client *)

Section InsertionSort.

Variables le1 le2 : Task -> Task -> bool.



End InsertionSort.

Lemma string_ltb_compare (a b : string) :
  String.ltb a b = match String.compare a b with Lt => true | _ => false end.
Proof. reflexivity. Qed.

Lemma valueLt_compare (f : taskUtils.SortField) (a b : Task) :
  taskUtils.valueLt (taskUtils.sortValue f a) (taskUtils.sortValue f b) = true ->
  taskUtils.valueLt (taskUtils.sortValue f b) (taskUtils.sortValue f a) = false.
Proof.
  destruct f; cbn [taskUtils.sortValue taskUtils.valueLt];
    try (intros E; apply Z.ltb_lt in E; apply Z.ltb_ge; lia).
  rewrite !string_ltb_compare, (String.compare_antisym (title a) (title b)).
  now destruct (String.compare (title b) (title a)).
Qed.

Lemma comparator_total (f : taskUtils.SortField) (o : taskUtils.SortOrder)
  (a b : Task) :
  (taskUtils.comparator f o a b <=? 0) = false ->
  (taskUtils.comparator f o b a <=? 0) = true.
Proof.
  unfold taskUtils.comparator.
  destruct (taskUtils.valueLt (taskUtils.sortValue f a) (taskUtils.sortValue f b)) eqn:E1.
  - rewrite (valueLt_compare f a b E1). now destruct o.
  - destruct (taskUtils.valueLt (taskUtils.sortValue f b) (taskUtils.sortValue f a));
      now destruct o.
Qed.

(** The relation the sorted list satisfies between neighbours: no task is
    followed by one that belongs before it. *)
Lemma comparator_in_order (f : taskUtils.SortField) (o : taskUtils.SortOrder)
  (a b : Task) :
  (taskUtils.comparator f o a b <=? 0) = true ->
  match o with
  | taskUtils.Asc =>
      taskUtils.valueLt (taskUtils.sortValue f b) (taskUtils.sortValue f a) = false
  | taskUtils.Desc =>
      taskUtils.valueLt (taskUtils.sortValue f a) (taskUtils.sortValue f b) = false
  end.
Proof.
  unfold taskUtils.comparator.
  destruct (taskUtils.valueLt (taskUtils.sortValue f a) (taskUtils.sortValue f b)) eqn:E1.
  - destruct o; [intros _; now apply valueLt_compare|discriminate].
  - destruct (taskUtils.valueLt (taskUtils.sortValue f b) (taskUtils.sortValue f a));
      destruct o; try discriminate; reflexivity.
Qed.

(** [sortTasks] returns the same tasks, each as often as before, arranged
    so that going down the list the sort value never goes down when
    ascending and never goes up when descending. *)
Theorem sortTasks_sorts (tasks : list Task) (f : taskUtils.SortField)
  (o : taskUtils.SortOrder) :
  Permutation (taskUtils.sortTasks tasks f o) tasks
  /\ Sorted (fun a b =>
               match o with
               | taskUtils.Asc =>
                   taskUtils.valueLt (taskUtils.sortValue f b) (taskUtils.sortValue f a)
                   = false
               | taskUtils.Desc =>
                   taskUtils.valueLt (taskUtils.sortValue f a) (taskUtils.sortValue f b)
                   = false
               end)
            (taskUtils.sortTasks tasks f o).
Proof.
  unfold taskUtils.sortTasks. split.
  - induction tasks as [|x l IH]; [reflexivity|].
    cbn [fold_right]. rewrite Permutation_insertDoc. now constructor.
  - induction tasks as [|x l IH]; [constructor|].
    cbn [fold_right].
    apply Sorted_insertDoc with (le := fun a b => taskUtils.comparator f o a b <=? 0);
      [| |exact IH].
    + intros a b. apply comparator_in_order.
    + intros a b E. apply comparator_in_order. now apply comparator_total.
Qed.




(* ------------------------------------------------------------------ *)
(** ** Passwords *)

Lemma hasChar_firstLine (class : ascii -> bool) (s : string) :
  JS.hasChar class (JS.firstLine s) = true -> JS.hasChar class s = true.
Proof.
  induction s as [|c s IH]; [discriminate|].
  cbn [JS.firstLine]. destruct (JS.isLineEnd c); [discriminate|].
  cbn [JS.hasChar]. intros E. apply orb_true_iff in E as [E|E].
  - now rewrite E.
  - rewrite (IH E). apply orb_true_r.
Qed.

Lemma nth_error_levels (k : nat) :
  (k <= 5)%nat ->
  exists lvl, nth_error Passwords.levels k = Some lvl /\ Passwords.score lvl = k.
Proof.
  intros Hk. do 6 (destruct k as [|k]; [eexists; split; reflexivity|]). lia.
Qed.

Lemma rate_bounds (s : string) : (Passwords.rate s <= 5)%nat.
Proof.
  unfold Passwords.rate, Passwords.b2n.
  destruct (8 <=? String.length s)%nat, (JS.hasChar JS.isLower s),
    (JS.hasChar JS.isUpper s), (JS.hasChar JS.isDigit s),
    (JS.hasChar Passwords.isOther s); lia.
Qed.

Lemma rate_nonempty (s : string) : s <> "" -> (1 <= Passwords.rate s)%nat.
Proof.
  destruct s as [|c s]; [congruence|]. intros _.
  unfold Passwords.rate, Passwords.b2n. cbn [JS.hasChar].
  unfold Passwords.isOther.
  destruct (JS.isLower c), (JS.isUpper c), (JS.isDigit c); cbn [orb negb];
    repeat match goal with |- context [if ?b then _ else _] => destruct b end; lia.
Qed.

(** The strength meter always finds a level; for a non-empty password the
    level is never "Very Weak", since any character adds to the score; and a
    password that passes the policy of the routes (six characters, with a
    lower-case letter, an upper-case letter and a digit) is rated "Good" or
    better. *)
Theorem password_meter_and_policy (s : string) :
  (exists lvl, Passwords.getPasswordStrength s = Some lvl
               /\ (Passwords.score lvl <= 5)%nat
               /\ (s <> "" -> (1 <= Passwords.score lvl)%nat
                              /\ Passwords.text lvl <> "Very Weak"))
  /\ (forall name shortMessage patternMessage,
        Passwords.passwordErrors name shortMessage patternMessage s = [] ->
        (6 <= String.length s)%nat
        /\ exists lvl, Passwords.getPasswordStrength s = Some lvl
                       /\ (3 <= Passwords.score lvl)%nat).
Proof.
  split.
  - unfold Passwords.getPasswordStrength. destruct s as [|c s].
    + eexists. split; [reflexivity|]. split; [cbn; lia|congruence].
    + cbn [JS.truthy].
      destruct (nth_error_levels _ (rate_bounds (String c s))) as (lvl & Hl & Hs).
      exists lvl. split; [exact Hl|]. split; [rewrite Hs; apply rate_bounds|].
      intros Hne. pose proof (rate_nonempty _ Hne) as Hr. rewrite <- Hs in Hr.
      split; [exact Hr|]. intros Htext.
      unfold Passwords.levels in Hl.
      destruct (Passwords.rate (String c s)) as [|[|[|[|[|[|k]]]]]];
        cbn [nth_error] in Hl; try (injection Hl as <-; cbn in *; try lia; discriminate).
      now destruct k.
  - intros name m1 m2 Herr. unfold Passwords.passwordErrors in Herr.
    apply app_nil_both in Herr as [Hlen Hpol].
    destruct (JS.isLength 6 None s) eqn:El; [|discriminate].
    destruct (Passwords.matchesPolicy s) eqn:Ep; [|discriminate].
    unfold JS.isLength in El. apply andb_true_iff in El as [El _].
    apply Nat.leb_le in El. split; [exact El|].
    unfold Passwords.matchesPolicy in Ep.
    apply andb_true_iff in Ep as [Ep E3]. apply andb_true_iff in Ep as [E1 E2].
    apply hasChar_firstLine in E1, E2, E3.
    assert (Hr : (3 <= Passwords.rate s)%nat).
    { unfold Passwords.rate. rewrite E1, E2, E3. cbn [Passwords.b2n]. lia. }
    unfold Passwords.getPasswordStrength.
    destruct s as [|c s]; [cbn in El; lia|]. cbn [JS.truthy].
    destruct (nth_error_levels _ (rate_bounds (String c s))) as (lvl & Hl & Hs).
    exists lvl. split; [exact Hl|]. now rewrite Hs.
Qed.

(* ------------------------------------------------------------------ *)
(** ** Trimming, and the tags of the task form *)

Lemma append_nil_r (s : string) : (s ++ "")%string = s.
Proof. induction s as [|c s IH]; [reflexivity|]. cbn. now rewrite IH. Qed.

Lemma append_assoc (x y z : string) : ((x ++ y) ++ z)%string = (x ++ (y ++ z))%string.
Proof. induction x as [|c x IH]; [reflexivity|]. cbn. now rewrite IH. Qed.

Lemma rev_append_append (s t : string) : JS.rev_append s t = (JS.rev s ++ t)%string.
Proof.
  unfold JS.rev. revert t. induction s as [|c s IH]; intros t; [reflexivity|].
  cbn [JS.rev_append]. rewrite (IH (String c t)), (IH (String c "")).
  now rewrite append_assoc.
Qed.

Lemma rev_cons (c : ascii) (s : string) :
  JS.rev (String c s) = (JS.rev s ++ String c "")%string.
Proof. unfold JS.rev at 1. cbn [JS.rev_append]. apply rev_append_append. Qed.

Lemma rev_snoc (c : ascii) (s : string) :
  JS.rev (s ++ String c "") = String c (JS.rev s).
Proof.
  induction s as [|d s IH]; [reflexivity|].
  cbn [append]. now rewrite !rev_cons, IH.
Qed.

Lemma rev_involutive (s : string) : JS.rev (JS.rev s) = s.
Proof.
  induction s as [|c s IH]; [reflexivity|]. now rewrite rev_cons, rev_snoc, IH.
Qed.

Lemma isBlank_append (x y : string) :
  JS.isBlank (x ++ y) = JS.isBlank x && JS.isBlank y.
Proof.
  induction x as [|c x IH]; [reflexivity|]. cbn [append JS.isBlank].
  now rewrite IH, andb_assoc.
Qed.

Lemma isBlank_rev (s : string) : JS.isBlank (JS.rev s) = JS.isBlank s.
Proof.
  induction s as [|c s IH]; [reflexivity|].
  rewrite rev_cons, isBlank_append, IH. cbn [JS.isBlank].
  now rewrite andb_true_r, andb_comm.
Qed.

Lemma ltrim_append (x y : string) :
  JS.ltrim (x ++ y) = if JS.isBlank x then JS.ltrim y else (JS.ltrim x ++ y)%string.
Proof.
  induction x as [|c x IH]; [reflexivity|].
  cbn [append JS.ltrim JS.isBlank].
  destruct (JS.isWhitespace c); [exact IH|reflexivity].
Qed.

Lemma ltrim_idempotent (s : string) : JS.ltrim (JS.ltrim s) = JS.ltrim s.
Proof.
  induction s as [|c s IH]; [reflexivity|].
  cbn [JS.ltrim]. destruct (JS.isWhitespace c) eqn:E; [exact IH|].
  cbn [JS.ltrim]. now rewrite E.
Qed.

(** Trimming on the right, read from the left. *)
Lemma rtrim_cons (c : ascii) (s : string) :
  JS.rev (JS.ltrim (JS.rev (String c s)))
  = if JS.isBlank s
    then (if JS.isWhitespace c then "" else String c "")
    else String c (JS.rev (JS.ltrim (JS.rev s))).
Proof.
  rewrite rev_cons, ltrim_append, isBlank_rev.
  destruct (JS.isBlank s).
  - cbn [JS.ltrim]. now destruct (JS.isWhitespace c).
  - apply rev_snoc.
Qed.

Lemma rtrim_keeps_head (s : string) :
  JS.ltrim s = s -> JS.ltrim (JS.rev (JS.ltrim (JS.rev s))) = JS.rev (JS.ltrim (JS.rev s)).
Proof.
  destruct s as [|c s]; [reflexivity|].
  cbn [JS.ltrim]. destruct (JS.isWhitespace c) eqn:E.
  - intros H. exfalso.
    assert (Hlen : (String.length (JS.ltrim s) <= String.length s)%nat).
    { clear. induction s as [|d s IH]; [reflexivity|].
      cbn [JS.ltrim]. destruct (JS.isWhitespace d); cbn [String.length]; lia. }
    rewrite H in Hlen. cbn [String.length] in Hlen. lia.
  - intros _. rewrite rtrim_cons, E.
    destruct (JS.isBlank s); cbn [JS.ltrim]; now rewrite E.
Qed.

(** [trim] is idempotent. *)
Lemma trim_idempotent (s : string) : JS.trim (JS.trim s) = JS.trim s.
Proof.
  unfold JS.trim.
  rewrite (rtrim_keeps_head (JS.ltrim s) (ltrim_idempotent s)).
  now rewrite rev_involutive, ltrim_idempotent.
Qed.

(** The tags the task form sends are trimmed and not empty, so the route
    can only object to their length: it turns down the tag at an index
    exactly when that tag has more than 20 characters. *)
Theorem form_tags_are_trimmed (typed : string) :
  Forall (fun g => g <> "" /\ JS.trim g = g) (tasksAPI.processTags typed)
  /\ (forall i,
         In (mkFieldError (PIndex "tags" i)
                          "Each tag must be between 1 and 20 characters")
            (tagErrors (Some (tasksAPI.processTags typed)))
         <-> exists g, nth_error (tasksAPI.processTags typed) i = Some g
                       /\ (20 < String.length g)%nat).
Proof.
  assert (Hall : Forall (fun g => g <> "" /\ JS.trim g = g)
                        (tasksAPI.processTags typed)).
  { unfold tasksAPI.processTags. apply Forall_forall. intros g Hg.
    apply filter_In in Hg as [Hin Ht]. apply in_map_iff in Hin as (x & <- & _).
    split; [|apply trim_idempotent].
    intros E. rewrite E in Ht. discriminate. }
  split; [exact Hall|].
  intros i. cbn [tagErrors]. rewrite In_tagErrorsFrom. split.
  - intros (k & g & E & Hn & Hbad). injection E as <-.
    exists g. split; [exact Hn|].
    rewrite Forall_forall in Hall.
    destruct (Hall g (nth_error_In _ _ Hn)) as [Hne Htrim].
    rewrite Htrim in Hbad. unfold JS.isLength in Hbad.
    apply andb_false_iff in Hbad as [Hbad|Hbad].
    + apply Nat.leb_gt in Hbad. destruct g; [congruence|cbn in Hbad; lia].
    + now apply Nat.leb_gt in Hbad.
  - intros (g & Hn & Hlong). exists i, g. split; [reflexivity|]. split; [exact Hn|].
    rewrite Forall_forall in Hall.
    destruct (Hall g (nth_error_In _ _ Hn)) as [_ Htrim].
    rewrite Htrim. unfold JS.isLength. apply andb_false_iff. right.
    now apply Nat.leb_gt.
Qed.

(* ------------------------------------------------------------------ *)
(** ** Whole numbers in the query string *)


Lemma digit_of_mod (n : Z) :
  0 <= n ->
  let d := ascii_of_N (Z.to_N (48 + n mod 10)) in
  JS.isDigit d = true /\ JS.digitVal d = n mod 10.
Proof.
  intros Hn d.
  assert (Hm : 0 <= n mod 10 < 10) by (apply Z.mod_pos_bound; lia).
  assert (Hd : N_of_ascii d = Z.to_N (48 + n mod 10)).
  { unfold d. apply N_ascii_embedding. lia. }
  unfold JS.isDigit, JS.digitVal. rewrite Hd. split.
  - apply andb_true_iff. split; apply N.leb_le; lia.
  - lia.
Qed.

Lemma digitsRev_spec (fuel : nat) (n : Z) :
  0 <= n -> (Z.to_nat n < fuel)%nat ->
  JS.allDigits (JS.digitsRev fuel n) = true
  /\ JS.valRev (JS.digitsRev fuel n) = n
  /\ JS.digitsRev fuel n <> "".
Proof.
  revert n. induction fuel as [|fuel IH]; intros n Hn Hfuel; [lia|].
  cbn [JS.digitsRev].
  destruct (digit_of_mod n Hn) as [Hd Hv].
  destruct (Z.ltb_spec n 10) as [Hlt|Hge].
  - cbn [JS.allDigits JS.valRev]. rewrite Hd, Hv.
    repeat split; [|discriminate]. rewrite Z.mod_small; lia.
  - assert (Hq : 0 <= n / 10 /\ n / 10 < n).
    { split; [apply Z.div_pos; lia|apply Z.div_lt; lia]. }
    destruct (IH (n / 10)) as (Ha & Hval & _); [lia|lia|].
    cbn [JS.allDigits JS.valRev]. rewrite Hd, Hv, Ha, Hval.
    repeat split; [|discriminate].
    pose proof (Z.div_mod n 10). lia.
Qed.

Lemma allDigits_append (x y : string) :
  JS.allDigits (x ++ y) = JS.allDigits x && JS.allDigits y.
Proof.
  induction x as [|c x IH]; [reflexivity|]. cbn [append JS.allDigits].
  now rewrite IH, andb_assoc.
Qed.

Lemma allDigits_rev (s : string) : JS.allDigits (JS.rev s) = JS.allDigits s.
Proof.
  induction s as [|c s IH]; [reflexivity|].
  rewrite rev_cons, allDigits_append, IH. cbn [JS.allDigits].
  now rewrite andb_true_r, andb_comm.
Qed.

Lemma digitsVal_append (acc : Z) (x : string) (c : ascii) :
  JS.allDigits x = true -> JS.isDigit c = true ->
  JS.digitsVal acc (x ++ String c "") = 10 * JS.digitsVal acc x + JS.digitVal c.
Proof.
  revert acc. induction x as [|d x IH]; intros acc Hx Hc.
  - cbn [append JS.digitsVal]. now rewrite Hc.
  - cbn [JS.allDigits] in Hx. apply andb_true_iff in Hx as [Hd Hx].
    cbn [append JS.digitsVal]. rewrite Hd. now apply IH.
Qed.

Lemma digitsVal_rev (s : string) :
  JS.allDigits s = true -> JS.digitsVal 0 (JS.rev s) = JS.valRev s.
Proof.
  induction s as [|c s IH]; [reflexivity|].
  cbn [JS.allDigits JS.valRev]. intros H. apply andb_true_iff in H as [Hc Hs].
  rewrite rev_cons, digitsVal_append; [|now rewrite allDigits_rev|assumption].
  rewrite (IH Hs). lia.
Qed.

Lemma rev_nonempty (s : string) : s <> "" -> JS.rev s <> "".
Proof.
  destruct s as [|c s]; [congruence|]. intros _. rewrite rev_cons.
  now destruct (JS.rev s).
Qed.

Lemma parseInt10_digits (s : string) :
  JS.startsWithDigit s = true -> JS.parseInt10 s = Some (JS.digitsVal 0 s).
Proof.
  destruct s as [|c s]; [discriminate|].
  destruct c as [[] [] [] [] [] [] [] []]; try discriminate; reflexivity.
Qed.

Lemma isIntString_digits (s : string) :
  JS.startsWithDigit s = true -> JS.allDigits s = true -> JS.isIntString s = true.
Proof.
  destruct s as [|c s]; [discriminate|].
  destruct c as [[] [] [] [] [] [] [] []]; try discriminate; intros _ H; exact H.
Qed.

(** A whole number that is not negative is written in digits and read back
    as itself, by [parseInt] as by [isInt]. *)
Lemma numberToString_parse (n : Z) :
  0 <= n ->
  JS.parseInt10 (JS.numberToString n) = Some n
  /\ JS.isIntString (JS.numberToString n) = true
  /\ JS.numberToString n <> "".
Proof.
  intros Hn. unfold JS.numberToString.
  destruct (Z.ltb_spec n 0); [lia|].
  destruct (digitsRev_spec (S (Z.to_nat n)) n Hn ltac:(lia)) as (Ha & Hv & Hne).
  set (ds := JS.digitsRev (S (Z.to_nat n)) n) in *.
  assert (Hall : JS.allDigits (JS.rev ds) = true) by now rewrite allDigits_rev.
  assert (Hstart : JS.startsWithDigit (JS.rev ds) = true).
  { pose proof (rev_nonempty ds Hne) as Hr.
    destruct (JS.rev ds) as [|c r]; [congruence|].
    cbn [JS.allDigits] in Hall. now apply andb_true_iff in Hall as [Hc _]. }
  split; [|split].
  - rewrite (parseInt10_digits _ Hstart), (digitsVal_rev ds Ha). now rewrite Hv.
  - now apply isIntString_digits.
  - now apply rev_nonempty.
Qed.

Lemma digitsVal_nonneg (acc : Z) (s : string) : 0 <= acc -> 0 <= JS.digitsVal acc s.
Proof.
  revert acc. induction s as [|c s IH]; intros acc Hacc; [exact Hacc|].
  cbn [JS.digitsVal]. destruct (JS.isDigit c) eqn:E; [|exact Hacc].
  apply IH. unfold JS.isDigit in E. apply andb_true_iff in E as [E _].
  apply N.leb_le in E. unfold JS.digitVal. lia.
Qed.

(** [isInt] with a lower bound of at least 1 accepts the string of a whole
    number exactly when the number is within the bounds. *)
Lemma isInt_numberToString (lo : Z) (hi : option Z) (n : Z) :
  1 <= lo ->
  JS.isInt lo hi (JS.numberToString n)
  = (lo <=? n) && match hi with Some m => n <=? m | None => true end.
Proof.
  intros Hlo. destruct (Z.lt_ge_cases n 0) as [Hneg|Hpos].
  - replace (lo <=? n) with false by (symmetry; apply Z.leb_gt; lia).
    cbn [andb]. unfold JS.isInt, JS.numberToString.
    apply Z.ltb_lt in Hneg as ->. apply andb_false_iff. right.
    set (r := JS.rev _). cbn [JS.parseInt10 JS.ltrim JS.isWhitespace].
    change (JS.parseInt10 (String "-" r))
      with (if JS.startsWithDigit r then Some (- JS.digitsVal 0 r) else None).
    destruct (JS.startsWithDigit r); [|reflexivity].
    pose proof (digitsVal_nonneg 0 r ltac:(lia)).
    apply andb_false_iff. left. apply Z.leb_gt. lia.
  - destruct (numberToString_parse n Hpos) as (Hp & Hi & _).
    unfold JS.isInt. now rewrite Hp, Hi.
Qed.

Lemma entry_given (v : option string) : given (tasksAPI.entry v) = tasksAPI.entry v.
Proof.
  unfold tasksAPI.entry, given. destruct v as [s|]; [|reflexivity].
  destruct s; reflexivity.
Qed.

Lemma entry_number (n : Z) :
  tasksAPI.entry (Some (JS.numberToString n)) = Some (JS.numberToString n)
  \/ n < 0.
Proof.
  destruct (Z.lt_ge_cases n 0) as [Hneg|Hpos]; [now right|left].
  destruct (numberToString_parse n Hpos) as (_ & _ & Hne).
  unfold tasksAPI.entry. destruct (JS.numberToString n); [congruence|reflexivity].
Qed.

(** A whole number among the filters, as it reaches the handler. *)
Lemma number_param (lo : Z) (hi : option Z) (v : option Z) (dflt : Z) :
  1 <= lo ->
  ~ turnedDown (JS.isInt lo hi) (tasksAPI.entry (option_map JS.numberToString v)) ->
  match v with
  | Some n =>
      lo <= n /\ match hi with Some m => n <= m | None => True end
      /\ JS.parseIntOr (tasksAPI.entry (option_map JS.numberToString v)) dflt = n
  | None => JS.parseIntOr (tasksAPI.entry (option_map JS.numberToString v)) dflt = dflt
  end.
Proof.
  intros Hlo Hok. destruct v as [n|]; [|reflexivity]. cbn [option_map] in *.
  assert (Hsent : tasksAPI.entry (Some (JS.numberToString n))
                  = Some (JS.numberToString n)).
  { destruct (entry_number n) as [E|Hneg]; [exact E|].
    unfold tasksAPI.entry, JS.numberToString. apply Z.ltb_lt in Hneg as ->.
    reflexivity. }
  rewrite Hsent in *.
  destruct (JS.isInt lo hi (JS.numberToString n)) eqn:E;
    [|exfalso; apply Hok; now exists (JS.numberToString n)].
  rewrite isInt_numberToString in E by assumption.
  apply andb_true_iff in E as [E1 E2]. apply Z.leb_le in E1.
  split; [exact E1|]. split; [destruct hi; [now apply Z.leb_le|exact I]|].
  destruct (numberToString_parse n ltac:(lia)) as (Hp & _).
  unfold JS.parseIntOr. rewrite Hp. destruct (Z.eqb_spec n 0); [lia|reflexivity].
Qed.

Section ClientQuery.

Context {P : Platform}.

Lemma parseList_inr (uid : ObjectId) (p : ListParams) (d : Descriptor) :
  parseList uid p = inr d ->
  listErrors p = []
  /\ d = mkDescriptor (JS.parseIntOr (p_page p) 1) (JS.parseIntOr (p_limit p) 10)
                      ((JS.parseIntOr (p_page p) 1 - 1) * JS.parseIntOr (p_limit p) 10)
                      (buildQuery uid p)
                      (orElse (given (p_sortBy p)) "createdAt")
                      (match p_sortOrder p with
                       | Some o => if String.eqb o "asc" then 1 else -1
                       | None => -1
                       end).
Proof.
  unfold parseList. destruct (listErrors p); [|discriminate].
  intros E. injection E as <-. split; reflexivity.
Qed.

Lemma getTasks_of_descriptor (uid : ObjectId) (p : ListParams) (db : list Task)
  (d : Descriptor) (m : option (string -> bool)) :
  parseList uid p = inr d -> compileSearch (d_query d) = Some m ->
  castable (d_query d) = true ->
  let found := filter (matchDoc (d_query d) m) db in
  let tasks := firstn (Z.to_nat (d_limit d))
                 (skipn (Z.to_nat (d_startIndex d))
                    (sortDocs (d_sortBy d) (d_sortOrder d)
                       (scanOrder (tieRank (d_query d) (d_sortBy d) (d_sortOrder d)
                                           (d_limit d) (d_startIndex d)) found))) in
  getTasks uid p db
  = Ok 200 (mkListData (Z.of_nat (List.length tasks)) (Z.of_nat (List.length found))
              (if d_startIndex d + d_limit d <? Z.of_nat (List.length found)
               then Some (mkPageRef (d_page d + 1) (d_limit d)) else None)
              (if 0 <? d_startIndex d
               then Some (mkPageRef (d_page d - 1) (d_limit d)) else None)
              tasks).
Proof.
  intros Hp Hm Hc found tasks. unfold getTasks, countDocuments, findPage, selectDocs.
  now rewrite Hp, Hm, Hc.
Qed.

(** Page and limit of the filters, as the descriptor has them. *)
Lemma queryOf_descriptor (uid : ObjectId) (f : tasksAPI.TaskFilters) (d : Descriptor) :
  parseList uid (tasksAPI.queryOf f) = inr d ->
  match tasksAPI.f_page f with
  | Some n => d_page d = n /\ 1 <= n
  | None => d_page d = 1
  end
  /\ match tasksAPI.f_limit f with
     | Some l => d_limit d = l /\ 1 <= l <= 100
     | None => d_limit d = 10
     end.
Proof.
  intros Hd. apply parseList_inr in Hd as [Herr ->]. cbn [d_page d_limit].
  apply listErrors_nil in Herr as (Hpage & Hlimit & _).
  cbn [tasksAPI.queryOf p_page p_limit] in *.
  pose proof (number_param 1 None (tasksAPI.f_page f) 1 ltac:(lia) Hpage) as H1.
  pose proof (number_param 1 (Some 100) (tasksAPI.f_limit f) 10 ltac:(lia) Hlimit) as H2.
  split.
  - destruct (tasksAPI.f_page f); [|exact H1]. tauto.
  - destruct (tasksAPI.f_limit f); [|exact H2]. repeat split; tauto.
Qed.

(** The accepting side of the validation.  A request passes when its page
    and limit are absent or the numerals of whole numbers within range (page
    at least 1, limit from 1 to 100) and its status, priority, sortBy and
    sortOrder are absent or members of their enumerations, whatever its date
    strings are; the descriptor has the numbers of the request, and 1 and 10
    for those left out. *)
Lemma parseList_accepts_in_range (uid : ObjectId) (p : ListParams)
  (page limit : option Z) :
  p_page p = option_map JS.numberToString page ->
  p_limit p = option_map JS.numberToString limit ->
  (forall n, page = Some n -> 1 <= n) ->
  (forall l, limit = Some l -> 1 <= l <= 100) ->
  (forall s, p_status p = Some s -> In s statusNames) ->
  (forall s, p_priority p = Some s -> In s priorityNames) ->
  (forall s, p_sortBy p = Some s -> In s sortFields) ->
  (forall s, p_sortOrder p = Some s -> In s ["asc"; "desc"]) ->
  exists d,
    parseList uid p = inr d
    /\ d_page d = orElse page 1 /\ d_limit d = orElse limit 10
    /\ d_startIndex d = (orElse page 1 - 1) * orElse limit 10.
Proof.
  intros Hpage Hlimit Hp Hl Hst Hpr Hsb Hso.
  assert (Hnum : forall lo hi v,
             1 <= lo ->
             (forall n, v = Some n ->
                        lo <= n /\ match hi with Some m => n <= m | None => True end) ->
             ~ turnedDown (JS.isInt lo hi) (option_map JS.numberToString v)
             /\ forall dflt, JS.parseIntOr (option_map JS.numberToString v) dflt
                             = orElse v dflt).
  { intros lo hi [n|] Hlo Hv; cbn [option_map orElse].
    - destruct (Hv n eq_refl) as [H1 H2]. split.
      + intros (s' & [= <-] & Hbad). rewrite isInt_numberToString in Hbad by exact Hlo.
        apply andb_false_iff in Hbad as [Hbad|Hbad].
        * apply Z.leb_gt in Hbad. lia.
        * destruct hi; [apply Z.leb_gt in Hbad; lia|discriminate].
      + intros dflt. unfold JS.parseIntOr.
        destruct (numberToString_parse n ltac:(lia)) as (-> & _).
        destruct (Z.eqb_spec n 0); [lia|reflexivity].
    - split; [|reflexivity]. intros (s' & Hs' & _). discriminate. }
  destruct (Hnum 1 None page ltac:(lia)) as [Hpg Hpv].
  { intros n Hn. split; [now apply Hp|exact I]. }
  destruct (Hnum 1 (Some 100) limit ltac:(lia)) as [Hlm Hlv].
  { intros l Hn. now apply Hl. }
  assert (Henum : forall xs v, (forall s, v = Some s -> In s xs) ->
                               ~ turnedDown (JS.isIn xs) v).
  { intros xs v Hin (s' & -> & Hbad).
    apply (proj2 (isIn_In xs s')) in Hin; [congruence|reflexivity]. }
  assert (Herr : listErrors p = []).
  { apply listErrors_nil. rewrite Hpage, Hlimit. repeat split; auto. }
  unfold parseList. rewrite Herr, Hpage, Hlimit, Hpv, Hlv.
  eexists. repeat split.
Qed.

(** What the client sends is what the handler acts on.  No filter is sent
    empty, so the handler ignores none that it receives; and whenever the
    request passes validation, the page number and the limit of the filters
    are within range and are the page and the limit of the descriptor. *)
Theorem client_query_reaches_the_handler (uid : ObjectId)
  (f : tasksAPI.TaskFilters) :
  let p := tasksAPI.queryOf f in
  given (p_status p) = p_status p /\ given (p_priority p) = p_priority p
  /\ given (p_search p) = p_search p /\ given (p_tag p) = p_tag p
  /\ given (p_dueBefore p) = p_dueBefore p /\ given (p_dueAfter p) = p_dueAfter p
  /\ given (p_sortBy p) = p_sortBy p
  /\ (forall d, parseList uid p = inr d ->
        match tasksAPI.f_page f with
        | Some n => d_page d = n /\ 1 <= n
        | None => d_page d = 1
        end
        /\ match tasksAPI.f_limit f with
           | Some l => d_limit d = l /\ 1 <= l <= 100
           | None => d_limit d = 10
           end).
Proof.
  intros p. unfold p, tasksAPI.queryOf;
    cbn [p_status p_priority p_search p_tag p_dueBefore p_dueAfter p_sortBy].
  rewrite !entry_given. do 7 (split; [reflexivity|]).
  intros d Hd. exact (queryOf_descriptor uid f d Hd).
Qed.

(** The Next button.  Let no two tasks of the requester have the same sort
    key, and let the answer to the current filters carry a [next] link.  Then
    the request the button sends, with the page number raised by one, is
    answered from the same list as the current one, the matches of the
    filters in the order of the key: the current page is one stretch of
    [limit] items of it and the new page the stretch that follows.  The new
    page is not empty, its total is the same, and its [prev] link leads back
    to the current page. *)
Theorem next_button_shows_the_following_items (uid : ObjectId)
  (f : tasksAPI.TaskFilters) (n : Z) (db : list Task) (code : Z) (r1 : ListData)
  (d : Descriptor) :
  tasksAPI.f_page f = Some n ->
  getTasks uid (tasksAPI.queryOf f) db = Ok code r1 ->
  parseList uid (tasksAPI.queryOf f) = inr d ->
  l_next r1 <> None ->
  (n + 1) * d_limit d <= JS.maxSafe ->
  (forall a b, In a db -> In b db -> user a = uid -> user b = uid ->
               compareField (d_sortBy d) a b = Eq -> a = b) ->
  exists r2 m all,
    getTasks uid (tasksAPI.queryOf (tasksAPI.setPage (n + 1) f)) db = Ok 200 r2
    /\ compileSearch (d_query d) = Some m
    /\ all = sortDocs (d_sortBy d) (d_sortOrder d) (filter (matchDoc (d_query d) m) db)
    /\ d_page d = n /\ 1 <= n /\ 1 <= d_limit d <= 100
    /\ l_next r1 = Some (mkPageRef (n + 1) (d_limit d))
    /\ l_data r1 = firstn (Z.to_nat (d_limit d))
                     (skipn (Z.to_nat ((n - 1) * d_limit d)) all)
    /\ l_data r2 = firstn (Z.to_nat (d_limit d))
                     (skipn (Z.to_nat (n * d_limit d)) all)
    /\ l_data r2 <> []
    /\ l_total r2 = l_total r1
    /\ l_prev r2 = Some (mkPageRef n (d_limit d)).
Proof.
  intros Hpage E1 P1 Hnext _ Hties.
  destruct (getTasks_ok uid _ db code r1 E1)
    as (d1 & m & P1' & Herr1 & Hm & Hcast & _ & Ht1 & _ & Hn1 & _ & Hdata1).
  rewrite P1 in P1'. injection P1' as <-.
  destruct (queryOf_descriptor uid f d P1) as [Hp1 _].
  rewrite Hpage in Hp1. destruct Hp1 as [Hp1 Hn].
  destruct (parseList_accepts uid _ Herr1) as (d' & Hd & _ & Hs1 & _ & Hl1 & _).
  rewrite P1 in Hd. injection Hd as <-.
  destruct (parseList_parts uid _ d P1) as (_ & Hu & Ho & _).
  pose proof P1 as P1''. apply parseList_inr in P1'' as [_ Hd1].
  set (p2 := tasksAPI.queryOf (tasksAPI.setPage (n + 1) f)).
  assert (Hpage2 : ~ turnedDown (JS.isInt 1 None) (p_page p2)).
  { intros (s & Hs & Hbad). unfold p2 in Hs.
    cbn [tasksAPI.queryOf tasksAPI.setPage tasksAPI.f_page p_page option_map] in Hs.
    destruct (entry_number (n + 1)) as [E|]; [|lia].
    rewrite E in Hs. injection Hs as <-.
    rewrite isInt_numberToString in Hbad by lia. cbn in Hbad.
    rewrite andb_true_r in Hbad. apply Z.leb_gt in Hbad. lia. }
  assert (Herr2 : listErrors p2 = []).
  { apply listErrors_nil. apply listErrors_nil in Herr1.
    split; [exact Hpage2|]. exact (proj2 Herr1). }
  assert (Hpg2 : JS.parseIntOr (p_page p2) 1 = n + 1).
  { pose proof (number_param 1 None (Some (n + 1)) 1 ltac:(lia)) as H.
    cbn [option_map] in H. now apply H in Hpage2 as (_ & _ & Hv). }
  set (d2 := mkDescriptor (n + 1) (d_limit d) (n * d_limit d) (d_query d)
                          (d_sortBy d) (d_sortOrder d)).
  assert (P2 : parseList uid p2 = inr d2).
  { unfold parseList. rewrite Herr2, Hpg2. unfold d2. rewrite Hd1.
    cbn [d_limit d_query d_sortBy d_sortOrder].
    replace (n + 1 - 1) with n by ring. reflexivity. }
  pose proof (getTasks_of_descriptor uid p2 db d2 m P2 Hm Hcast) as E2.
  cbn zeta in E2. cbn [d2 d_limit d_startIndex d_sortBy d_sortOrder d_query d_page] in E2.
  rewrite (findPage_without_ties uid _ m _ _ _ db Hu Ho Hties) in E2.
  rewrite (findPage_without_ties uid _ m _ _ _ db Hu Ho Hties) in Hdata1.
  set (all := sortDocs (d_sortBy d) (d_sortOrder d)
                (filter (matchDoc (d_query d) m) db)) in *.
  assert (Hlen : List.length all = List.length (filter (matchDoc (d_query d) m) db))
    by apply length_sortDocs.
  assert (Hmore : d_startIndex d + d_limit d < l_total r1).
  { rewrite Hn1 in Hnext. destruct (Z.ltb_spec (d_startIndex d + d_limit d) (l_total r1));
      [assumption|congruence]. }
  rewrite Hs1, Hp1 in *.
  eexists. exists m, all. split; [exact E2|].
  cbn [l_data l_total l_prev].
  split; [exact Hm|]. split; [reflexivity|]. split; [reflexivity|].
  split; [exact Hn|]. split; [exact Hl1|].
  split.
  { rewrite Hn1. apply Z.ltb_lt in Hmore as ->. reflexivity. }
  split; [exact Hdata1|]. split; [reflexivity|].
  split.
  { intros Hnil. apply (f_equal (@List.length Task)) in Hnil.
    rewrite length_firstn, length_skipn, Hlen in Hnil. cbn [List.length] in Hnil.
    rewrite Ht1 in Hmore. nia. }
  split; [now rewrite Ht1|].
  destruct (Z.ltb_spec 0 (n * d_limit d)) as [_|Hle]; [|nia].
  do 2 f_equal. ring.
Qed.

(** The line under the list, "Showing [from] to [upto] of [total]".  On a
    page that has items, the range it names is a range of positions among the
    matches, and it holds exactly as many positions as there are items on the
    page. *)
Theorem showing_range_counts_the_items (uid : ObjectId)
  (f : tasksAPI.TaskFilters) (n limit : Z) (db : list Task) (code : Z)
  (r : ListData) :
  tasksAPI.f_page f = Some n -> tasksAPI.f_limit f = Some limit ->
  getTasks uid (tasksAPI.queryOf f) db = Ok code r ->
  l_data r <> [] ->
  1 <= tasksAPI.showingFrom n limit
  /\ tasksAPI.showingFrom n limit <= tasksAPI.showingTo n limit (l_total r)
  /\ tasksAPI.showingTo n limit (l_total r) <= l_total r
  /\ tasksAPI.showingTo n limit (l_total r) - tasksAPI.showingFrom n limit + 1
     = l_count r.
Proof.
  intros Hpage Hlimit E Hdata.
  destruct (getTasks_ok uid _ db code r E)
    as (d & m & Pd & Herr & _ & _ & _ & Ht & Hc & _ & _ & Hd).
  destruct (queryOf_descriptor uid f d Pd) as [Hp Hl].
  rewrite Hpage in Hp. rewrite Hlimit in Hl.
  destruct Hp as [Hp Hn]. destruct Hl as [Hl Hrange].
  destruct (parseList_accepts uid _ Herr) as (d' & Hd' & _ & Hs & _).
  rewrite Pd in Hd'. injection Hd' as <-.
  rewrite Hp, Hl in *.
  assert (Hlen : Z.of_nat (List.length (l_data r))
                 = Z.min limit (l_total r - (n - 1) * limit)
                 /\ (n - 1) * limit < l_total r).
  { assert (Hne : List.length (l_data r) <> 0%nat)
      by (destruct (l_data r); [congruence|discriminate]).
    rewrite Hd in *.
    rewrite length_firstn, length_skipn, length_sortDocs, length_scanOrder in *.
    rewrite Hs, Ht. nia. }
  destruct Hlen as [Hlen Hlt]. rewrite Hc, Hlen.
  unfold tasksAPI.showingFrom, tasksAPI.showingTo. nia.
Qed.

End ClientQuery.

Lemma next_button_shows_the_following_items_witness :
  let f := tasksAPI.mkTaskFilters (Some 1) (Some 1) None None None None None None
             (Some "dueDate") (Some "asc") in
  exists r1 r2,
    getTasks (P := Sample.platform) 7 (tasksAPI.queryOf f) Sample.midnightTasks
    = Ok 200 r1
    /\ getTasks (P := Sample.platform) 7
         (tasksAPI.queryOf (tasksAPI.setPage 2 f)) Sample.midnightTasks = Ok 200 r2
    /\ map _id (l_data r1) = [1] /\ map _id (l_data r2) = [2]
    /\ l_data r2 <> [] /\ l_total r2 = l_total r1.
Proof.
  intros f. do 2 eexists. split; [reflexivity|]. split; [reflexivity|].
  split; [reflexivity|]. split; [reflexivity|].
  assert (Hnext : l_next (mkListData 1 3 (Some (mkPageRef 2 1)) None
                            [Sample.task 1 7 "report" Pending
                               (Some (2 * msPerDay - 1)) [] None]) <> None)
    by discriminate.
  assert (Hsafe : (1 + 1) * 1 <= JS.maxSafe) by (unfold JS.maxSafe; lia).
  assert (Hties : forall a b, In a Sample.midnightTasks -> In b Sample.midnightTasks ->
                    user a = 7 -> user b = 7 ->
                    compareField "dueDate" a b = Eq -> a = b).
  { intros a b [<-|[<-|[<-|[]]]] [<-|[<-|[<-|[]]]] _ _ H;
      try reflexivity; discriminate H. }
  destruct (next_button_shows_the_following_items (P := Sample.platform) 7 f 1
              Sample.midnightTasks 200 _ _ eq_refl eq_refl eq_refl Hnext Hsafe Hties)
    as (r2 & m & all & E2 & _ & _ & _ & _ & _ & _ & _ & _ & Hne & Htot & _).
  injection E2 as <-. split; [exact Hne|exact Htot].
Defined.

Lemma showing_range_counts_the_items_witness :
  let f := tasksAPI.mkTaskFilters (Some 2) (Some 2) None None None None None None
             (Some "dueDate") (Some "asc") in
  exists r,
    getTasks (P := Sample.platform) 7 (tasksAPI.queryOf f) Sample.midnightTasks
    = Ok 200 r
    /\ tasksAPI.showingFrom 2 2 = 3 /\ tasksAPI.showingTo 2 2 (l_total r) = 3
    /\ l_count r = 1.
Proof.
  intros f. eexists. split; [reflexivity|].
  split; [reflexivity|]. split; [reflexivity|].
  assert (Hdata : l_data (mkListData 1 3 None (Some (mkPageRef 1 2))
                            [Sample.task 3 7 "release" InProgress
                               (Some (2 * msPerDay + 7200000)) [] None]) <> [])
    by discriminate.
  destruct (showing_range_counts_the_items (P := Sample.platform) 7 f 2 2
              Sample.midnightTasks 200 _ eq_refl eq_refl eq_refl Hdata)
    as (_ & _ & _ & Hc).
  rewrite <- Hc. reflexivity.
Defined.

(* ------------------------------------------------------------------ *)
(** ** The list and the statistics *)

Section ListAndStatistics.

Context {P : Platform}.

Lemma total_by_status (uid : ObjectId) (st : option string) (s : Status)
  (db : list Task) :
  st = Some (statusName s) ->
  Z.of_nat (List.length
              (filter (matchDoc (mkQuery uid st None None None None None) None) db))
  = countStatus s (filter (fun t => user t =? uid) db).
Proof.
  intros ->. unfold countStatus.
  change (countWhere (matchDoc (mkQuery uid (Some (statusName s)) None None None
                                        None None) None) db
          = countWhere (fun t => Status_eqb (status t) s)
                       (filter (fun t => user t =? uid) db)).
  rewrite countWhere_filter. apply countWhere_ext. intros x.
  unfold matchDoc, dueCmp, eqField.
  cbn [q_user q_status q_priority q_tagsIn q_dueLte q_dueGte].
  rewrite !andb_true_r. f_equal. now destruct (status x), s.
Qed.

(** The totals of the list are the counts of the statistics.  A request
    without filters finds as many tasks as the statistics give as [total],
    and a request that filters on a status alone finds as many as the
    statistics count for that status. *)
Theorem list_totals_match_statistics (clk : Clock) (uid : ObjectId)
  (p : ListParams) (db : list Task) (code : Z) (r : ListData) :
  p_priority p = None -> p_search p = None -> p_tag p = None ->
  p_dueBefore p = None -> p_dueAfter p = None ->
  getTasks uid p db = Ok code r ->
  exists s,
    getStats clk uid db = Ok 200 s
    /\ (p_status p = None -> l_total r = total (s_stats s))
    /\ (p_status p = Some "pending" -> l_total r = pending (s_stats s))
    /\ (p_status p = Some "in-progress" -> l_total r = in_progress (s_stats s))
    /\ (p_status p = Some "completed" -> l_total r = completed (s_stats s))
    /\ (p_status p = Some "cancelled" -> l_total r = cancelled (s_stats s)).
Proof.
  intros Hpr Hse Htag Hb Ha E.
  destruct (getTasks_ok uid p db code r E)
    as (d & m & Pd & _ & Hm & _ & _ & Ht & _).
  apply parseList_inr in Pd as [_ ->]. cbn [d_query] in *.
  unfold buildQuery in *. rewrite Hpr, Hse, Htag, Hb, Ha in *.
  cbn [given option_map] in *. unfold compileSearch in Hm. cbn [q_or] in Hm.
  injection Hm as <-.
  unfold getStats. eexists. split; [reflexivity|].
  cbn [s_stats]. rewrite getUserStats_buckets.
  cbn [total pending in_progress completed cancelled].
  rewrite Ht. split; [|repeat split].
  - intros ->. cbn [given].
    change (countWhere (matchDoc (mkQuery uid None None None None None None) None) db
            = countWhere (fun t => user t =? uid) db).
    apply countWhere_ext. intros x. unfold matchDoc, dueCmp, eqField.
    cbn [q_user q_status q_priority q_tagsIn q_dueLte q_dueGte].
    now rewrite !andb_true_r.
  - intros ->. now apply (total_by_status uid _ Pending).
  - intros ->. now apply (total_by_status uid _ InProgress).
  - intros ->. now apply (total_by_status uid _ Completed).
  - intros ->. now apply (total_by_status uid _ Cancelled).
Qed.

End ListAndStatistics.

Lemma list_totals_match_statistics_witness :
  exists r s,
    getTasks (P := Sample.platform) 7
      (mkListParams None None (Some "pending") None None None None None None None)
      Sample.midnightTasks = Ok 200 r
    /\ getStats (P := Sample.platform) (Sample.fixedClock Sample.nov2023) 7
         Sample.midnightTasks = Ok 200 s
    /\ l_total r = 2 /\ pending (s_stats s) = 2.
Proof.
  do 2 eexists. split; [reflexivity|]. split; [reflexivity|].
  split; [reflexivity|].
  destruct (list_totals_match_statistics (P := Sample.platform)
              (Sample.fixedClock Sample.nov2023) 7
              (mkListParams None None (Some "pending") None None None None None
                            None None)
              Sample.midnightTasks 200 _ eq_refl eq_refl eq_refl eq_refl eq_refl
              eq_refl)
    as (s & Hs & _ & Hp & _).
  injection Hs as <-. exact (eq_sym (Hp eq_refl)).
Defined.
